(** * SafeHer emergency controller: alert lifecycle and contact store

    A shallow embedding of the backend's emergency controller
    (controllers/emergencyController), the two Mongoose models it drives
    (EmergencyAlert, EmergencyContact) with the casts, setters, validators
    and indexes their schemas declare, the User model's [updateLocation],
    the SMS service and the authentication middleware, followed by the
    properties of the alert lifecycle and of the contact store.

    Conventions of the embedding.
    - A collection is the list of its documents in insertion order; an
      ObjectId is a natural number handed out by the [nextId] counter.
    - Handlers are state transformers over [World]; every [Date.now()] and
      [new Date()] of the sources, and every time stamp Mongoose writes
      into a contact under [timestamps: true], is one reading of the
      environment's clock.
    - A field of a request body keeps its JavaScript value: absent
      ([undefined]), [null], a boolean, a number or a string.  The handlers
      test some of them before anything is cast, and the schema decides by
      casting and validating what is stored.  Arrays and objects as field
      values, update operators ([$set] and the like) and keys that are not
      paths of the schema are outside the model.
    - A string holds the UTF-8 encoding of the JavaScript string.
    - A document is stored only when its schema accepts it: a path that
      does not cast, a validator that fails, the unique index on
      (user, phone) of the contacts and the 2dsphere indexes on [location]
      make the write throw.  Connectivity failures of the driver are
      outside the model.
    - Timestamps are integer milliseconds.  [Math.floor(x / 1000)] on
      integer milliseconds below 2^53 is the floor division of [Z].
    - [createdAt] and [updatedAt] are modelled for contacts; for alerts
      and users they are not, and nothing is stated about them.  A Boolean
      path set to [null] is stored as [false].
    - Access is not concurrent: the callbacks of [contacts.map] run one
      after the other in the order of the contacts (each writes only the
      document of its own contact), and a sort keeps documents with equal
      keys in their stored order. *)

From Stdlib Require Import ZArith List String Ascii Bool Lia PeanoNat.
From Stdlib Require Import Permutation Sorted PrimFloat DecimalString.
From Stdlib Require FloatOps FloatAxioms SpecFloat.
Import ListNotations.
Local Open Scope string_scope.
Local Open Scope list_scope.
Local Open Scope nat_scope.

(** ** JavaScript values of a JSON request body *)

Module JS.

Inductive value :=
| undefined
| null
| boolean (b : bool)
| number (x : float)
| str (s : string).

(** ToBoolean: [0], [-0], [NaN], the empty string, [null], [undefined]
    and [false] are falsy. *)
Definition truthy (v : value) : bool :=
  match v with
  | undefined => false
  | null => false
  | boolean b => b
  | number x => negb (PrimFloat.eqb x 0%float) && negb (PrimFloat.is_nan x)
  | str s => negb (String.eqb s "")
  end.

(** Truthiness of an optional string field ([undefined] when absent). *)
Definition truthy_str (s : option string) : bool :=
  match s with
  | Some s => negb (String.eqb s "")
  | None => false
  end.

(** [a || d] on an optional string. *)
Definition or_else (s : option string) (d : string) : string :=
  match s with
  | Some s => if String.eqb s "" then d else s
  | None => d
  end.

(** [a || d] on values. *)
Definition or_value (v d : value) : value := if truthy v then v else d.

(** [String.prototype.startsWith]. *)
Definition startsWith (s p : string) : bool := String.prefix p s.

(** Decimal rendering of an array length in a template literal. *)
Definition of_nat (n : nat) : string := NilZero.string_of_uint (Nat.to_uint n).

(** *** Strings as UTF-8 *)

Definition code (c : ascii) : nat := nat_of_ascii c.

(** The UTF-16 code units a byte stands for: one for the first byte of a
    code point, two when that code point takes four bytes, none for a
    continuation byte. *)
Definition units (c : ascii) : nat :=
  if code c <? 128 then 1
  else if code c <? 192 then 0
  else if code c <? 240 then 1
  else 2.

(** [s.length]. *)
Fixpoint length (s : string) : nat :=
  match s with
  | EmptyString => 0
  | String c r => units c + length r
  end.

(** WhiteSpace and LineTerminator, the characters [trim] strips and [\s]
    matches: TAB, LF, VT, FF, CR and SP; U+00A0; U+1680, U+2000 to U+200A,
    U+2028, U+2029, U+202F, U+205F, U+3000 and U+FEFF. *)
Definition space1 (a : ascii) : bool :=
  ((9 <=? code a) && (code a <=? 13)) || (code a =? 32).

Definition space2 (a b : ascii) : bool :=
  (code a =? 194) && (code b =? 160).

Definition space3 (a b c : ascii) : bool :=
  ((code a =? 225) && (code b =? 154) && (code c =? 128))
  || ((code a =? 226) && (code b =? 128)
      && (((128 <=? code c) && (code c <=? 138))
          || (code c =? 168) || (code c =? 169) || (code c =? 175)))
  || ((code a =? 226) && (code b =? 129) && (code c =? 159))
  || ((code a =? 227) && (code b =? 128) && (code c =? 128))
  || ((code a =? 239) && (code b =? 187) && (code c =? 191)).

(** The rest of a string after one leading white space character. *)
Definition dropSpace (s : string) : option string :=
  match s with
  | String a r =>
      if space1 a then Some r
      else match r with
           | String b r2 =>
               if space2 a b then Some r2
               else match r2 with
                    | String c r3 => if space3 a b c then Some r3 else None
                    | EmptyString => None
                    end
           | EmptyString => None
           end
  | EmptyString => None
  end.

Fixpoint trimStartN (n : nat) (s : string) : string :=
  match n with
  | 0 => s
  | S n =>
      match dropSpace s with
      | Some r => trimStartN n r
      | None => s
      end
  end.

Definition trimStart (s : string) : string := trimStartN (String.length s) s.

(** Nothing but white space. *)
Definition blank (s : string) : bool := String.eqb (trimStart s) "".

Fixpoint trimEnd (s : string) : string :=
  match s with
  | EmptyString => EmptyString
  | String c r => if blank s then EmptyString else String c (trimEnd r)
  end.

(** [String.prototype.trim]. *)
Definition trim (s : string) : string := trimEnd (trimStart s).

Definition lower (c : ascii) : ascii :=
  if (65 <=? code c) && (code c <=? 90) then ascii_of_nat (code c + 32) else c.

(** U+212A KELVIN SIGN, the one character outside ASCII whose lower case
    is an ASCII letter. *)
Definition kelvin (a b c : ascii) : bool :=
  (code a =? 226) && (code b =? 132) && (code c =? 170).

(** [String.prototype.toLowerCase] as far as ASCII is concerned: the
    letters A to Z and the Kelvin sign.  Every other character outside
    ASCII is left as it is; its lower case lies outside ASCII as well. *)
Fixpoint toLowerCase (s : string) : string :=
  match s with
  | EmptyString => EmptyString
  | String a t =>
      match t with
      | String b (String c r) =>
          if kelvin a b c then String "k"%char (toLowerCase r)
          else String (lower a) (toLowerCase t)
      | _ => String (lower a) (toLowerCase t)
      end
  end.

End JS.

(** ** Regular expressions

    The two patterns of the schemas are anchored at both ends and use
    neither groups that capture for a back reference nor look-around, so
    [test] is membership in a regular language, decided here by
    derivatives. *)

Module RegExp.

Inductive t :=
| never
| empty
| one (p : ascii -> bool)
| seq (a b : t)
| alt (a b : t)
| star (a : t).

Definition opt (a : t) : t := alt a empty.
Definition plus (a : t) : t := seq a (star a).

(** [a{n}] and [a{n,n+m}]. *)
Fixpoint times (n : nat) (a : t) : t :=
  match n with
  | 0 => empty
  | S n => seq a (times n a)
  end.

Fixpoint upto (m : nat) (a : t) : t :=
  match m with
  | 0 => empty
  | S m => opt (seq a (upto m a))
  end.

Definition between (n m : nat) (a : t) : t := seq (times n a) (upto m a).

Definition byte (n : nat) : t := one (fun c => JS.code c =? n).
Definition char (c : ascii) : t := one (Ascii.eqb c).

Fixpoint nullable (r : t) : bool :=
  match r with
  | never => false
  | empty => true
  | one _ => false
  | seq a b => nullable a && nullable b
  | alt a b => nullable a || nullable b
  | star _ => true
  end.

Definition mkseq (a b : t) : t :=
  match a with
  | never => never
  | empty => b
  | _ => seq a b
  end.

Definition mkalt (a b : t) : t :=
  match a, b with
  | never, _ => b
  | _, never => a
  | _, _ => alt a b
  end.

(** What is left to match after the byte [c]. *)
Fixpoint step (c : ascii) (r : t) : t :=
  match r with
  | never => never
  | empty => never
  | one p => if p c then empty else never
  | seq a b =>
      mkalt (mkseq (step c a) b) (if nullable a then step c b else never)
  | alt a b => mkalt (step c a) (step c b)
  | star a => mkseq (step c a) (star a)
  end.

(** [/^r$/.test(s)]. *)
Fixpoint test (r : t) (s : string) : bool :=
  match s with
  | EmptyString => nullable r
  | String c s' => test (step c r) s'
  end.

(** [[0-9]], [\w] and [\s]. *)
Definition digit : t := one (fun c => (48 <=? JS.code c) && (JS.code c <=? 57)).

Definition word : t :=
  one (fun c => ((48 <=? JS.code c) && (JS.code c <=? 57))
                || ((65 <=? JS.code c) && (JS.code c <=? 90))
                || ((97 <=? JS.code c) && (JS.code c <=? 122))
                || (JS.code c =? 95)).

Definition space : t :=
  alt (one JS.space1)
    (alt (seq (byte 194) (byte 160))
       (alt (seq (byte 225) (seq (byte 154) (byte 128)))
          (alt (seq (byte 226)
                  (seq (byte 128)
                     (one (fun c => ((128 <=? JS.code c) && (JS.code c <=? 138))
                                    || (JS.code c =? 168) || (JS.code c =? 169)
                                    || (JS.code c =? 175)))))
             (alt (seq (byte 226) (seq (byte 129) (byte 159)))
                (alt (seq (byte 227) (seq (byte 128) (byte 128)))
                   (seq (byte 239) (seq (byte 187) (byte 191)))))))).

End RegExp.

(** ** Enumerations of the two schemas *)

Inductive AlertType := panic | medical | accident | harassment | other.
Inductive Status := active | resolved | false_alarm | cancelled.
Inductive DeliveryStatus := pending | sent | delivered | failed.
Inductive Outcome := safe | assisted | hospitalized | unknown.
Inductive Relation := Family | Friend | Partner | Colleague | Guardian | Other.

Module Channel.
Inductive t := sms | email | push | call.
End Channel.

Definition Status_eqb (a b : Status) : bool :=
  match a, b with
  | active, active | resolved, resolved
  | false_alarm, false_alarm | cancelled, cancelled => true
  | _, _ => false
  end.

Definition Outcome_to_string (o : option Outcome) : string :=
  match o with
  | Some safe => "safe"
  | Some assisted => "assisted"
  | Some hospitalized => "hospitalized"
  | Some unknown => "unknown"
  | None => "undefined"
  end.

(** The members of [enum: ['panic', 'medical', ...]] and of
    [enum: ['Family', 'Friend', ...]]. *)
Definition AlertType_of_string (s : string) : option AlertType :=
  if String.eqb s "panic" then Some panic
  else if String.eqb s "medical" then Some medical
  else if String.eqb s "accident" then Some accident
  else if String.eqb s "harassment" then Some harassment
  else if String.eqb s "other" then Some other
  else None.

Definition Relation_of_string (s : string) : option Relation :=
  if String.eqb s "Family" then Some Family
  else if String.eqb s "Friend" then Some Friend
  else if String.eqb s "Partner" then Some Partner
  else if String.eqb s "Colleague" then Some Colleague
  else if String.eqb s "Guardian" then Some Guardian
  else if String.eqb s "Other" then Some Other
  else None.

(** ** Documents *)

Module Prefs.
Record t := { sms : bool; email : bool; push : bool }.
Definition default : t := {| sms := true; email := true; push := false |}.
End Prefs.

Module EmergencyContact.

Record t := {
  _id : nat;
  user : nat;
  name : string;
  phone : string;
  email : option string;
  relation : Relation;
  isPrimary : bool;
  isVerified : bool;
  verificationCode : option string;
  notificationPreferences : Prefs.t;
  alertCount : Z;
  lastAlertSent : option Z;
  isActive : bool;
  notes : option string;
  createdAt : Z;
  updatedAt : Z
}.

Definition set_isPrimary (b : bool) (c : t) : t :=
  {| _id := _id c; user := user c; name := name c; phone := phone c;
     email := email c; relation := relation c; isPrimary := b;
     isVerified := isVerified c; verificationCode := verificationCode c;
     notificationPreferences := notificationPreferences c;
     alertCount := alertCount c; lastAlertSent := lastAlertSent c;
     isActive := isActive c; notes := notes c; createdAt := createdAt c;
     updatedAt := updatedAt c |}.

Definition set_updatedAt (at_ : Z) (c : t) : t :=
  {| _id := _id c; user := user c; name := name c; phone := phone c;
     email := email c; relation := relation c; isPrimary := isPrimary c;
     isVerified := isVerified c; verificationCode := verificationCode c;
     notificationPreferences := notificationPreferences c;
     alertCount := alertCount c; lastAlertSent := lastAlertSent c;
     isActive := isActive c; notes := notes c; createdAt := createdAt c;
     updatedAt := at_ |}.

(** The three paths a [save()] after [incrementAlertCount] writes. *)
Definition set_alert (n : Z) (at_ : option Z) (upd : Z) (c : t) : t :=
  {| _id := _id c; user := user c; name := name c; phone := phone c;
     email := email c; relation := relation c; isPrimary := isPrimary c;
     isVerified := isVerified c; verificationCode := verificationCode c;
     notificationPreferences := notificationPreferences c;
     alertCount := n; lastAlertSent := at_;
     isActive := isActive c; notes := notes c; createdAt := createdAt c;
     updatedAt := upd |}.

End EmergencyContact.

Module NotificationData.
(** The object [notificationData] the controller builds for a contact:
    [notificationMethod] is an array. *)
Record t := {
  contact : nat;
  notifiedAt : Z;
  notificationMethod : list Channel.t;
  deliveryStatus : DeliveryStatus
}.

Definition push_method (m : Channel.t) (n : t) : t :=
  {| contact := contact n; notifiedAt := notifiedAt n;
     notificationMethod := notificationMethod n ++ [m];
     deliveryStatus := deliveryStatus n |}.

Definition set_deliveryStatus (s : DeliveryStatus) (n : t) : t :=
  {| contact := contact n; notifiedAt := notifiedAt n;
     notificationMethod := notificationMethod n;
     deliveryStatus := s |}.
End NotificationData.

Module Notification.
(** One stored element of [notifiedContacts]: [notificationMethod] is a
    String of the schema. *)
Record t := {
  contact : nat;
  notifiedAt : Z;
  notificationMethod : option Channel.t;
  deliveryStatus : DeliveryStatus
}.
End Notification.

Module Location.
Record t := {
  coordinates : float * float;   (* [longitude, latitude] *)
  address : option string;
  accuracy : option float
}.
End Location.

Module Resolution.
Record t := {
  resolvedAt : Z;
  resolvedBy : nat;
  resolutionNotes : option string;
  outcome : option Outcome
}.
End Resolution.

Module AdditionalInfo.
Record t := {
  message : option string;
  batteryLevel : option float;
  networkType : option string
}.
End AdditionalInfo.

Module EmergencyAlert.

Record t := {
  _id : nat;
  user : nat;
  alertType : AlertType;
  status : Status;
  location : Location.t;
  notifiedContacts : list Notification.t;
  additionalInfo : AdditionalInfo.t;
  resolution : option Resolution.t;
  activatedAt : Z;
  deactivatedAt : option Z;
  duration : option Z
}.

Definition set_status (s : Status) (a : t) : t :=
  {| _id := _id a; user := user a; alertType := alertType a; status := s;
     location := location a; notifiedContacts := notifiedContacts a;
     additionalInfo := additionalInfo a; resolution := resolution a;
     activatedAt := activatedAt a; deactivatedAt := deactivatedAt a;
     duration := duration a |}.

Definition set_notifiedContacts (l : list Notification.t) (a : t) : t :=
  {| _id := _id a; user := user a; alertType := alertType a;
     status := status a; location := location a; notifiedContacts := l;
     additionalInfo := additionalInfo a; resolution := resolution a;
     activatedAt := activatedAt a; deactivatedAt := deactivatedAt a;
     duration := duration a |}.

Definition set_resolution (r : Resolution.t) (a : t) : t :=
  {| _id := _id a; user := user a; alertType := alertType a;
     status := status a; location := location a;
     notifiedContacts := notifiedContacts a;
     additionalInfo := additionalInfo a; resolution := Some r;
     activatedAt := activatedAt a; deactivatedAt := deactivatedAt a;
     duration := duration a |}.

Definition set_deactivatedAt (d : Z) (a : t) : t :=
  {| _id := _id a; user := user a; alertType := alertType a;
     status := status a; location := location a;
     notifiedContacts := notifiedContacts a;
     additionalInfo := additionalInfo a; resolution := resolution a;
     activatedAt := activatedAt a; deactivatedAt := Some d;
     duration := duration a |}.

Definition set_duration (d : Z) (a : t) : t :=
  {| _id := _id a; user := user a; alertType := alertType a;
     status := status a; location := location a;
     notifiedContacts := notifiedContacts a;
     additionalInfo := additionalInfo a; resolution := resolution a;
     activatedAt := activatedAt a; deactivatedAt := deactivatedAt a;
     duration := Some d |}.

(** The pre-save middleware.  [activatedAt] always holds a date (the
    schema default), so the hook's test reduces to the presence of
    [deactivatedAt]. *)
Definition preSave (a : t) : t :=
  match deactivatedAt a with
  | Some d => set_duration (Z.div (d - activatedAt a) 1000) a
  | None => a
  end.

End EmergencyAlert.

Module User.

Record GeoPoint := {
  coordinates : float * float;
  address : option string;
  lastUpdated : option Z
}.

Record t := {
  _id : nat;
  name : string;
  email : string;
  phone : string;
  emergencyContacts : list nat;
  location : GeoPoint
}.

Definition set_location (g : GeoPoint) (u : t) : t :=
  {| _id := _id u; name := name u; email := email u; phone := phone u;
     emergencyContacts := emergencyContacts u; location := g |}.

Definition set_emergencyContacts (l : list nat) (u : t) : t :=
  {| _id := _id u; name := name u; email := email u; phone := phone u;
     emergencyContacts := l; location := location u |}.

End User.

(** ** The world and its environment *)

(** What was handed to an external provider. *)
Inductive Delivery :=
| ViaTermii (to body : string)
| ViaTwilio (to body : string)
| ViaMail (to subject html : string)
| ViaPush (contact alert user : nat).

(** The [alert_activated] event emitted to the room [user_<id>]. *)
Record SocketEvent := {
  room : nat;
  alertId : nat;
  notifiedCount : nat
}.

Record World := {
  contacts : list EmergencyContact.t;
  alerts : list EmergencyAlert.t;
  users : list User.t;
  nextId : nat;
  ticks : nat;
  outbox : list Delivery;
  emitted : list SocketEvent
}.

(** The process environment, the engine and the external collaborators.
    [showNumber] is the string a number converts to and [parseNumber] the
    number a string converts to ([Number(s)], [NaN] when [s] is no numeric
    literal).  A provider call answers [Some reply] or throws ([None]).
    The push service ([services/notificationService]) is not part of the
    sources at hand and is taken as a collaborator like the others. *)
Record Env := {
  clock : nat -> Z;
  toLocaleString : Z -> string;
  showNumber : float -> string;
  parseNumber : string -> float;
  TERMII_API_KEY : option string;
  TWILIO_ACCOUNT_SID : option string;
  TWILIO_AUTH_TOKEN : option string;
  termii : string -> string -> option string;
  twilio : string -> string -> option string;
  sendMail : string -> string -> string -> option string;
  sendPushNotification : nat -> nat -> nat -> bool
}.

(** The outcome of awaiting a promise of a provider. *)
Inductive Settled (A : Type) :=
| Resolved (a : A)
| Rejected.
Arguments Resolved {A} a.
Arguments Rejected {A}.

(** What [sendSMS] resolves with. *)
Inductive SmsReply :=
| TermiiReply (json : string)
| NotConfigured
| TwilioMessage (sid : string).

(** The exceptions a handler catches.  The response carries the message
    of the exception; its wording belongs to the library that threw and
    only its kind is kept. *)
Inductive Thrown :=
| TypeError (reading : string)   (* a property read on [null] *)
| CastError                        (* Mongoose: a value of an update does not cast *)
| ValidationError                  (* Mongoose: a path does not cast or validate *)
| DuplicateKey                     (* the driver: E11000 *)
| GeoKeys                          (* the driver: no geo keys can be extracted *)
| Failure (message : string).

(** The outcome of awaiting a database operation. *)
Inductive Attempt (A : Type) :=
| Done (a : A)
| Threw (e : Thrown).
Arguments Done {A} a.
Arguments Threw {A} e.

(** What a schema type makes of a value: the cast value, [null] or
    [undefined] left as they are, or a cast error. *)
Module Cast.
Inductive t (A : Type) :=
| ok (a : A)
| nullish
| error.
Arguments ok {A} a.
Arguments nullish {A}.
Arguments error {A}.
End Cast.

(** ** A state monad over the world *)

Definition M (A : Type) : Type := World -> A * World.

Definition ret {A : Type} (a : A) : M A := fun w => (a, w).

Definition bind {A B : Type} (m : M A) (k : A -> M B) : M B :=
  fun w => let (a, w') := m w in k a w'.

Notation "x <- m ;; k" := (bind m (fun x => k))
  (at level 61, m at next level, right associativity).
Notation "m ;;; k" := (bind m (fun _ => k))
  (at level 61, right associativity).

Fixpoint mapM {A B : Type} (f : A -> M B) (l : list A) : M (list B) :=
  match l with
  | [] => ret []
  | a :: r => b <- f a ;; bs <- mapM f r ;; ret (b :: bs)
  end.

Definition forEachM {A : Type} (f : A -> M unit) (l : list A) : M unit :=
  _ <- mapM f l ;; ret tt.

Definition modify (f : World -> World) : M unit := fun w => (tt, f w).

Definition with_contacts (l : list EmergencyContact.t) (w : World) : World :=
  {| contacts := l; alerts := alerts w; users := users w;
     nextId := nextId w; ticks := ticks w; outbox := outbox w;
     emitted := emitted w |}.

Definition with_alerts (l : list EmergencyAlert.t) (w : World) : World :=
  {| contacts := contacts w; alerts := l; users := users w;
     nextId := nextId w; ticks := ticks w; outbox := outbox w;
     emitted := emitted w |}.

Definition with_users (l : list User.t) (w : World) : World :=
  {| contacts := contacts w; alerts := alerts w; users := l;
     nextId := nextId w; ticks := ticks w; outbox := outbox w;
     emitted := emitted w |}.

Definition with_nextId (n : nat) (w : World) : World :=
  {| contacts := contacts w; alerts := alerts w; users := users w;
     nextId := n; ticks := ticks w; outbox := outbox w;
     emitted := emitted w |}.

Definition with_ticks (n : nat) (w : World) : World :=
  {| contacts := contacts w; alerts := alerts w; users := users w;
     nextId := nextId w; ticks := n; outbox := outbox w;
     emitted := emitted w |}.

Definition with_outbox (l : list Delivery) (w : World) : World :=
  {| contacts := contacts w; alerts := alerts w; users := users w;
     nextId := nextId w; ticks := ticks w; outbox := l;
     emitted := emitted w |}.

Definition with_emitted (l : list SocketEvent) (w : World) : World :=
  {| contacts := contacts w; alerts := alerts w; users := users w;
     nextId := nextId w; ticks := ticks w; outbox := outbox w;
     emitted := l |}.

Definition emptyWorld : World :=
  {| contacts := []; alerts := []; users := []; nextId := 0; ticks := 0;
     outbox := []; emitted := [] |}.

(** A fresh ObjectId. *)
Definition freshId : M nat :=
  fun w => (nextId w, with_nextId (S (nextId w)) w).

Definition deliver (d : Delivery) : M unit :=
  modify (fun w => with_outbox (outbox w ++ [d]) w).

Definition nl : string := String (Ascii.ascii_of_nat 10) "".
Definition dq : string := String (Ascii.ascii_of_nat 34) "".

(** ** HTTP responses *)

Module Response.

Inductive Data :=
| none
| empty
| summary (alertId : nat) (status : Status) (location : Location.t)
          (notifiedContacts : nat) (activatedAt : Z)
| alert (a : EmergencyAlert.t)
| contact (c : EmergencyContact.t)
| contactList (l : list EmergencyContact.t).

Record t := {
  status : nat;
  success : bool;
  message : option string;
  error : option Thrown;
  count : option nat;
  data : Data
}.

Definition fail (code : nat) (msg : string) : t :=
  {| status := code; success := false; message := Some msg;
     error := None; count := None; data := none |}.

Definition caught (msg : string) (err : Thrown) : t :=
  {| status := 500; success := false; message := Some msg;
     error := Some err; count := None; data := none |}.

Definition ok (code : nat) (msg : string) (d : Data) : t :=
  {| status := code; success := true; message := Some msg;
     error := None; count := None; data := d |}.

End Response.

(** ** Request bodies *)

Record AlertBody := {
  longitude : JS.value;
  latitude : JS.value;
  address : JS.value;
  accuracy : JS.value;
  alertType : JS.value;
  message : JS.value;
  batteryLevel : JS.value;
  networkType : JS.value
}.

Record ResolveBody := {
  outcome : option Outcome;
  notes : option string
}.

(** The six fields [addEmergencyContact] takes from the body. *)
Module ContactBody.
Record t := {
  name : JS.value;
  phone : JS.value;
  email : JS.value;
  relation : JS.value;
  isPrimary : JS.value;
  notes : JS.value
}.
End ContactBody.

(** The body [updateEmergencyContact] hands to [findByIdAndUpdate] as it
    is: any path of the contact schema may be in it.  The three
    preferences come under their dotted keys; [user] is an ObjectId, and
    the two bookkeeping paths [alertCount] and [lastAlertSent] a whole
    number and a time in milliseconds. *)
Module ContactPatch.
Record t := {
  user : option nat;
  name : JS.value;
  phone : JS.value;
  email : JS.value;
  relation : JS.value;
  isPrimary : JS.value;
  isVerified : JS.value;
  verificationCode : JS.value;
  notificationPreferences_sms : JS.value;
  notificationPreferences_email : JS.value;
  notificationPreferences_push : JS.value;
  alertCount : option Z;
  lastAlertSent : option Z;
  isActive : JS.value;
  notes : JS.value
}.
End ContactPatch.

Section Backend.

Variable E : Env.

(** [Date.now()] / [new Date()]: one reading of the clock. *)
Definition dateNow : M Z :=
  fun w => (clock E (ticks w), with_ticks (S (ticks w)) w).

(** ** services/smsService *)

(** The Twilio client exists only when both credentials are set. *)
Definition twilioClient : bool :=
  JS.truthy_str (TWILIO_ACCOUNT_SID E) && JS.truthy_str (TWILIO_AUTH_TOKEN E).

Definition sendSMSTermii (phone message : string) : M (Settled SmsReply) :=
  deliver (ViaTermii phone message) ;;;
  ret (match termii E phone message with
       | Some json => Resolved (TermiiReply json)
       | None => Rejected
       end).

Definition sendSMS (phone message : string) : M (Settled SmsReply) :=
  if JS.startsWith phone "+234" && JS.truthy_str (TERMII_API_KEY E) then
    sendSMSTermii phone message
  else if negb twilioClient then
    ret (Resolved NotConfigured)
  else
    deliver (ViaTwilio phone message) ;;;
    ret (match twilio E phone message with
         | Some sid => Resolved (TwilioMessage sid)
         | None => Rejected
         end).

(** ** services/emailService *)

Definition sendEmail (to subject html : string) : M (Settled string) :=
  deliver (ViaMail to subject html) ;;;
  ret (match sendMail E to subject html with
       | Some messageId => Resolved messageId
       | None => Rejected
       end).

(** ** services/notificationService *)

Definition sendPush (contact alert user : nat) : M (Settled unit) :=
  deliver (ViaPush contact alert user) ;;;
  ret (if sendPushNotification E contact alert user
       then Resolved tt else Rejected).

(** ** The schema types of Mongoose *)

(** A value interpolated in a template literal, and the string a scalar
    converts to. *)
Definition show (v : JS.value) : string :=
  match v with
  | JS.undefined => "undefined"
  | JS.null => "null"
  | JS.boolean true => "true"
  | JS.boolean false => "false"
  | JS.number x => showNumber E x
  | JS.str s => s
  end.

(** String: every scalar casts, through its [toString]. *)
Definition castString (v : JS.value) : Cast.t string :=
  match v with
  | JS.undefined | JS.null => Cast.nullish
  | _ => Cast.ok (show v)
  end.

(** Number: the empty string is [null]; a string and a boolean go through
    [Number]; [NaN] does not cast. *)
Definition castNumber (v : JS.value) : Cast.t float :=
  match v with
  | JS.undefined | JS.null => Cast.nullish
  | JS.boolean b => Cast.ok (if b then 1%float else 0%float)
  | JS.number x => if PrimFloat.is_nan x then Cast.error else Cast.ok x
  | JS.str s =>
      if String.eqb s "" then Cast.nullish
      else if PrimFloat.is_nan (parseNumber E s) then Cast.error
      else Cast.ok (parseNumber E s)
  end.

(** Boolean: [true], ['true'], [1], ['1'] and ['yes'] are true, [false],
    ['false'], [0], ['0'] and ['no'] are false, nothing else casts. *)
Definition castBoolean (v : JS.value) : Cast.t bool :=
  match v with
  | JS.undefined | JS.null => Cast.nullish
  | JS.boolean b => Cast.ok b
  | JS.number x =>
      if PrimFloat.eqb x 1%float then Cast.ok true
      else if PrimFloat.eqb x 0%float then Cast.ok false
      else Cast.error
  | JS.str s =>
      if String.eqb s "true" || String.eqb s "1" || String.eqb s "yes" then Cast.ok true
      else if String.eqb s "false" || String.eqb s "0" || String.eqb s "no"
      then Cast.ok false
      else Cast.error
  end.

Definition casts {A : Type} (c : Cast.t A) : bool :=
  match c with
  | Cast.error => false
  | _ => true
  end.

(** The cast value, with [d] for [null] and [undefined]. *)
Definition castOr {A : Type} (d : A) (c : Cast.t A) : A :=
  match c with
  | Cast.ok a => a
  | _ => d
  end.

Definition castOpt {A : Type} (c : Cast.t A) : option A :=
  match c with
  | Cast.ok a => Some a
  | _ => None
  end.

(** What a 2dsphere index accepts as a point: a longitude from -180 to
    180 and a latitude from -90 to 90. *)
Definition geoValid (p : float * float) : bool :=
  PrimFloat.leb (-180)%float (fst p) && PrimFloat.leb (fst p) 180%float
  && PrimFloat.leb (-90)%float (snd p) && PrimFloat.leb (snd p) 90%float.

(** ** models/EmergencyContact *)

(** [/^[\+]?[(]?[0-9]{3}[)]?[-\s\.]?[0-9]{3}[-\s\.]?[0-9]{4,6}$/] *)
Definition phonePattern : RegExp.t :=
  let separator :=
    RegExp.opt (RegExp.alt (RegExp.char "-")
                  (RegExp.alt RegExp.space (RegExp.char "."))) in
  RegExp.seq (RegExp.opt (RegExp.char "+"))
    (RegExp.seq (RegExp.opt (RegExp.char "("))
       (RegExp.seq (RegExp.times 3 RegExp.digit)
          (RegExp.seq (RegExp.opt (RegExp.char ")"))
             (RegExp.seq separator
                (RegExp.seq (RegExp.times 3 RegExp.digit)
                   (RegExp.seq separator
                      (RegExp.between 4 2 RegExp.digit))))))).

(** [/^\w+([\.-]?\w+)*@\w+([\.-]?\w+)*(\.\w{2,3})+$/] *)
Definition emailPattern : RegExp.t :=
  let words :=
    RegExp.seq (RegExp.plus RegExp.word)
      (RegExp.star
         (RegExp.seq (RegExp.opt (RegExp.alt (RegExp.char ".") (RegExp.char "-")))
            (RegExp.plus RegExp.word))) in
  RegExp.seq words
    (RegExp.seq (RegExp.char "@")
       (RegExp.seq words
          (RegExp.plus
             (RegExp.seq (RegExp.char ".") (RegExp.between 2 1 RegExp.word))))).

(** What the schema makes of the value given for a path: [None] when a
    validator refuses it, else the value to store.  The setters [trim] and
    [lowercase] come first; [required] refuses [null], [undefined] and the
    empty string; [match] lets the empty string pass. *)

(* name: required, trim, minlength 2, maxlength 50 *)
Definition nameOf (v : JS.value) : option string :=
  match castString v with
  | Cast.ok s =>
      if negb (String.eqb (JS.trim s) "")
         && (2 <=? JS.length (JS.trim s)) && (JS.length (JS.trim s) <=? 50)
      then Some (JS.trim s) else None
  | _ => None
  end.

(* phone: required, trim, match *)
Definition phoneOf (v : JS.value) : option string :=
  match castString v with
  | Cast.ok s =>
      if negb (String.eqb (JS.trim s) "") && RegExp.test phonePattern (JS.trim s)
      then Some (JS.trim s) else None
  | _ => None
  end.

(* email: trim, lowercase, match *)
Definition emailOf (v : JS.value) : option (option string) :=
  match castString v with
  | Cast.ok s =>
      if String.eqb (JS.trim (JS.toLowerCase s)) ""
         || RegExp.test emailPattern (JS.trim (JS.toLowerCase s))
      then Some (Some (JS.trim (JS.toLowerCase s))) else None
  | Cast.nullish => Some None
  | Cast.error => None
  end.

(* relation: required, enum *)
Definition relationOf (v : JS.value) : option Relation :=
  match castString v with
  | Cast.ok s => Relation_of_string s
  | _ => None
  end.

(* notes: maxlength 200 *)
Definition notesOf (v : JS.value) : option (option string) :=
  match castString v with
  | Cast.ok s => if JS.length s <=? 200 then Some (Some s) else None
  | Cast.nullish => Some None
  | Cast.error => None
  end.

Definition accepts {A : Type} (o : option A) : bool :=
  match o with
  | Some _ => true
  | None => false
  end.

(** The order of [sort({ isPrimary: -1, createdAt: 1 })]. *)
Definition sortsBefore (a b : EmergencyContact.t) : bool :=
  if Bool.eqb (EmergencyContact.isPrimary a) (EmergencyContact.isPrimary b)
  then (EmergencyContact.createdAt a <=? EmergencyContact.createdAt b)%Z
  else EmergencyContact.isPrimary a.

Fixpoint insertSorted (c : EmergencyContact.t) (l : list EmergencyContact.t)
  : list EmergencyContact.t :=
  match l with
  | [] => [c]
  | x :: r => if sortsBefore c x then c :: l else x :: insertSorted c r
  end.

Definition sortContacts (l : list EmergencyContact.t) : list EmergencyContact.t :=
  fold_right insertSorted [] l.

(** The filter [{ user: userId, isActive: true }]. *)
Definition isActiveOf (userId : nat) (c : EmergencyContact.t) : bool :=
  (EmergencyContact.user c =? userId) && EmergencyContact.isActive c.

Definition getActiveContacts (userId : nat) : M (list EmergencyContact.t) :=
  fun w => (sortContacts (filter (isActiveOf userId) (contacts w)), w).

(** [save()] of a contact document writes the modified paths of the
    document in memory to the stored document with its [_id]. *)
Definition saveAlertFields (c : EmergencyContact.t) : M unit :=
  modify (fun w =>
    with_contacts
      (map (fun d =>
              if EmergencyContact._id d =? EmergencyContact._id c
              then EmergencyContact.set_alert (EmergencyContact.alertCount c)
                     (EmergencyContact.lastAlertSent c)
                     (EmergencyContact.updatedAt c) d
              else d)
           (contacts w)) w).

(** [incrementAlertCount]; the [save()] stamps [updatedAt]. *)
Definition incrementAlertCount (c : EmergencyContact.t) : M unit :=
  now <- dateNow ;;
  stamp <- dateNow ;;
  saveAlertFields
    (EmergencyContact.set_alert (EmergencyContact.alertCount c + 1)%Z (Some now)
       stamp c).

(** The filter [{ user, phone }] of the duplicate check. *)
Definition hasPhone (userId : nat) (p : string) (c : EmergencyContact.t) : bool :=
  (EmergencyContact.user c =? userId) && String.eqb (EmergencyContact.phone c) p.

(** The phone number that filter looks for: the query casts the value and
    runs the setter [trim] of the path; [null] and [undefined] match no
    stored phone number. *)
Definition phoneFilter (v : JS.value) : option string :=
  match castString v with
  | Cast.ok s => Some (JS.trim s)
  | _ => None
  end.

(** [updateMany(filter, { isPrimary: false })], which stamps [updatedAt]
    on the documents it matches. *)
Definition demote (now : Z) (sel : EmergencyContact.t -> bool)
                  (l : list EmergencyContact.t) : list EmergencyContact.t :=
  map (fun d => if sel d
                then EmergencyContact.set_updatedAt now
                       (EmergencyContact.set_isPrimary false d)
                else d) l.

Definition clearPrimary (sel : EmergencyContact.t -> bool) : M unit :=
  now <- dateNow ;;
  modify (fun w => with_contacts (demote now sel (contacts w)) w).

(** The filters [{ user, isPrimary: true }] and
    [{ user, _id: { $ne: id }, isPrimary: true }]. *)
Definition ownPrimary (userId : nat) (d : EmergencyContact.t) : bool :=
  (EmergencyContact.user d =? userId) && EmergencyContact.isPrimary d.

Definition otherPrimary (userId id : nat) (d : EmergencyContact.t) : bool :=
  (EmergencyContact.user d =? userId) && negb (EmergencyContact._id d =? id)
  && EmergencyContact.isPrimary d.

(** The unique index [{ user: 1, phone: 1 }]: does another stored document
    carry the key of [c]? *)
Definition violatesIndex (c : EmergencyContact.t) (l : list EmergencyContact.t) : bool :=
  existsb (fun d =>
             negb (EmergencyContact._id d =? EmergencyContact._id c)
             && hasPhone (EmergencyContact.user c) (EmergencyContact.phone c) d) l.

(** Does the schema accept the document [create] is asked for?  An absent
    [relation] takes the default. *)
Definition acceptable (b : ContactBody.t) : bool :=
  accepts (nameOf (ContactBody.name b))
  && accepts (phoneOf (ContactBody.phone b))
  && accepts (emailOf (ContactBody.email b))
  && match ContactBody.relation b with
     | JS.undefined => true
     | v => accepts (relationOf v)
     end
  && casts (castBoolean (ContactBody.isPrimary b))
  && accepts (notesOf (ContactBody.notes b)).

(** The document [create] builds from a request the schema accepts, with
    the defaults of the schema. *)
Definition newContact (id userId : nat) (b : ContactBody.t) (now : Z)
  : EmergencyContact.t :=
  {| EmergencyContact._id := id;
     EmergencyContact.user := userId;
     EmergencyContact.name :=
       match nameOf (ContactBody.name b) with Some s => s | None => "" end;
     EmergencyContact.phone :=
       match phoneOf (ContactBody.phone b) with Some s => s | None => "" end;
     EmergencyContact.email :=
       match emailOf (ContactBody.email b) with Some e => e | None => None end;
     EmergencyContact.relation :=
       match relationOf (ContactBody.relation b) with Some r => r | None => Other end;
     EmergencyContact.isPrimary := castOr false (castBoolean (ContactBody.isPrimary b));
     EmergencyContact.isVerified := false;
     EmergencyContact.verificationCode := None;
     EmergencyContact.notificationPreferences := Prefs.default;
     EmergencyContact.alertCount := 0%Z;
     EmergencyContact.lastAlertSent := None;
     EmergencyContact.isActive := true;
     EmergencyContact.notes :=
       match notesOf (ContactBody.notes b) with Some n => n | None => None end;
     EmergencyContact.createdAt := now;
     EmergencyContact.updatedAt := now |}.

(** [EmergencyContact.create]: the document gets its id, is validated,
    stamped and inserted; the insertion is refused when the unique index
    is violated. *)
Definition createContact (userId : nat) (b : ContactBody.t)
  : M (Attempt EmergencyContact.t) :=
  id <- freshId ;;
  if acceptable b then
    now <- dateNow ;;
    let c := newContact id userId b now in
    fun w =>
      if violatesIndex c (contacts w) then (Threw DuplicateKey, w)
      else (Done c, with_contacts (contacts w ++ [c]) w)
  else ret (Threw ValidationError).

(** The update [findByIdAndUpdate] makes of the body: do the values cast,
    and do the validators of the paths that are set accept them? *)
Definition castsPatch (p : ContactPatch.t) : bool :=
  casts (castBoolean (ContactPatch.isPrimary p))
  && casts (castBoolean (ContactPatch.isVerified p))
  && casts (castBoolean (ContactPatch.isActive p))
  && casts (castBoolean (ContactPatch.notificationPreferences_sms p))
  && casts (castBoolean (ContactPatch.notificationPreferences_email p))
  && casts (castBoolean (ContactPatch.notificationPreferences_push p)).

Definition given {A : Type} (v : JS.value) (check : JS.value -> option A) : bool :=
  match v with
  | JS.undefined => true
  | _ => accepts (check v)
  end.

Definition validPatch (p : ContactPatch.t) : bool :=
  given (ContactPatch.name p) nameOf
  && given (ContactPatch.phone p) phoneOf
  && given (ContactPatch.email p) emailOf
  && given (ContactPatch.relation p) relationOf
  && given (ContactPatch.notes p) notesOf.

(** The value of a path after the update: the old one when the body does
    not name the path. *)
Definition patched {A : Type} (v : JS.value) (new : option A) (old : A) : A :=
  match v, new with
  | JS.undefined, _ => old
  | _, Some a => a
  | _, None => old
  end.

Definition patchedFlag (v : JS.value) (old : bool) : bool :=
  match v with
  | JS.undefined => old
  | _ => castOr false (castBoolean v)
  end.

Definition applyPatch (now : Z) (p : ContactPatch.t) (c : EmergencyContact.t)
  : EmergencyContact.t :=
  let pick {A : Type} (o : option A) (d : A) := match o with Some x => x | None => d end in
  {| EmergencyContact._id := EmergencyContact._id c;
     EmergencyContact.user := pick (ContactPatch.user p) (EmergencyContact.user c);
     EmergencyContact.name :=
       patched (ContactPatch.name p) (nameOf (ContactPatch.name p))
         (EmergencyContact.name c);
     EmergencyContact.phone :=
       patched (ContactPatch.phone p) (phoneOf (ContactPatch.phone p))
         (EmergencyContact.phone c);
     EmergencyContact.email :=
       patched (ContactPatch.email p) (emailOf (ContactPatch.email p))
         (EmergencyContact.email c);
     EmergencyContact.relation :=
       patched (ContactPatch.relation p) (relationOf (ContactPatch.relation p))
         (EmergencyContact.relation c);
     EmergencyContact.isPrimary :=
       patchedFlag (ContactPatch.isPrimary p) (EmergencyContact.isPrimary c);
     EmergencyContact.isVerified :=
       patchedFlag (ContactPatch.isVerified p) (EmergencyContact.isVerified c);
     EmergencyContact.verificationCode :=
       patched (ContactPatch.verificationCode p)
         (Some (castOpt (castString (ContactPatch.verificationCode p))))
         (EmergencyContact.verificationCode c);
     EmergencyContact.notificationPreferences :=
       {| Prefs.sms :=
            patchedFlag (ContactPatch.notificationPreferences_sms p)
              (Prefs.sms (EmergencyContact.notificationPreferences c));
          Prefs.email :=
            patchedFlag (ContactPatch.notificationPreferences_email p)
              (Prefs.email (EmergencyContact.notificationPreferences c));
          Prefs.push :=
            patchedFlag (ContactPatch.notificationPreferences_push p)
              (Prefs.push (EmergencyContact.notificationPreferences c)) |};
     EmergencyContact.alertCount :=
       pick (ContactPatch.alertCount p) (EmergencyContact.alertCount c);
     EmergencyContact.lastAlertSent :=
       match ContactPatch.lastAlertSent p with
       | Some t => Some t
       | None => EmergencyContact.lastAlertSent c
       end;
     EmergencyContact.isActive :=
       patchedFlag (ContactPatch.isActive p) (EmergencyContact.isActive c);
     EmergencyContact.notes :=
       patched (ContactPatch.notes p) (notesOf (ContactPatch.notes p))
         (EmergencyContact.notes c);
     EmergencyContact.createdAt := EmergencyContact.createdAt c;
     EmergencyContact.updatedAt := now |}.

(** Replace the first document selected by [sel] with [f] of it. *)
Fixpoint updateFirst {A : Type} (sel : A -> bool) (f : A -> A) (l : list A) : list A :=
  match l with
  | [] => []
  | x :: r => if sel x then f x :: r else x :: updateFirst sel f r
  end.

(** [findByIdAndUpdate(id, body, { new: true, runValidators: true })]:
    the body is cast, stamped and validated, then the document with the
    id is updated; [Done None] when no document has the id, and the
    update is refused when the updated document collides with the unique
    index. *)
Definition findByIdAndUpdate (id : nat) (p : ContactPatch.t)
  : M (Attempt (option EmergencyContact.t)) :=
  if negb (castsPatch p) then ret (Threw CastError)
  else
    now <- dateNow ;;
    if negb (validPatch p) then ret (Threw ValidationError)
    else
      fun w =>
        match find (fun d => EmergencyContact._id d =? id) (contacts w) with
        | None => (Done None, w)
        | Some c =>
            if violatesIndex (applyPatch now p c) (contacts w)
            then (Threw DuplicateKey, w)
            else (Done (Some (applyPatch now p c)),
                  with_contacts
                    (updateFirst (fun d => EmergencyContact._id d =? id)
                       (applyPatch now p) (contacts w)) w)
        end.

(** ** models/User *)

Definition findUserById (id : nat) : M (option User.t) :=
  fun w => (find (fun u => User._id u =? id) (users w), w).

Definition saveUser (u : User.t) : M unit :=
  modify (fun w =>
    with_users
      (map (fun d => if User._id d =? User._id u then u else d) (users w)) w).

(** [updateLocation]: [coordinates] is a [[Number]] path.  A coordinate
    that does not cast leaves the path as it was, and
    [save({ validateBeforeSave: false })] stores the document all the
    same; a [null] coordinate is stored as such, and like a point out of
    range it makes the 2dsphere index of the users refuse the write. *)
Definition updateLocation (u : User.t) (lon lat addr : JS.value)
  : M (Attempt User.t) :=
  now <- dateNow ;;
  let point :=
    match castNumber lon, castNumber lat with
    | Cast.ok x, Cast.ok y => Some (x, y)
    | Cast.error, _ | _, Cast.error => Some (User.coordinates (User.location u))
    | _, _ => None
    end in
  match point with
  | Some p =>
      if geoValid p then
        let u' := User.set_location
                    {| User.coordinates := p;
                       User.address := castOpt (castString addr);
                       User.lastUpdated := Some now |} u in
        saveUser u' ;;;
        ret (Done u')
      else ret (Threw GeoKeys)
  | None => ret (Threw GeoKeys)
  end.

(** [findByIdAndUpdate(id, { $push: { emergencyContacts: c } })]. *)
Definition pushEmergencyContact (id c : nat) : M unit :=
  modify (fun w =>
    with_users
      (updateFirst (fun u => User._id u =? id)
         (fun u => User.set_emergencyContacts (User.emergencyContacts u ++ [c]) u)
         (users w)) w).

(** ** models/EmergencyAlert *)

(** [save()] of an alert whose paths all cast: the pre-save hook, then
    the write. *)
Definition saveAlert (a : EmergencyAlert.t) : M EmergencyAlert.t :=
  let a' := EmergencyAlert.preSave a in
  modify (fun w =>
    with_alerts
      (map (fun d => if EmergencyAlert._id d =? EmergencyAlert._id a' then a' else d)
           (alerts w)) w) ;;;
  ret a'.

(** [alertType || 'panic'], cast to a String and checked against the
    enumeration. *)
Definition alertTypeOf (v : JS.value) : option AlertType :=
  match castString (JS.or_value v (JS.str "panic")) with
  | Cast.ok s => AlertType_of_string s
  | _ => None
  end.

(* message: maxlength 500 *)
Definition messageOf (v : JS.value) : option (option string) :=
  match castString v with
  | Cast.ok s => if JS.length s <=? 500 then Some (Some s) else None
  | Cast.nullish => Some None
  | Cast.error => None
  end.

(** Does the alert schema accept the document [create] is asked for?
    The two coordinates, [accuracy] and [batteryLevel] must cast to a
    Number, the alert type must be of the enumeration and the message must
    not be longer than 500. *)
Definition acceptableAlert (b : AlertBody) : bool :=
  casts (castNumber (longitude b))
  && casts (castNumber (latitude b))
  && casts (castNumber (accuracy b))
  && casts (castNumber (batteryLevel b))
  && accepts (alertTypeOf (alertType b))
  && accepts (messageOf (message b)).

(** The point the document carries, when both coordinates are numbers. *)
Definition pointOf (b : AlertBody) : option (float * float) :=
  match castNumber (longitude b), castNumber (latitude b) with
  | Cast.ok x, Cast.ok y => Some (x, y)
  | _, _ => None
  end.

(** The document [create] builds from a request the schema accepts. *)
Definition newAlert (id userId : nat) (b : AlertBody) (now : Z) : EmergencyAlert.t :=
  {| EmergencyAlert._id := id;
     EmergencyAlert.user := userId;
     EmergencyAlert.alertType :=
       match alertTypeOf (alertType b) with Some ty => ty | None => panic end;
     EmergencyAlert.status := active;
     EmergencyAlert.location :=
       {| Location.coordinates :=
            match pointOf b with Some p => p | None => (0%float, 0%float) end;
          Location.address := castOpt (castString (address b));
          Location.accuracy := castOpt (castNumber (accuracy b)) |};
     EmergencyAlert.notifiedContacts := [];
     EmergencyAlert.additionalInfo :=
       {| AdditionalInfo.message :=
            match messageOf (message b) with Some m => m | None => None end;
          AdditionalInfo.batteryLevel := castOpt (castNumber (batteryLevel b));
          AdditionalInfo.networkType := castOpt (castString (networkType b)) |};
     EmergencyAlert.resolution := None;
     EmergencyAlert.activatedAt := now;
     EmergencyAlert.deactivatedAt := None;
     EmergencyAlert.duration := None |}.

(** [EmergencyAlert.create]: the document takes [Date.now] as
    [activatedAt] and an id when it is built, then it is validated and
    inserted; the 2dsphere index on [location] refuses a point that is
    out of range or has a [null] coordinate. *)
Definition createAlert (userId : nat) (b : AlertBody) : M (Attempt EmergencyAlert.t) :=
  now <- dateNow ;;
  id <- freshId ;;
  if negb (acceptableAlert b) then ret (Threw ValidationError)
  else
    match pointOf b with
    | Some p =>
        if geoValid p then
          let a := EmergencyAlert.preSave (newAlert id userId b now) in
          modify (fun w => with_alerts (alerts w ++ [a]) w) ;;;
          ret (Done a)
        else ret (Threw GeoKeys)
    | None => ret (Threw GeoKeys)
    end.

(** The schema declares [notificationMethod] a String; the controller
    hands over an array.  The String cast of Mongoose refuses every
    array, whatever it holds. *)
Definition castMethods (methods : list Channel.t) : Cast.t Channel.t := Cast.error.

Definition castNotification (n : NotificationData.t) : option Notification.t :=
  match castMethods (NotificationData.notificationMethod n) with
  | Cast.ok m =>
      Some {| Notification.contact := NotificationData.contact n;
              Notification.notifiedAt := NotificationData.notifiedAt n;
              Notification.notificationMethod := Some m;
              Notification.deliveryStatus := NotificationData.deliveryStatus n |}
  | Cast.nullish =>
      Some {| Notification.contact := NotificationData.contact n;
              Notification.notifiedAt := NotificationData.notifiedAt n;
              Notification.notificationMethod := None;
              Notification.deliveryStatus := NotificationData.deliveryStatus n |}
  | Cast.error => None
  end.

Fixpoint castNotifications (l : list NotificationData.t) : option (list Notification.t) :=
  match l with
  | [] => Some []
  | n :: r =>
      match castNotification n, castNotifications r with
      | Some x, Some xs => Some (x :: xs)
      | _, _ => None
      end
  end.

(** [alert.notifiedContacts = notifications; await alert.save()]: the
    save validates the document and rejects when an element does not
    cast; nothing is written then. *)
Definition saveNotified (a : EmergencyAlert.t) (notifications : list NotificationData.t)
  : M (Attempt EmergencyAlert.t) :=
  match castNotifications notifications with
  | Some l =>
      a' <- saveAlert (EmergencyAlert.set_notifiedContacts l a) ;;
      ret (Done a')
  | None => ret (Threw ValidationError)
  end.

(** [findOne({ _id, user })]. *)
Definition findAlert (id userId : nat) : M (option EmergencyAlert.t) :=
  fun w =>
    (find (fun a => (EmergencyAlert._id a =? id) && (EmergencyAlert.user a =? userId))
          (alerts w), w).

(** The instance method [resolveAlert(resolvedBy, outcome, notes)]. *)
Definition resolveAlertMethod (a : EmergencyAlert.t) (resolvedBy : nat)
                              (o : option Outcome) (n : option string)
  : M EmergencyAlert.t :=
  let a1 := EmergencyAlert.set_status resolved a in
  t1 <- dateNow ;;
  let a2 := EmergencyAlert.set_resolution
              {| Resolution.resolvedAt := t1;
                 Resolution.resolvedBy := resolvedBy;
                 Resolution.resolutionNotes := n;
                 Resolution.outcome := o |} a1 in
  t2 <- dateNow ;;
  saveAlert (EmergencyAlert.set_deactivatedAt t2 a2).

(** The instance method [markAsFalseAlarm()]. *)
Definition markAsFalseAlarm (a : EmergencyAlert.t) : M EmergencyAlert.t :=
  let a1 := EmergencyAlert.set_status false_alarm a in
  t <- dateNow ;;
  saveAlert (EmergencyAlert.set_deactivatedAt t a1).

(** ** controllers/emergencyController *)

Definition locationUrl (b : AlertBody) : string :=
  ("https://www.google.com/maps?q=" ++ show (latitude b) ++ "," ++ show (longitude b))%string.

Definition alertMessage (user : User.t) (b : AlertBody) (time : Z) : string :=
  ("🚨 EMERGENCY ALERT from " ++ User.name user ++ "!" ++ nl ++ nl
  ++ "Time: " ++ toLocaleString E time ++ nl
  ++ "Location: " ++ show (JS.or_value (address b) (JS.str "View on map")) ++ nl
  ++ "Map: " ++ locationUrl b ++ nl ++ nl
  ++ "Please contact them immediately:" ++ nl
  ++ "Phone: " ++ User.phone user ++ nl
  ++ "Email: " ++ User.email user)%string.

Definition alertSubject (user : User.t) : string :=
  ("🚨 EMERGENCY ALERT - " ++ User.name user ++ " needs help!")%string.

Definition alertHtml (user : User.t) (b : AlertBody) (time : Z) : string :=
  (let line (s : string) : string :=
    nl ++ "                            " ++ s in
  line ("<h1 style=" ++ dq ++ "color: #ef4444;" ++ dq ++ ">🚨 EMERGENCY ALERT</h1>")
  ++ line ("<p><strong>" ++ User.name user
           ++ "</strong> has activated an emergency alert!</p>")
  ++ line ("<p><strong>Time:</strong> " ++ toLocaleString E time ++ "</p>")
  ++ line ("<p><strong>Location:</strong> "
           ++ show (JS.or_value (address b) (JS.str "Location data available"))
           ++ "</p>")
  ++ line ("<p><a href=" ++ dq ++ locationUrl b ++ dq ++ " style=" ++ dq
           ++ "background: #ef4444; color: white; padding: 10px 20px; "
           ++ "text-decoration: none; border-radius: 5px; "
           ++ "display: inline-block; margin: 20px 0;" ++ dq
           ++ ">View Location on Map</a></p>")
  ++ line "<h2>Contact Information:</h2>"
  ++ line ("<p><strong>Phone:</strong> " ++ User.phone user ++ "</p>")
  ++ line ("<p><strong>Email:</strong> " ++ User.email user ++ "</p>")
  ++ line (if JS.truthy (message b)
           then "<p><strong>Additional Message:</strong> "
                ++ show (message b) ++ "</p>"
           else "")
  ++ line ("<p style=" ++ dq ++ "color: #ef4444; font-weight: bold;" ++ dq
           ++ ">Please contact them immediately!</p>")
  ++ nl ++ "                        ")%string.

(** The three blocks of the callback of [contacts.map], each wrapped in
    its own try/catch. *)

(* Send SMS *)
Definition trySms (contact : EmergencyContact.t) (alertMessage : string)
                  (notificationData : NotificationData.t) : M NotificationData.t :=
  if Prefs.sms (EmergencyContact.notificationPreferences contact) then
    r <- sendSMS (EmergencyContact.phone contact) alertMessage ;;
    match r with
    | Resolved _ =>
        incrementAlertCount contact ;;;
        ret (NotificationData.set_deliveryStatus sent
               (NotificationData.push_method Channel.sms notificationData))
    | Rejected =>
        ret (NotificationData.set_deliveryStatus failed notificationData)
    end
  else ret notificationData.

(* Send Email *)
Definition tryEmail (user : User.t) (b : AlertBody) (contact : EmergencyContact.t)
                    (notificationData : NotificationData.t) : M NotificationData.t :=
  if Prefs.email (EmergencyContact.notificationPreferences contact)
     && JS.truthy_str (EmergencyContact.email contact) then
    time <- dateNow ;;
    r <- sendEmail (JS.or_else (EmergencyContact.email contact) "")
           (alertSubject user) (alertHtml user b time) ;;
    match r with
    | Resolved _ => ret (NotificationData.push_method Channel.email notificationData)
    | Rejected => ret notificationData
    end
  else ret notificationData.

(* Send Push Notification *)
Definition tryPush (user : User.t) (alert : EmergencyAlert.t)
                   (contact : EmergencyContact.t)
                   (notificationData : NotificationData.t) : M NotificationData.t :=
  if Prefs.push (EmergencyContact.notificationPreferences contact) then
    r <- sendPush (EmergencyContact._id contact) (EmergencyAlert._id alert)
           (User._id user) ;;
    match r with
    | Resolved _ => ret (NotificationData.push_method Channel.push notificationData)
    | Rejected => ret notificationData
    end
  else ret notificationData.

(** The callback of [contacts.map]: one notification record per contact. *)
Definition notifyContact (user : User.t) (alert : EmergencyAlert.t) (b : AlertBody)
                         (contact : EmergencyContact.t) : M NotificationData.t :=
  time <- dateNow ;;
  let alertMessage := alertMessage user b time in
  now <- dateNow ;;
  let notificationData :=
    {| NotificationData.contact := EmergencyContact._id contact;
       NotificationData.notifiedAt := now;
       NotificationData.notificationMethod := [];
       NotificationData.deliveryStatus := pending |} in
  n1 <- trySms contact alertMessage notificationData ;;
  n2 <- tryEmail user b contact n1 ;;
  tryPush user alert contact n2.

(** [Promise.all(contacts.map(...))]: the notification records of all the
    contacts, in the order of the contacts. *)
Definition dispatch (user : User.t) (alert : EmergencyAlert.t) (b : AlertBody)
                    (cs : list EmergencyContact.t) : M (list NotificationData.t) :=
  mapM (notifyContact user alert b) cs.

Definition emit (e : SocketEvent) : M unit :=
  modify (fun w => with_emitted (emitted w ++ [e]) w).

(** What the catch block of [activatePanicButton] answers. *)
Definition activationError (e : Thrown) : Response.t :=
  Response.caught "Error activating emergency alert" e.

(** POST /api/v1/emergency/alert.  [io] tells whether the application
    carries a socket server. *)
Definition activatePanicButton (userId : nat) (io : bool) (b : AlertBody)
  : M Response.t :=
  (* Validate location *)
  if negb (JS.truthy (longitude b)) || negb (JS.truthy (latitude b)) then
    ret (Response.fail 400 "Location is required for emergency alert")
  else
    cs <- getActiveContacts userId ;;
    if List.length cs =? 0 then
      ret (Response.fail 400
             "No emergency contacts found. Please add emergency contacts first.")
    else
      created <- createAlert userId b ;;
      match created with
      | Threw e => ret (activationError e)
      | Done alert =>
          u <- findUserById userId ;;
          match u with
          | None => ret (activationError (TypeError "updateLocation"))
          | Some user =>
              located <- updateLocation user (longitude b) (latitude b) (address b) ;;
              match located with
              | Threw e => ret (activationError e)
              | Done user =>
                  notifications <- dispatch user alert b cs ;;
                  saved <- saveNotified alert notifications ;;
                  match saved with
                  | Threw e => ret (activationError e)
                  | Done alert =>
                      (if io then
                         emit {| room := userId;
                                 alertId := EmergencyAlert._id alert;
                                 notifiedCount := List.length cs |}
                       else ret tt) ;;;
                      ret (Response.ok 201
                             ("Emergency alert activated! "
                              ++ JS.of_nat (List.length cs)
                              ++ " contact(s) have been notified.")%string
                             (Response.summary (EmergencyAlert._id alert)
                                (EmergencyAlert.status alert)
                                (EmergencyAlert.location alert)
                                (List.length cs)
                                (EmergencyAlert.activatedAt alert)))
                  end
              end
          end
      end.

(** [find({ _id: { $in: ids } })]. *)
Definition findContactsIn (ids : list nat) : M (list EmergencyContact.t) :=
  fun w =>
    (filter (fun c => existsb (Nat.eqb (EmergencyContact._id c)) ids) (contacts w), w).

(** PUT /api/v1/emergency/alerts/:id/resolve *)
Definition resolveAlert (userId id : nat) (b : ResolveBody) : M Response.t :=
  a <- findAlert id userId ;;
  match a with
  | None => ret (Response.fail 404 "Alert not found")
  | Some alert =>
      if negb (Status_eqb (EmergencyAlert.status alert) active) then
        ret (Response.fail 400 "Alert is not active")
      else
        alert <- resolveAlertMethod alert userId (outcome b) (notes b) ;;
        u <- findUserById userId ;;
        match u with
        | None => ret (Response.caught "Error resolving alert" (TypeError "name"))
        | Some user =>
            cs <- findContactsIn
                    (map Notification.contact (EmergencyAlert.notifiedContacts alert)) ;;
            let resolutionMessage :=
              ("✅ SafeHer Alert Update: " ++ User.name user
               ++ " has marked their emergency as resolved. Status: "
               ++ Outcome_to_string (outcome b))%string in
            forEachM
              (fun c =>
                 if Prefs.sms (EmergencyContact.notificationPreferences c) then
                   _ <- sendSMS (EmergencyContact.phone c) resolutionMessage ;; ret tt
                 else ret tt) cs ;;;
            ret (Response.ok 200 "Alert resolved successfully" (Response.alert alert))
        end
  end.

(** PUT /api/v1/emergency/alerts/:id/false-alarm *)
Definition markFalseAlarm (userId id : nat) : M Response.t :=
  a <- findAlert id userId ;;
  match a with
  | None => ret (Response.fail 404 "Alert not found")
  | Some alert =>
      alert <- markAsFalseAlarm alert ;;
      ret (Response.ok 200 "Alert marked as false alarm" (Response.alert alert))
  end.

(** POST /api/v1/emergency/contacts *)
Definition addEmergencyContact (userId : nat) (b : ContactBody.t) : M Response.t :=
  (* Check if contact already exists *)
  existingContact <-
    (fun w => (match phoneFilter (ContactBody.phone b) with
               | Some p => find (hasPhone userId p) (contacts w)
               | None => None
               end, w)) ;;
  match existingContact with
  | Some _ =>
      ret (Response.fail 400 "Contact with this phone number already exists")
  | None =>
      (* If setting as primary, remove primary from other contacts *)
      (if JS.truthy (ContactBody.isPrimary b) then
         clearPrimary (ownPrimary userId)
       else ret tt) ;;;
      r <- createContact userId b ;;
      match r with
      | Threw e => ret (Response.caught "Error adding emergency contact" e)
      | Done contact =>
          pushEmergencyContact userId (EmergencyContact._id contact) ;;;
          ret (Response.ok 201 "Emergency contact added successfully"
                 (Response.contact contact))
      end
  end.


(** PUT /api/v1/emergency/contacts/:id *)
Definition updateEmergencyContact (userId id : nat) (p : ContactPatch.t)
  : M Response.t :=
  contact <-
    (fun w => (find (fun c => (EmergencyContact._id c =? id)
                              && (EmergencyContact.user c =? userId))
                    (contacts w), w)) ;;
  match contact with
  | None => ret (Response.fail 404 "Contact not found")
  | Some _ =>
      (* If setting as primary, remove primary from other contacts *)
      (if JS.truthy (ContactPatch.isPrimary p) then
         clearPrimary (otherPrimary userId id)
       else ret tt) ;;;
      r <- findByIdAndUpdate id p ;;
      match r with
      | Threw e => ret (Response.caught "Error updating contact" e)
      | Done None =>
          ret (Response.ok 200 "Contact updated successfully" Response.none)
      | Done (Some contact) =>
          ret (Response.ok 200 "Contact updated successfully"
                 (Response.contact contact))
      end
  end.

End Backend.

(** ** Sample environments and worlds *)

Module Sample.

(** An environment whose providers answer as the three flags say.  The
    Twilio credentials and the Termii key are given by the caller. *)
Definition env (sid token key : option string) (smsOk mailOk pushOk : bool) : Env :=
  {| clock := fun n => (1700000000000 + 1500 * Z.of_nat n)%Z;
     toLocaleString := fun _ => "1/1/2026, 12:00:00 PM";
     showNumber := fun _ => "6.52";
     parseNumber := fun s => if String.eqb s "6.5" then 6.5%float else PrimFloat.nan;
     TERMII_API_KEY := key;
     TWILIO_ACCOUNT_SID := sid;
     TWILIO_AUTH_TOKEN := token;
     termii := fun _ _ => if smsOk then Some "{}" else None;
     twilio := fun _ _ => if smsOk then Some "SM1" else None;
     sendMail := fun _ _ _ => if mailOk then Some "<1@mail>" else None;
     sendPushNotification := fun _ _ _ => pushOk |}.

(** Twilio configured, every provider failing. *)
Definition allFailing : Env := env (Some "AC1") (Some "tok") None false false false.

(** Twilio configured, every provider answering. *)
Definition allWorking : Env := env (Some "AC1") (Some "tok") None true true true.


Definition contact (id owner : nat) (ph : string) (mail : option string)
                   (primary act : bool) (p : Prefs.t) (created : Z)
  : EmergencyContact.t :=
  {| EmergencyContact._id := id;
     EmergencyContact.user := owner;
     EmergencyContact.name := "Ada";
     EmergencyContact.phone := ph;
     EmergencyContact.email := mail;
     EmergencyContact.relation := Friend;
     EmergencyContact.isPrimary := primary;
     EmergencyContact.isVerified := false;
     EmergencyContact.verificationCode := None;
     EmergencyContact.notificationPreferences := p;
     EmergencyContact.alertCount := 0%Z;
     EmergencyContact.lastAlertSent := None;
     EmergencyContact.isActive := act;
     EmergencyContact.notes := None;
     EmergencyContact.createdAt := created;
     EmergencyContact.updatedAt := created |}.

Definition user (id : nat) : User.t :=
  {| User._id := id;
     User.name := "Ngozi";
     User.email := "ngozi@example.com";
     User.phone := "08012345678";
     User.emergencyContacts := [];
     User.location :=
       {| User.coordinates := (0%float, 0%float);
          User.address := None;
          User.lastUpdated := None |} |}.

Definition world (cs : list EmergencyContact.t) (als : list EmergencyAlert.t) : World :=
  {| contacts := cs; alerts := als; users := [user 1; user 2];
     nextId := 100; ticks := 10; outbox := []; emitted := [] |}.

Definition body (lon lat : JS.value) : AlertBody :=
  {| longitude := lon; latitude := lat; address := JS.undefined;
     accuracy := JS.undefined; alertType := JS.undefined; message := JS.undefined;
     batteryLevel := JS.undefined; networkType := JS.undefined |}.

(** Lagos: lat 6.5, lon 3.375 (both exact in binary64). *)
Definition lagos : AlertBody := body (JS.number 3.375%float) (JS.number 6.5%float).

Definition smsAndEmail : Prefs.t :=
  {| Prefs.sms := true; Prefs.email := true; Prefs.push := false |}.

Definition emailOnly : Prefs.t :=
  {| Prefs.sms := false; Prefs.email := true; Prefs.push := false |}.

(** Three active contacts of user 1, each with SMS and email enabled. *)
Definition threeContacts : list EmergencyContact.t :=
  [ contact 11 1 "0801111111" (Some "a@example.com") false true smsAndEmail 100%Z;
    contact 12 1 "0802222222" (Some "b@example.com") true true smsAndEmail 200%Z;
    contact 13 1 "0803333333" (Some "c@example.com") false true smsAndEmail 50%Z ].

Definition alertOf (id owner : nat) (s : Status) (activated : Z) : EmergencyAlert.t :=
  {| EmergencyAlert._id := id;
     EmergencyAlert.user := owner;
     EmergencyAlert.alertType := panic;
     EmergencyAlert.status := s;
     EmergencyAlert.location :=
       {| Location.coordinates := (3.375%float, 6.5%float);
          Location.address := None;
          Location.accuracy := None |};
     EmergencyAlert.notifiedContacts := [];
     EmergencyAlert.additionalInfo :=
       {| AdditionalInfo.message := None;
          AdditionalInfo.batteryLevel := None;
          AdditionalInfo.networkType := None |};
     EmergencyAlert.resolution := None;
     EmergencyAlert.activatedAt := activated;
     EmergencyAlert.deactivatedAt := None;
     EmergencyAlert.duration := None |}.

(** A contact body with a name, a phone number and a value for
    [isPrimary]. *)
Definition contactBody (ph : string) (primary : JS.value) : ContactBody.t :=
  {| ContactBody.name := JS.str "Bisi"; ContactBody.phone := JS.str ph;
     ContactBody.email := JS.undefined; ContactBody.relation := JS.undefined;
     ContactBody.isPrimary := primary; ContactBody.notes := JS.undefined |}.

Definition primaryBody (ph : string) : ContactBody.t :=
  contactBody ph (JS.boolean true).

(** A body that names a phone number, a value for [isPrimary] and
    possibly another owner, and nothing else. *)
Definition patch (owner : option nat) (ph primary : JS.value) : ContactPatch.t :=
  {| ContactPatch.user := owner;
     ContactPatch.name := JS.undefined;
     ContactPatch.phone := ph;
     ContactPatch.email := JS.undefined;
     ContactPatch.relation := JS.undefined;
     ContactPatch.isPrimary := primary;
     ContactPatch.isVerified := JS.undefined;
     ContactPatch.verificationCode := JS.undefined;
     ContactPatch.notificationPreferences_sms := JS.undefined;
     ContactPatch.notificationPreferences_email := JS.undefined;
     ContactPatch.notificationPreferences_push := JS.undefined;
     ContactPatch.alertCount := None;
     ContactPatch.lastAlertSent := None;
     ContactPatch.isActive := JS.undefined;
     ContactPatch.notes := JS.undefined |}.

Definition primaryPatch : ContactPatch.t :=
  patch None JS.undefined (JS.boolean true).

(** The primary contact and a further contact of [threeContacts]. *)
Definition second : EmergencyContact.t :=
  contact 12 1 "0802222222" (Some "b@example.com") true true smsAndEmail 200%Z.

Definition first : EmergencyContact.t :=
  contact 11 1 "0801111111" (Some "a@example.com") false true smsAndEmail 100%Z.

End Sample.

(** ** Vocabulary of the statements *)

(** A numeric coordinate equal to zero ([0] or [-0]). *)
Definition isZero (v : JS.value) : bool :=
  match v with
  | JS.number x => PrimFloat.eqb x 0%float
  | _ => false
  end.

Definition locationRequired : Response.t :=
  Response.fail 400 "Location is required for emergency alert".

Definition noContactsConfigured : Response.t :=
  Response.fail 400 "No emergency contacts found. Please add emergency contacts first.".

Definition invalidTransition : Response.t :=
  Response.fail 400 "Alert is not active".

Definition duplicateContact : Response.t :=
  Response.fail 400 "Contact with this phone number already exists".


(** The primary contacts of a user in a collection. *)
Definition primariesOf (userId : nat) (l : list EmergencyContact.t)
  : list EmergencyContact.t :=
  filter (ownPrimary userId) l.

(** The channels a contact has enabled, as the dispatch tests them. *)
Definition enabledChannels (c : EmergencyContact.t) : list Channel.t :=
  let p := EmergencyContact.notificationPreferences c in
  (if Prefs.sms p then [Channel.sms] else [])
  ++ (if Prefs.email p && JS.truthy_str (EmergencyContact.email c)
      then [Channel.email] else [])
  ++ (if Prefs.push p then [Channel.push] else []).

(** Stored documents carry pairwise distinct ids. *)
Definition distinctIds (l : list EmergencyContact.t) : Prop :=
  NoDup (map EmergencyContact._id l).


Definition isSmsDelivery (d : Delivery) : bool :=
  match d with
  | ViaTermii _ _ | ViaTwilio _ _ => true
  | _ => false
  end.

(** Does [sendSMS] resolve?  It does not depend on the world. *)
Definition smsResolves (E : Env) (phone body : string) : bool :=
  match fst (sendSMS E phone body emptyWorld) with
  | Resolved _ => true
  | Rejected => false
  end.

Definition mailResolves (E : Env) (to subject html : string) : bool :=
  match sendMail E to subject html with
  | Some _ => true
  | None => false
  end.

(** What the notification record [n] the callback builds for the contact
    [c] captures of the three attempts: the channels that went through,
    and the fate of the SMS. *)
Definition recorded (E : Env) (u : User.t) (alert : nat) (b : AlertBody)
                    (c : EmergencyContact.t) (n : NotificationData.t) : Prop :=
  exists t t' : Z,
    let p := EmergencyContact.notificationPreferences c in
    let smsOk :=
      Prefs.sms p
      && smsResolves E (EmergencyContact.phone c) (alertMessage E u b t) in
    let mailOk :=
      Prefs.email p && JS.truthy_str (EmergencyContact.email c)
      && mailResolves E (JS.or_else (EmergencyContact.email c) "")
           (alertSubject u) (alertHtml E u b t') in
    let pushOk :=
      Prefs.push p
      && sendPushNotification E (EmergencyContact._id c) alert (User._id u) in
    NotificationData.contact n = EmergencyContact._id c
    /\ NotificationData.notificationMethod n
       = (if smsOk then [Channel.sms] else [])
         ++ (if mailOk then [Channel.email] else [])
         ++ (if pushOk then [Channel.push] else [])
    /\ NotificationData.deliveryStatus n
       = if Prefs.sms p then (if smsOk then sent else failed) else pending.

(** The messages handed to an SMS provider so far. *)
Definition smsDeliveries (w : World) : list Delivery :=
  filter isSmsDelivery (outbox w).

(** The stored document [d] after [incrementAlertCount] on the document
    [c] in memory, read at time [t] and saved at time [t']. *)
Definition bump (c : EmergencyContact.t) (t t' : Z) (d : EmergencyContact.t)
  : EmergencyContact.t :=
  if EmergencyContact._id d =? EmergencyContact._id c
  then EmergencyContact.set_alert (EmergencyContact.alertCount c + 1)%Z (Some t) t' d
  else d.

(** An action leaves a view of the world unchanged. *)
Definition Keeps {X A : Type} (view : World -> X) (m : M A) : Prop :=
  forall w, view (snd (m w)) = view w.

(** A request that passes the two guards of the activation and whose
    alert the schema and the index accept. *)
Definition validActivation (E : Env) (userId : nat) (b : AlertBody) (w : World) : Prop :=
  JS.truthy (longitude b) = true
  /\ JS.truthy (latitude b) = true
  /\ filter (isActiveOf userId) (contacts w) <> []
  /\ acceptableAlert E b = true
  /\ (exists p, pointOf E b = Some p /\ geoValid p = true).

(** The alert such an activation creates, the user document it writes
    and the world in which the handler starts the dispatch. *)
Definition createdAlert (E : Env) (userId : nat) (b : AlertBody) (w : World)
  : EmergencyAlert.t :=
  EmergencyAlert.preSave (newAlert E (nextId w) userId b (clock E (ticks w))).

Definition located (E : Env) (u : User.t) (b : AlertBody) (t : Z) : User.t :=
  User.set_location
    {| User.coordinates :=
         match pointOf E b with Some p => p | None => (0%float, 0%float) end;
       User.address := castOpt (castString E (address b));
       User.lastUpdated := Some t |} u.

Definition beforeDispatch (E : Env) (userId : nat) (u : User.t) (b : AlertBody)
                          (w : World) : World :=
  snd (updateLocation E u (longitude b) (latitude b) (address b)
         (snd (findUserById userId (snd (createAlert E userId b w))))).

(** The records the handler holds when the dispatch is over. *)
Definition notifications (E : Env) (userId : nat) (u : User.t) (b : AlertBody)
                         (w : World) : list NotificationData.t :=
  fst (dispatch E (located E u b (clock E (S (ticks w))))
         (createdAlert E userId b w) b
         (fst (getActiveContacts userId w))
         (beforeDispatch E userId u b w)).

(** The world when the dispatch is over. *)
Definition afterDispatch (E : Env) (userId : nat) (u : User.t) (b : AlertBody)
                         (w : World) : World :=
  snd (dispatch E (located E u b (clock E (S (ticks w))))
         (createdAlert E userId b w) b
         (fst (getActiveContacts userId w))
         (beforeDispatch E userId u b w)).

(** The stored contacts and the number of clock readings once a handler
    is past the demotion it makes when [isPrimary] is truthy. *)
Definition demotedOwn (E : Env) (userId : nat) (primary : JS.value) (w : World)
  : list EmergencyContact.t :=
  if JS.truthy primary
  then demote (clock E (ticks w)) (ownPrimary userId) (contacts w)
  else contacts w.

Definition demotedOthers (E : Env) (userId id : nat) (primary : JS.value) (w : World)
  : list EmergencyContact.t :=
  if JS.truthy primary
  then demote (clock E (ticks w)) (otherPrimary userId id) (contacts w)
  else contacts w.

Definition readings (primary : JS.value) (w : World) : nat :=
  if JS.truthy primary then S (ticks w) else ticks w.

(** The contact of the user, if any, that the duplicate check finds. *)
Definition existingContact (E : Env) (userId : nat) (b : ContactBody.t) (w : World)
  : option EmergencyContact.t :=
  match phoneFilter E (ContactBody.phone b) with
  | Some p => find (hasPhone userId p) (contacts w)
  | None => None
  end.

(** [a] after [updateMany] has cleared its primary flag at time [t]. *)
Definition demoted (t : Z) (a : EmergencyContact.t) : EmergencyContact.t :=
  EmergencyContact.set_updatedAt t (EmergencyContact.set_isPrimary false a).

(** Two worlds that are three steps apart in the alert lifecycle: an alert
    of user 1 is active in [Sample.world], resolved in [afterResolve]. *)
Definition activeAlertWorld : World :=
  Sample.world Sample.threeContacts [Sample.alertOf 50 1 active 1699999990000%Z].

Definition afterResolve : World :=
  snd (resolveAlert Sample.allWorking 1 50
         {| outcome := Some safe; notes := None |} activeAlertWorld).

(** ** The rest of the controller, the alert queries and the middleware *)

(** [contact.remove()] deletes one stored document. *)
Fixpoint removeFirst {A : Type} (sel : A -> bool) (l : list A) : list A :=
  match l with
  | [] => []
  | x :: r => if sel x then r else x :: removeFirst sel r
  end.

Definition removeContact (c : EmergencyContact.t) : M unit :=
  modify (fun w =>
    with_contacts
      (removeFirst (fun d => EmergencyContact._id d =? EmergencyContact._id c)
         (contacts w)) w).

(** [findByIdAndUpdate(id, { $pull: { emergencyContacts: c } })]. *)
Definition pullEmergencyContact (id c : nat) : M unit :=
  modify (fun w =>
    with_users
      (updateFirst (fun u => User._id u =? id)
         (fun u => User.set_emergencyContacts
                     (filter (fun x => negb (x =? c)) (User.emergencyContacts u)) u)
         (users w)) w).

(** DELETE /api/v1/emergency/contacts/:id *)
Definition deleteEmergencyContact (userId id : nat) : M Response.t :=
  contact <-
    (fun w => (find (fun c => (EmergencyContact._id c =? id)
                              && (EmergencyContact.user c =? userId))
                    (contacts w), w)) ;;
  match contact with
  | None => ret (Response.fail 404 "Contact not found")
  | Some contact =>
      removeContact contact ;;;
      pullEmergencyContact userId id ;;;
      ret (Response.ok 200 "Contact deleted successfully" Response.empty)
  end.

(** A populated reference: the selected fields of the contact, or [null]
    when the contact is gone. *)
Module ContactView.
Record t := {
  _id : nat;
  name : string;
  phone : string;
  relation : option Relation
}.
End ContactView.

Module Populated.
Record Entry := {
  notification : Notification.t;
  contact : option ContactView.t
}.
Record t := {
  alert : EmergencyAlert.t;
  notifiedContacts : list Entry
}.
End Populated.

(** [populate('notifiedContacts.contact', 'name phone')], with [relation]
    as a third field when [withRelation] is set. *)
Definition populateContact (withRelation : bool) (cs : list EmergencyContact.t)
                           (id : nat) : option ContactView.t :=
  match find (fun c => EmergencyContact._id c =? id) cs with
  | Some c =>
      Some {| ContactView._id := EmergencyContact._id c;
              ContactView.name := EmergencyContact.name c;
              ContactView.phone := EmergencyContact.phone c;
              ContactView.relation :=
                if withRelation then Some (EmergencyContact.relation c) else None |}
  | None => None
  end.

Definition populate (withRelation : bool) (cs : list EmergencyContact.t)
                    (a : EmergencyAlert.t) : Populated.t :=
  {| Populated.alert := a;
     Populated.notifiedContacts :=
       map (fun n =>
              {| Populated.notification := n;
                 Populated.contact :=
                   populateContact withRelation cs (Notification.contact n) |})
           (EmergencyAlert.notifiedContacts a) |}.

(** The responses [{ success, count, data }] of the two alert listings. *)
Module AlertList.
Record t := {
  status : nat;
  success : bool;
  count : nat;
  data : list Populated.t
}.
End AlertList.

(** The order of [sort({ activatedAt: -1 })]. *)
Definition notOlder (a b : EmergencyAlert.t) : bool :=
  (EmergencyAlert.activatedAt b <=? EmergencyAlert.activatedAt a)%Z.

Fixpoint insertRecent (a : EmergencyAlert.t) (l : list EmergencyAlert.t)
  : list EmergencyAlert.t :=
  match l with
  | [] => [a]
  | x :: r => if notOlder a x then a :: l else x :: insertRecent a r
  end.

Definition sortRecent (l : list EmergencyAlert.t) : list EmergencyAlert.t :=
  fold_right insertRecent [] l.

(** The filters [{ user }] and [{ user, status: 'active' }]. *)
Definition isAlertOf (userId : nat) (a : EmergencyAlert.t) : bool :=
  EmergencyAlert.user a =? userId.


(** The static [getUserAlertHistory(userId, limit)]; a limit of zero is no
    limit. *)
Definition getUserAlertHistory (userId limit : nat) : M (list Populated.t) :=
  fun w =>
    let sorted := sortRecent (filter (isAlertOf userId) (alerts w)) in
    (map (populate true (contacts w))
       (if limit =? 0 then sorted else firstn limit sorted), w).

(** GET /api/v1/emergency/alerts.  [parsed] is [parseInt(req.query.limit)]:
    [None] for [NaN]; negative limits are outside the model. *)
Definition getAlertHistory (userId : nat) (parsed : option nat) : M AlertList.t :=
  let limit := match parsed with
               | Some (S n) => S n
               | _ => 10
               end in
  alerts <- getUserAlertHistory userId limit ;;
  ret {| AlertList.status := 200; AlertList.success := true;
         AlertList.count := List.length alerts; AlertList.data := alerts |}.


(** [sendBulkSMS]: [Promise.allSettled] over one [sendSMS] per recipient. *)
Definition sendBulkSMS (E : Env) (recipients : list (string * string))
  : M (list (Settled SmsReply)) :=
  mapM (fun r => sendSMS E (fst r) (snd r)) recipients.

(** ** middleware/auth *)

Module Auth.

(** The columns [protect] selects from the [users] table. *)
Record SupabaseUser := {
  id : nat;
  name : string;
  email : string;
  phone : string;
  is_active : bool;
  is_verified : bool
}.

(** The two places a token is looked for. *)
Record Request := {
  authorization : option string;
  cookieToken : option string
}.

(** The token verifier ([jwt.verify]: the decoded id, or the message of
    the error it throws) and the [users] table. *)
Record Backend := {
  jwtVerify : string -> nat + string;
  table : list SupabaseUser
}.

(** [String.prototype.split] on a one-character separator. *)
Fixpoint split (sep : ascii) (s : string) : list string :=
  match s with
  | EmptyString => [EmptyString]
  | String c r =>
      if Ascii.eqb c sep then EmptyString :: split sep r
      else match split sep r with
           | p :: ps => String c p :: ps
           | [] => [String c EmptyString]
           end
  end.

(** The token [protect] settles on: the second piece of a header that
    starts with [Bearer], else the cookie. *)
Definition tokenOf (r : Request) : option string :=
  if JS.truthy_str (authorization r)
     && JS.startsWith (JS.or_else (authorization r) "") "Bearer"
  then nth_error (split " "%char (JS.or_else (authorization r) "")) 1
  else if JS.truthy_str (cookieToken r) then cookieToken r
  else None.

(** [.eq('id', id).single()]: the row, or an error unless exactly one row
    matches. *)
Definition single (B : Backend) (decoded : nat) : option SupabaseUser :=
  match filter (fun u => id u =? decoded) (table B) with
  | [u] => Some u
  | _ => None
  end.

(** [protect]: a response, or the user attached to the request when
    [next()] is called. *)
Definition protect (B : Backend) (r : Request) : Response.t + SupabaseUser :=
  let token := tokenOf r in
  if negb (JS.truthy_str token) then
    inl (Response.fail 401 "Not authorized to access this route. Please login.")
  else
    match jwtVerify B (JS.or_else token "") with
    | inr msg =>
        inl {| Response.status := 401; Response.success := false;
               Response.message := Some "Not authorized to access this route";
               Response.error := Some (Failure msg); Response.count := None;
               Response.data := Response.none |}
    | inl decoded =>
        match single B decoded with
        | None => inl (Response.fail 404 "User not found")
        | Some user =>
            if negb (is_active user) then
              inl (Response.fail 403 "Account is deactivated")
            else inr user
        end
    end.

End Auth.

(** ** Vocabulary of the further statements *)

(** Ids come from the counter: stored documents carry pairwise distinct
    ids below [nextId]. *)
Definition idsFromCounter (w : World) : Prop :=
  distinctIds (contacts w)
  /\ Forall (fun c => EmergencyContact._id c < nextId w) (contacts w)
  /\ NoDup (map EmergencyAlert._id (alerts w))
  /\ Forall (fun a => EmergencyAlert._id a < nextId w) (alerts w).


(** The number of channel attempts the contacts call for. *)
Definition attemptsFor (cs : list EmergencyContact.t) : nat :=
  List.length (List.concat (map enabledChannels cs)).

Definition isTermii (d : Delivery) : bool :=
  match d with ViaTermii _ _ => true | _ => false end.

Definition isTwilio (d : Delivery) : bool :=
  match d with ViaTwilio _ _ => true | _ => false end.

(** The ids in the two collections. *)
Definition contactIds (w : World) : list nat :=
  map EmergencyContact._id (contacts w).

Definition alertIds (w : World) : list nat :=
  map EmergencyAlert._id (alerts w).

(** Further sample data: a contact and an alert of user 2, a world holding
    them beside the three contacts and the active alert of user 1, a
    contact of a user without user document, and request bodies. *)
Definition strangerContact : EmergencyContact.t :=
  Sample.contact 21 2 "0804444444" None true true Sample.smsAndEmail 300%Z.

Definition strangerAlert : EmergencyAlert.t :=
  Sample.alertOf 51 2 active 1699999995000%Z.

Definition sharedWorld : World :=
  Sample.world (Sample.threeContacts ++ [strangerContact])
    [Sample.alertOf 50 1 active 1699999990000%Z; strangerAlert].

Definition orphanWorld : World :=
  Sample.world
    [Sample.contact 31 3 "0805555555" None false true Sample.smsAndEmail 10%Z] [].

Definition plainBody (ph : string) : ContactBody.t :=
  Sample.contactBody ph JS.undefined.

(** A body with a phone number and an empty name. *)
Definition namelessBody (ph : string) : ContactBody.t :=
  {| ContactBody.name := JS.str ""; ContactBody.phone := JS.str ph;
     ContactBody.email := JS.undefined; ContactBody.relation := JS.undefined;
     ContactBody.isPrimary := JS.undefined; ContactBody.notes := JS.undefined |}.

(** A patch that makes the contact primary and moves it to the phone
    number of the second sample contact. *)
Definition collidingPatch : ContactPatch.t :=
  Sample.patch None (JS.str "0802222222") (JS.boolean true).

(** A patch that makes the contact primary and hands it to user 2. *)
Definition movingPatch : ContactPatch.t :=
  Sample.patch (Some 2) JS.undefined (JS.boolean true).

Definition sampleBackend : Auth.Backend :=
  {| Auth.jwtVerify := fun t => if String.eqb t "good" then inl 7 else inr "jwt malformed";
     Auth.table :=
       [ {| Auth.id := 7; Auth.name := "Ngozi"; Auth.email := "ngozi@example.com";
            Auth.phone := "+2348012345678"; Auth.is_active := true;
            Auth.is_verified := true |};
         {| Auth.id := 8; Auth.name := "Ada"; Auth.email := "ada@example.com";
            Auth.phone := "+2348012345679"; Auth.is_active := false;
            Auth.is_verified := true |} ] |}.

(** Most recent first. *)
Definition recentFirst (a b : EmergencyAlert.t) : Prop :=
  (EmergencyAlert.activatedAt b <= EmergencyAlert.activatedAt a)%Z.

(** * Properties *)

(** ** Running the monad *)

Lemma bind_run {A B : Type} (m : M A) (k : A -> M B) (w : World) :
  bind m k w = k (fst (m w)) (snd (m w)).
Proof. unfold bind. destruct (m w); reflexivity. Qed.

Lemma getActiveContacts_run userId w :
  getActiveContacts userId w
  = (sortContacts (filter (isActiveOf userId) (contacts w)), w).
Proof. reflexivity. Qed.

(** ** Location validation *)

Lemma isZero_falsy v : isZero v = true -> JS.truthy v = false.
Proof.
  destruct v; simpl; try discriminate.
  intros ->. reflexivity.
Qed.

(** C9: a request whose longitude or latitude is the number zero is
    rejected with the 400 "Location is required" response and leaves the
    world, hence the alerts, untouched. *)
Theorem zero_coordinate_rejected E userId io b w :
  isZero (longitude b) = true \/ isZero (latitude b) = true ->
  activatePanicButton E userId io b w = (locationRequired, w)
  /\ alerts (snd (activatePanicButton E userId io b w)) = alerts w.
Proof.
  intros H. unfold activatePanicButton.
  assert (Hg : negb (JS.truthy (longitude b)) || negb (JS.truthy (latitude b)) = true).
  { destruct H as [H | H]; apply isZero_falsy in H; rewrite H; simpl;
      [reflexivity | apply orb_true_r]. }
  rewrite Hg. split; reflexivity.
Qed.

Lemma zero_coordinate_rejected_witness :
  activatePanicButton Sample.allWorking 1 true
    (Sample.body (JS.number 3.375%float) (JS.number 0%float))
    (Sample.world Sample.threeContacts [])
  = (locationRequired, Sample.world Sample.threeContacts []).
Proof.
  apply (zero_coordinate_rejected Sample.allWorking 1 true
           (Sample.body (JS.number 3.375%float) (JS.number 0%float))
           (Sample.world Sample.threeContacts [])).
  right. reflexivity.
Defined.

(** ** Activation without contacts *)

Lemma sortContacts_nil : sortContacts [] = [].
Proof. reflexivity. Qed.

(** C1, as amended: for a user without active contacts the activation
    fails with status 400 and changes nothing in the world, so no alert is
    created; and when both coordinates pass the presence check, which comes
    first, the failure is the "No emergency contacts found" response. *)
Theorem activate_without_contacts E userId io b w :
  filter (isActiveOf userId) (contacts w) = [] ->
  snd (activatePanicButton E userId io b w) = w
  /\ alerts (snd (activatePanicButton E userId io b w)) = alerts w
  /\ Response.status (fst (activatePanicButton E userId io b w)) = 400
  /\ Response.success (fst (activatePanicButton E userId io b w)) = false
  /\ (JS.truthy (longitude b) = true ->
      JS.truthy (latitude b) = true ->
      fst (activatePanicButton E userId io b w) = noContactsConfigured).
Proof.
  intros Hnone. unfold activatePanicButton.
  destruct (JS.truthy (longitude b)), (JS.truthy (latitude b)); simpl;
    try (repeat split; try reflexivity; discriminate).
  rewrite bind_run, getActiveContacts_run, Hnone. simpl.
  repeat split; reflexivity.
Qed.

Lemma activate_without_contacts_witness :
  fst (activatePanicButton Sample.allWorking 1 true Sample.lagos (Sample.world [] []))
  = noContactsConfigured
  /\ alerts (snd (activatePanicButton Sample.allWorking 1 true Sample.lagos
                    (Sample.world [] []))) = [].
Proof.
  pose proof (activate_without_contacts Sample.allWorking 1 true Sample.lagos
                (Sample.world [] []) eq_refl) as (_ & Ha & _ & _ & Hr).
  split; [exact (Hr eq_refl eq_refl) | exact Ha].
Defined.

(** C1, as stated, fails: a user without contacts who sends no longitude
    gets the location error, not the missing-contacts error. *)
Lemma no_contacts_location_error_first :
  filter (isActiveOf 1) (contacts (Sample.world [] [])) = []
  /\ fst (activatePanicButton Sample.allWorking 1 true
            (Sample.body JS.undefined (JS.number 6.5%float)) (Sample.world [] []))
     = locationRequired
  /\ fst (activatePanicButton Sample.allWorking 1 true
            (Sample.body JS.undefined (JS.number 6.5%float)) (Sample.world [] []))
     <> noContactsConfigured.
Proof.
  split; [reflexivity | split; [reflexivity | ]].
  vm_compute. discriminate.
Qed.

(** ** The false-alarm transition *)

Lemma findAlert_run id userId w :
  findAlert id userId w
  = (find (fun a => (EmergencyAlert._id a =? id) && (EmergencyAlert.user a =? userId))
       (alerts w), w).
Proof. reflexivity. Qed.

(** The handler performs the transition whatever the current status is. *)
Lemma markFalseAlarm_any_status E userId id w a :
  fst (findAlert id userId w) = Some a ->
  Response.status (fst (markFalseAlarm E userId id w)) = 200
  /\ Response.data (fst (markFalseAlarm E userId id w))
     = Response.alert
         (EmergencyAlert.preSave
            (EmergencyAlert.set_deactivatedAt (clock E (ticks w))
               (EmergencyAlert.set_status false_alarm a))).
Proof.
  intros Hf. unfold markFalseAlarm. rewrite bind_run, Hf.
  unfold markAsFalseAlarm, saveAlert. rewrite !bind_run. simpl. split; reflexivity.
Qed.

(** C2 is violated by the code: on the alert that [resolveAlert] has just
    resolved, [markFalseAlarm] answers 200 and overwrites the status, the
    deactivation timestamp and the duration, where the claim demands the
    "Alert is not active" failure and an unchanged alert. *)
Theorem markFalseAlarm_on_resolved_alert :
  map EmergencyAlert.status (alerts afterResolve) = [resolved]
  /\ map EmergencyAlert.deactivatedAt (alerts afterResolve) = [Some 1700000016500%Z]
  /\ map EmergencyAlert.duration (alerts afterResolve) = [Some 26%Z]
  /\ fst (markFalseAlarm Sample.allWorking 1 50 afterResolve) <> invalidTransition
  /\ Response.status (fst (markFalseAlarm Sample.allWorking 1 50 afterResolve)) = 200
  /\ Response.success (fst (markFalseAlarm Sample.allWorking 1 50 afterResolve)) = true
  /\ map EmergencyAlert.status
       (alerts (snd (markFalseAlarm Sample.allWorking 1 50 afterResolve)))
     = [false_alarm]
  /\ map EmergencyAlert.deactivatedAt
       (alerts (snd (markFalseAlarm Sample.allWorking 1 50 afterResolve)))
     = [Some 1700000018000%Z]
  /\ map EmergencyAlert.duration
       (alerts (snd (markFalseAlarm Sample.allWorking 1 50 afterResolve)))
     = [Some 28%Z].
Proof.
  repeat split; try (vm_compute; reflexivity).
  vm_compute. discriminate.
Qed.

(** ** Listing the active contacts *)




Lemma insertSorted_perm c l : Permutation (insertSorted c l) (c :: l).
Proof.
  induction l as [| x r IH]; simpl.
  - apply Permutation_refl.
  - destruct (sortsBefore c x).
    + apply Permutation_refl.
    + apply Permutation_trans with (x :: c :: r).
      * apply perm_skip, IH.
      * apply perm_swap.
Qed.

Lemma sortContacts_perm l : Permutation (sortContacts l) l.
Proof.
  induction l as [| c r IH]; simpl.
  - apply perm_nil.
  - apply Permutation_trans with (c :: sortContacts r).
    + apply insertSorted_perm.
    + apply perm_skip, IH.
Qed.






(** ** The contact store *)

Ltac run :=
  repeat first [ rewrite bind_run | progress (unfold ret) | progress (cbn [fst snd]) ].

Lemma demote_ids now sel l :
  map EmergencyContact._id (demote now sel l) = map EmergencyContact._id l.
Proof.
  unfold demote. rewrite map_map. apply map_ext. intros d. destruct (sel d); reflexivity.
Qed.

Lemma demote_In now (sel : EmergencyContact.t -> bool) l d :
  In d l -> In (if sel d then demoted now d else d) (demote now sel l).
Proof. intros H. unfold demote. apply in_map_iff. exists d. split; trivial. Qed.

Lemma demote_hasPhone now sel userId p l :
  find (hasPhone userId p) l = None ->
  forallb (fun d => negb (hasPhone userId p d)) (demote now sel l) = true.
Proof.
  intros Hf. apply forallb_forall. intros d' Hd'.
  unfold demote in Hd'. apply in_map_iff in Hd' as (d & <- & Hd).
  pose proof (find_none _ _ Hf d Hd) as Hn.
  destruct (sel d); [ | rewrite Hn; reflexivity].
  unfold hasPhone in *. simpl. rewrite Hn. reflexivity.
Qed.

Lemma violatesIndex_fresh c l :
  forallb (fun d => negb (hasPhone (EmergencyContact.user c) (EmergencyContact.phone c) d)) l
  = true ->
  violatesIndex c l = false.
Proof.
  intros Hf. unfold violatesIndex.
  induction l as [| d r IH]; simpl in *; [reflexivity | ].
  apply andb_true_iff in Hf as [Hd Hr].
  apply negb_true_iff in Hd. rewrite Hd, andb_false_r. simpl. apply IH, Hr.
Qed.

Lemma ownPrimary_demoted userId now d : ownPrimary userId (demoted now d) = false.
Proof. unfold ownPrimary. simpl. apply andb_false_r. Qed.


(** *** What the schema tells about a request *)

Lemma accepts_Some {A : Type} (o : option A) : accepts o = true -> exists a, o = Some a.
Proof. destruct o as [a | ]; [exists a; reflexivity | discriminate]. Qed.

(** A body the schema accepts names a phone number, and the duplicate
    check looks for that very number. *)
Lemma acceptable_phone E b :
  acceptable E b = true ->
  exists p,
    phoneOf E (ContactBody.phone b) = Some p
    /\ phoneFilter E (ContactBody.phone b) = Some p.
Proof.
  unfold acceptable. intros H.
  repeat (apply andb_true_iff in H as [H ?]).
  match goal with Hp : accepts (phoneOf _ _) = true |- _ =>
    apply accepts_Some in Hp as (p & Hp) end.
  exists p. split; [assumption | ].
  unfold phoneOf, phoneFilter in *.
  destruct (castString E (ContactBody.phone b)) as [s | | ]; try discriminate.
  destruct (negb _ && _); [congruence | discriminate].
Qed.




Arguments acceptable : simpl never.
Arguments validPatch : simpl never.
Arguments castsPatch : simpl never.
Arguments acceptableAlert : simpl never.

(** *** Adding a contact *)

Lemma newContact_phone E id userId b now p :
  phoneOf E (ContactBody.phone b) = Some p ->
  EmergencyContact.phone (newContact E id userId b now) = p.
Proof. intros H. unfold newContact. simpl. rewrite H. reflexivity. Qed.

Lemma existingContact_none E userId b w p :
  existingContact E userId b w = None ->
  phoneFilter E (ContactBody.phone b) = Some p ->
  find (hasPhone userId p) (contacts w) = None.
Proof. unfold existingContact. intros H Hp. rewrite Hp in H. exact H. Qed.

Lemma demotedOwn_hasPhone E userId v w p :
  find (hasPhone userId p) (contacts w) = None ->
  forallb (fun d => negb (hasPhone userId p d)) (demotedOwn E userId v w) = true.
Proof.
  intros Hf. unfold demotedOwn. destruct (JS.truthy v).
  - apply demote_hasPhone, Hf.
  - apply forallb_forall. intros d Hd. rewrite (find_none _ _ Hf d Hd). reflexivity.
Qed.

(** The check finds a contact: the 400 response, and nothing changes. *)
Lemma addEmergencyContact_known E userId b w c :
  existingContact E userId b w = Some c ->
  addEmergencyContact E userId b w = (duplicateContact, w).
Proof.
  intros H. unfold addEmergencyContact, existingContact in *.
  rewrite bind_run. cbn [fst snd]. rewrite H. reflexivity.
Qed.

(** The check finds none and the schema refuses the document: the catch
    block answers, after the demotion. *)
Lemma addEmergencyContact_refused E userId b w :
  existingContact E userId b w = None ->
  acceptable E b = false ->
  fst (addEmergencyContact E userId b w)
  = Response.caught "Error adding emergency contact" ValidationError
  /\ contacts (snd (addEmergencyContact E userId b w))
     = demotedOwn E userId (ContactBody.isPrimary b) w
  /\ users (snd (addEmergencyContact E userId b w)) = users w
  /\ alerts (snd (addEmergencyContact E userId b w)) = alerts w
  /\ nextId (snd (addEmergencyContact E userId b w)) = S (nextId w).
Proof.
  intros Hn Ha. unfold addEmergencyContact, existingContact in *.
  rewrite bind_run. cbn [fst snd]. rewrite Hn.
  unfold demotedOwn, createContact, clearPrimary, dateNow, freshId, modify.
  destruct (JS.truthy (ContactBody.isPrimary b)); run; rewrite Ha; run;
    repeat split; reflexivity.
Qed.

(** The check finds none and the schema accepts the document: it is
    stored after the demotion, and its id goes into the user document. *)
Lemma addEmergencyContact_fresh E userId b w :
  existingContact E userId b w = None ->
  acceptable E b = true ->
  fst (addEmergencyContact E userId b w)
  = Response.ok 201 "Emergency contact added successfully"
      (Response.contact
         (newContact E (nextId w) userId b
            (clock E (readings (ContactBody.isPrimary b) w))))
  /\ contacts (snd (addEmergencyContact E userId b w))
     = demotedOwn E userId (ContactBody.isPrimary b) w
       ++ [newContact E (nextId w) userId b
             (clock E (readings (ContactBody.isPrimary b) w))]
  /\ users (snd (addEmergencyContact E userId b w))
     = updateFirst (fun u => User._id u =? userId)
         (fun u => User.set_emergencyContacts (User.emergencyContacts u ++ [nextId w]) u)
         (users w)
  /\ alerts (snd (addEmergencyContact E userId b w)) = alerts w
  /\ nextId (snd (addEmergencyContact E userId b w)) = S (nextId w).
Proof.
  intros Hn Ha.
  destruct (acceptable_phone E b Ha) as (p & Hp & Hq).
  pose proof (existingContact_none E userId b w p Hn Hq) as Hf.
  assert (Hv : violatesIndex
                 (newContact E (nextId w) userId b
                    (clock E (readings (ContactBody.isPrimary b) w)))
                 (demotedOwn E userId (ContactBody.isPrimary b) w) = false).
  { apply violatesIndex_fresh. rewrite (newContact_phone E _ _ _ _ p Hp).
    apply demotedOwn_hasPhone, Hf. }
  unfold addEmergencyContact, existingContact in *.
  rewrite bind_run. cbn [fst snd]. rewrite Hn.
  unfold demotedOwn, readings, createContact, clearPrimary, dateNow, freshId, modify,
    pushEmergencyContact in *.
  destruct (JS.truthy (ContactBody.isPrimary b)); run; rewrite Ha; run;
    cbn [contacts with_contacts with_ticks with_nextId ticks nextId] in *;
    rewrite Hv; run; repeat split; reflexivity.
Qed.

(** The three ways a request to add a contact ends. *)
Lemma addEmergencyContact_cases E userId b w :
  (exists c, existingContact E userId b w = Some c
             /\ addEmergencyContact E userId b w = (duplicateContact, w))
  \/ (existingContact E userId b w = None /\ acceptable E b = false
      /\ Response.status (fst (addEmergencyContact E userId b w)) = 500)
  \/ (existingContact E userId b w = None /\ acceptable E b = true
      /\ Response.status (fst (addEmergencyContact E userId b w)) = 201).
Proof.
  destruct (existingContact E userId b w) as [c | ] eqn:Hx.
  - left. exists c. split; [reflexivity | apply (addEmergencyContact_known E userId b w c Hx)].
  - right. destruct (acceptable E b) eqn:Ha.
    + right. destruct (addEmergencyContact_fresh E userId b w Hx Ha) as (-> & _).
      repeat split.
    + left. destruct (addEmergencyContact_refused E userId b w Hx Ha) as (-> & _).
      repeat split.
Qed.

Lemma addEmergencyContact_201 E userId b w :
  Response.status (fst (addEmergencyContact E userId b w)) = 201 ->
  existingContact E userId b w = None /\ acceptable E b = true.
Proof.
  intros Hs.
  destruct (addEmergencyContact_cases E userId b w)
    as [(c & _ & Hr) | [(_ & _ & H5) | (Hx & Ha & _)]].
  - rewrite Hr in Hs. discriminate.
  - rewrite H5 in Hs. discriminate.
  - split; assumption.
Qed.

(** C7, as amended: adding a contact whose phone number one of the user's
    stored contacts already has fails with the 400 duplicate response and
    changes nothing; when the number is only held by contacts of other
    users and the schema accepts the request, the call answers 201 and
    appends the new contact of this user.  The stored phone number is
    trimmed, as the schema stores it. *)
Theorem addEmergencyContact_duplicate E userId b w ph :
  ContactBody.phone b = JS.str ph ->
  JS.trim ph = ph ->
  (forall c, In c (contacts w) ->
             EmergencyContact.user c = userId ->
             EmergencyContact.phone c = ph ->
             addEmergencyContact E userId b w = (duplicateContact, w))
  /\ (acceptable E b = true ->
      (forall c, In c (contacts w) ->
                 EmergencyContact.phone c = ph ->
                 EmergencyContact.user c <> userId) ->
      exists c',
        Response.status (fst (addEmergencyContact E userId b w)) = 201
        /\ Response.success (fst (addEmergencyContact E userId b w)) = true
        /\ Response.data (fst (addEmergencyContact E userId b w)) = Response.contact c'
        /\ EmergencyContact.user c' = userId
        /\ EmergencyContact.phone c' = ph
        /\ In c' (contacts (snd (addEmergencyContact E userId b w)))
        /\ List.length (contacts (snd (addEmergencyContact E userId b w)))
           = S (List.length (contacts w))).
Proof.
  intros Hb Htrim.
  assert (Hq : phoneFilter E (ContactBody.phone b) = Some ph).
  { unfold phoneFilter. rewrite Hb. simpl. rewrite Htrim. reflexivity. }
  split.
  - intros c Hin Hu Hp.
    destruct (existingContact E userId b w) as [d | ] eqn:Hx.
    + apply (addEmergencyContact_known E userId b w d Hx).
    + pose proof (existingContact_none E userId b w ph Hx Hq) as Hf.
      pose proof (find_none _ _ Hf c Hin) as Hn.
      unfold hasPhone in Hn. rewrite Hu, Hp, Nat.eqb_refl, String.eqb_refl in Hn.
      discriminate.
  - intros Ha Hother.
    assert (Hx : existingContact E userId b w = None).
    { unfold existingContact. rewrite Hq.
      destruct (find _ (contacts w)) as [d | ] eqn:Hf; [ | reflexivity].
      apply find_some in Hf as [Hin Hd]. unfold hasPhone in Hd.
      apply andb_true_iff in Hd as [Hu Hp].
      apply Nat.eqb_eq in Hu. apply String.eqb_eq in Hp.
      destruct (Hother d Hin Hp Hu). }
    destruct (addEmergencyContact_fresh E userId b w Hx Ha) as (Hr & Hc & _).
    destruct (acceptable_phone E b Ha) as (p & Hp & Hq').
    assert (p = ph) by congruence. subst p.
    exists (newContact E (nextId w) userId b
              (clock E (readings (ContactBody.isPrimary b) w))).
    rewrite Hr, Hc. repeat split; try reflexivity.
    + apply (newContact_phone E _ _ _ _ ph Hp).
    + apply in_or_app. right. left. reflexivity.
    + rewrite length_app. simpl. unfold demotedOwn.
      destruct (JS.truthy (ContactBody.isPrimary b)).
      * unfold demote. rewrite length_map. lia.
      * lia.
Qed.

Lemma addEmergencyContact_duplicate_witness :
  addEmergencyContact Sample.allWorking 1 (plainBody "0801111111")
    (Sample.world Sample.threeContacts [])
  = (duplicateContact, Sample.world Sample.threeContacts [])
  /\ exists c',
       Response.status
         (fst (addEmergencyContact Sample.allWorking 2 (plainBody "0801111111")
                 (Sample.world Sample.threeContacts []))) = 201
       /\ EmergencyContact.user c' = 2
       /\ EmergencyContact.phone c' = "0801111111"
       /\ In c' (contacts
                   (snd (addEmergencyContact Sample.allWorking 2 (plainBody "0801111111")
                           (Sample.world Sample.threeContacts [])))).
Proof.
  split.
  - apply (proj1 (addEmergencyContact_duplicate Sample.allWorking 1
                    (plainBody "0801111111") (Sample.world Sample.threeContacts [])
                    "0801111111" eq_refl eq_refl) Sample.first).
    + left. reflexivity.
    + reflexivity.
    + reflexivity.
  - destruct (proj2 (addEmergencyContact_duplicate Sample.allWorking 2
                       (plainBody "0801111111") (Sample.world Sample.threeContacts [])
                       "0801111111" eq_refl eq_refl))
      as (c' & Hs & _ & _ & Hu & Hp & Hin & _).
    + reflexivity.
    + intros c [<- | [<- | [<- | []]]] Hp; simpl; try discriminate Hp; lia.
    + exists c'. auto.
Defined.

(** C7, as stated, fails: a phone number that only a contact of another
    user has does not make the add succeed by itself.  User 2 asks for a
    contact with the number of a contact of user 1 and an empty name: the
    schema refuses the document, the request is answered 500 and nothing
    is added. *)
Lemma same_phone_refused_without_name :
  map EmergencyContact.user
    (filter (fun c => String.eqb (EmergencyContact.phone c) "0801111111")
       (contacts (Sample.world Sample.threeContacts []))) = [1]
  /\ fst (addEmergencyContact Sample.allWorking 2 (namelessBody "0801111111")
            (Sample.world Sample.threeContacts []))
     = Response.caught "Error adding emergency contact" ValidationError
  /\ Response.status
       (fst (addEmergencyContact Sample.allWorking 2 (namelessBody "0801111111")
               (Sample.world Sample.threeContacts []))) = 500
  /\ contacts (snd (addEmergencyContact Sample.allWorking 2 (namelessBody "0801111111")
                      (Sample.world Sample.threeContacts [])))
     = Sample.threeContacts.
Proof. repeat split; vm_compute; reflexivity. Qed.

(** *** Updating a contact *)

Lemma find_by_id (l : list EmergencyContact.t) c (extra : EmergencyContact.t -> bool) :
  distinctIds l -> In c l -> extra c = true ->
  find (fun d => (EmergencyContact._id d =? EmergencyContact._id c) && extra d) l = Some c.
Proof.
  unfold distinctIds. induction l as [| x r IH]; simpl; intros Hnd Hin Hex; [contradiction | ].
  inversion Hnd as [| ? ? Hnot Hr]; subst.
  destruct Hin as [-> | Hin].
  - rewrite Nat.eqb_refl, Hex. reflexivity.
  - destruct (EmergencyContact._id x =? EmergencyContact._id c) eqn:Hid.
    + apply Nat.eqb_eq in Hid. exfalso. apply Hnot. rewrite Hid.
      apply in_map, Hin.
    + simpl. apply IH; assumption.
Qed.

Lemma find_pointwise {A : Type} (p q : A -> bool) (l : list A) :
  (forall a, p a = q a) -> find p l = find q l.
Proof.
  intros H. induction l as [| x r IH]; simpl; [reflexivity | ].
  rewrite H, IH. reflexivity.
Qed.

Lemma filter_none {A : Type} (p : A -> bool) (l : list A) :
  (forall a, In a l -> p a = false) -> filter p l = [].
Proof.
  induction l as [| x r IH]; simpl; intros H; [reflexivity | ].
  rewrite (H x (or_introl eq_refl)). apply IH. intros a Ha. apply H. right; exact Ha.
Qed.

Lemma find_by_id_only (l : list EmergencyContact.t) c :
  distinctIds l -> In c l ->
  find (fun d => EmergencyContact._id d =? EmergencyContact._id c) l = Some c.
Proof.
  intros Hnd Hin.
  rewrite <- (find_by_id l c (fun _ => true) Hnd Hin eq_refl).
  apply find_pointwise. intros d. rewrite andb_true_r. reflexivity.
Qed.

Lemma otherPrimary_self userId c : otherPrimary userId (EmergencyContact._id c) c = false.
Proof. unfold otherPrimary. rewrite Nat.eqb_refl, andb_false_r. reflexivity. Qed.

Lemma violatesIndex_demote c now sel l :
  violatesIndex c (demote now sel l) = violatesIndex c l.
Proof.
  unfold violatesIndex, demote. induction l as [| d r IH]; simpl; [reflexivity | ].
  rewrite IH. destruct (sel d); reflexivity.
Qed.

Lemma violatesIndex_none c l :
  (forall d, In d l ->
             EmergencyContact._id d <> EmergencyContact._id c ->
             EmergencyContact.user d = EmergencyContact.user c ->
             EmergencyContact.phone d <> EmergencyContact.phone c) ->
  violatesIndex c l = false.
Proof.
  intros H. unfold violatesIndex.
  destruct (existsb _ l) eqn:Hex; [ | reflexivity].
  apply existsb_exists in Hex as (d & Hin & Hd).
  apply andb_true_iff in Hd as [Hid Hp]. unfold hasPhone in Hp.
  apply andb_true_iff in Hp as [Hu Hp].
  apply negb_true_iff, Nat.eqb_neq in Hid.
  apply Nat.eqb_eq in Hu. apply String.eqb_eq in Hp.
  destruct (H d Hin Hid Hu Hp).
Qed.


Lemma updateFirst_keeps {A : Type} (sel : A -> bool) f (l : list A) a :
  In a l -> sel a = false -> In a (updateFirst sel f l).
Proof.
  induction l as [| x r IH]; simpl; intros Hin Hs; [contradiction | ].
  destruct (sel x) eqn:Hx.
  - destruct Hin as [-> | Hin]; [congruence | right; exact Hin].
  - destruct Hin as [-> | Hin]; [left; reflexivity | right; apply IH; assumption].
Qed.

Lemma demotedOthers_ids E userId id v w :
  map EmergencyContact._id (demotedOthers E userId id v w)
  = map EmergencyContact._id (contacts w).
Proof. unfold demotedOthers. destruct (JS.truthy v); [apply demote_ids | reflexivity]. Qed.

Lemma demotedOthers_self E userId v w c :
  In c (contacts w) ->
  In c (demotedOthers E userId (EmergencyContact._id c) v w).
Proof.
  intros Hin. unfold demotedOthers. destruct (JS.truthy v); [ | exact Hin].
  pose proof (demote_In (clock E (ticks w)) (otherPrimary userId (EmergencyContact._id c))
                _ _ Hin) as H.
  rewrite otherPrimary_self in H. exact H.
Qed.

(** The request of [userId] on its own stored contact [c], in a store
    with distinct ids: the contacts are demoted when [isPrimary] is
    truthy, and then the update is cast, validated and checked against
    the index. *)
Lemma updateEmergencyContact_found E userId p w c :
  distinctIds (contacts w) ->
  In c (contacts w) ->
  EmergencyContact.user c = userId ->
  fst (updateEmergencyContact E userId (EmergencyContact._id c) p w)
  = (if negb (castsPatch p) then Response.caught "Error updating contact" CastError
     else if negb (validPatch E p)
     then Response.caught "Error updating contact" ValidationError
     else if violatesIndex
               (applyPatch E (clock E (readings (ContactPatch.isPrimary p) w)) p c)
               (demotedOthers E userId (EmergencyContact._id c)
                  (ContactPatch.isPrimary p) w)
     then Response.caught "Error updating contact" DuplicateKey
     else Response.ok 200 "Contact updated successfully"
            (Response.contact
               (applyPatch E (clock E (readings (ContactPatch.isPrimary p) w)) p c)))
  /\ contacts (snd (updateEmergencyContact E userId (EmergencyContact._id c) p w))
     = (if castsPatch p && validPatch E p
           && negb (violatesIndex
                      (applyPatch E (clock E (readings (ContactPatch.isPrimary p) w)) p c)
                      (demotedOthers E userId (EmergencyContact._id c)
                         (ContactPatch.isPrimary p) w))
        then updateFirst (fun d => EmergencyContact._id d =? EmergencyContact._id c)
               (applyPatch E (clock E (readings (ContactPatch.isPrimary p) w)) p)
               (demotedOthers E userId (EmergencyContact._id c)
                  (ContactPatch.isPrimary p) w)
        else demotedOthers E userId (EmergencyContact._id c) (ContactPatch.isPrimary p) w)
  /\ users (snd (updateEmergencyContact E userId (EmergencyContact._id c) p w)) = users w
  /\ alerts (snd (updateEmergencyContact E userId (EmergencyContact._id c) p w)) = alerts w
  /\ nextId (snd (updateEmergencyContact E userId (EmergencyContact._id c) p w))
     = nextId w.
Proof.
  intros Hnd Hin Hu.
  assert (Hfind : find (fun d => EmergencyContact._id d =? EmergencyContact._id c)
                    (demotedOthers E userId (EmergencyContact._id c)
                       (ContactPatch.isPrimary p) w) = Some c).
  { apply find_by_id_only.
    - unfold distinctIds. rewrite demotedOthers_ids. exact Hnd.
    - apply demotedOthers_self, Hin. }
  unfold updateEmergencyContact. rewrite bind_run. cbn [fst snd].
  rewrite (find_by_id (contacts w) c (fun d => EmergencyContact.user d =? userId) Hnd Hin)
    by (apply Nat.eqb_eq, Hu).
  unfold demotedOthers, readings, findByIdAndUpdate, clearPrimary, dateNow, modify in *.
  destruct (JS.truthy (ContactPatch.isPrimary p)); run;
    destruct (castsPatch p); cbn [negb andb]; run;
    try (repeat split; reflexivity);
    destruct (validPatch E p); cbn [negb andb]; run;
    try (repeat split; reflexivity);
    cbn [contacts with_contacts with_ticks ticks] in *; rewrite Hfind;
    match goal with |- context [violatesIndex ?x ?l] => destruct (violatesIndex x l) end;
    cbn [negb]; repeat split; reflexivity.
Qed.

Lemma updateEmergencyContact_missing E userId id p w :
  find (fun c => (EmergencyContact._id c =? id) && (EmergencyContact.user c =? userId))
    (contacts w) = None ->
  updateEmergencyContact E userId id p w = (Response.fail 404 "Contact not found", w).
Proof.
  intros H. unfold updateEmergencyContact. rewrite bind_run. cbn [fst snd].
  rewrite H. reflexivity.
Qed.

Lemma patchedFlag_true v old :
  castBoolean v = Cast.ok true -> patchedFlag v old = true.
Proof.
  intros H. unfold patchedFlag. destruct v; try discriminate; rewrite H; reflexivity.
Qed.


Lemma sendSMS_frame E p m w :
  contacts (snd (sendSMS E p m w)) = contacts w
  /\ alerts (snd (sendSMS E p m w)) = alerts w
  /\ users (snd (sendSMS E p m w)) = users w
  /\ nextId (snd (sendSMS E p m w)) = nextId w
  /\ emitted (snd (sendSMS E p m w)) = emitted w.
Proof.
  unfold sendSMS, sendSMSTermii, deliver, modify.
  destruct (JS.startsWith p "+234" && JS.truthy_str (TERMII_API_KEY E));
    [ | destruct (negb (twilioClient E))]; run; repeat split; reflexivity.
Qed.

Lemma mapM_frame {A B X : Type} (f : A -> M B) (proj : World -> X) :
  (forall a w, proj (snd (f a w)) = proj w) ->
  forall l w, proj (snd (mapM f l w)) = proj w.
Proof.
  intros Hf l. induction l as [| a r IH]; intros w; simpl; [reflexivity | ].
  run. rewrite IH. apply Hf.
Qed.

Lemma mapM_length {A B : Type} (f : A -> M B) l w :
  List.length (fst (mapM f l w)) = List.length l.
Proof.
  revert w. induction l as [| a r IH]; intros w; simpl; [reflexivity | ].
  run. simpl. rewrite IH. reflexivity.
Qed.

(** ** Resolving an alert *)

(** The document [resolveAlert] stores for the alert [a], given the two
    clock readings of the method. *)
Lemma resolveAlertMethod_run E a by_ o n w :
  resolveAlertMethod E a by_ o n w
  = (EmergencyAlert.preSave
       (EmergencyAlert.set_deactivatedAt (clock E (S (ticks w)))
          (EmergencyAlert.set_resolution
             {| Resolution.resolvedAt := clock E (ticks w);
                Resolution.resolvedBy := by_;
                Resolution.resolutionNotes := n;
                Resolution.outcome := o |}
             (EmergencyAlert.set_status resolved a))),
     with_alerts
       (map (fun d =>
               if EmergencyAlert._id d =? EmergencyAlert._id a
               then EmergencyAlert.preSave
                      (EmergencyAlert.set_deactivatedAt (clock E (S (ticks w)))
                         (EmergencyAlert.set_resolution
                            {| Resolution.resolvedAt := clock E (ticks w);
                               Resolution.resolvedBy := by_;
                               Resolution.resolutionNotes := n;
                               Resolution.outcome := o |}
                            (EmergencyAlert.set_status resolved a)))
               else d)
            (alerts w))
       (with_ticks (S (S (ticks w))) w)).
Proof. reflexivity. Qed.

Lemma resolve_notices_frame E msg cs w :
  alerts
    (snd (forEachM
            (fun c : EmergencyContact.t =>
               if Prefs.sms (EmergencyContact.notificationPreferences c)
               then _ <- sendSMS E (EmergencyContact.phone c) msg ;; ret tt
               else ret tt) cs w))
  = alerts w.
Proof.
  unfold forEachM. run.
  apply (mapM_frame _ alerts). intros c w0.
  destruct (Prefs.sms (EmergencyContact.notificationPreferences c)); run; [ | reflexivity].
  apply sendSMS_frame.
Qed.

Lemma Status_eqb_eq s t : Status_eqb s t = true <-> s = t.
Proof. destruct s, t; simpl; split; congruence. Qed.

Lemma duration_nonneg (d t : Z) : (t <= d)%Z -> (0 <= (d - t) / 1000)%Z.
Proof. intros H. apply Z.div_pos; lia. Qed.

Lemma createAlert_timestamp E userId b w a :
  fst (createAlert E userId b w) = Done a ->
  EmergencyAlert.activatedAt a = clock E (ticks w)
  /\ EmergencyAlert.status a = active
  /\ ticks (snd (createAlert E userId b w)) = S (ticks w).
Proof.
  unfold createAlert, dateNow, freshId, modify. run.
  destruct (acceptableAlert E b); cbn [negb]; run; [ | discriminate].
  destruct (pointOf E b) as [p | ]; run; [ | discriminate].
  destruct (geoValid p); run; [ | discriminate].
  intros H. injection H as <-. repeat split.
Qed.

(** C4: on an alert of the caller whose status is not [active] the
    handler fails with the 400 "Alert is not active" response and changes
    nothing.  On an active alert it stores the alert with status
    [resolved], the resolution block (outcome, notes, resolver, time of
    resolution), the deactivation timestamp and the duration, which is the
    floor of (deactivation - activation) / 1000; with a clock that does not
    run backwards from the activation time the duration is non-negative;
    and the caller whose user document exists gets the 200 response
    carrying that alert. *)
Theorem resolveAlert_transition E userId id b w a :
  fst (findAlert id userId w) = Some a ->
  (EmergencyAlert.status a <> active ->
   resolveAlert E userId id b w = (invalidTransition, w))
  /\ (EmergencyAlert.status a = active ->
      exists a',
        In a' (alerts (snd (resolveAlert E userId id b w)))
        /\ EmergencyAlert._id a' = EmergencyAlert._id a
        /\ EmergencyAlert.status a' = resolved
        /\ EmergencyAlert.resolution a'
           = Some {| Resolution.resolvedAt := clock E (ticks w);
                     Resolution.resolvedBy := userId;
                     Resolution.resolutionNotes := notes b;
                     Resolution.outcome := outcome b |}
        /\ EmergencyAlert.deactivatedAt a' = Some (clock E (S (ticks w)))
        /\ EmergencyAlert.activatedAt a' = EmergencyAlert.activatedAt a
        /\ EmergencyAlert.duration a'
           = Some ((clock E (S (ticks w)) - EmergencyAlert.activatedAt a) / 1000)%Z
        /\ ((forall n m, n <= m -> (clock E n <= clock E m)%Z) ->
            (EmergencyAlert.activatedAt a <= clock E (ticks w))%Z ->
            (0 <= (clock E (S (ticks w)) - EmergencyAlert.activatedAt a) / 1000)%Z)
        /\ (forall u, fst (findUserById userId w) = Some u ->
                      fst (resolveAlert E userId id b w)
                      = Response.ok 200 "Alert resolved successfully"
                          (Response.alert a'))).
Proof.
  intros Hf. rewrite findAlert_run in Hf. cbn [fst] in Hf.
  split.
  - intros Hs. unfold resolveAlert. rewrite bind_run, findAlert_run. cbn [fst snd].
    rewrite Hf.
    destruct (Status_eqb (EmergencyAlert.status a) active) eqn:He.
    + apply Status_eqb_eq in He. contradiction.
    + reflexivity.
  - intros Hs.
    eexists. split; [ | split; [ | split; [ | split; [ | split; [ | split; [ | split; [ | split]]]]]]].
    9: { intros u Hu. unfold resolveAlert. rewrite bind_run, findAlert_run. cbn [fst snd].
         rewrite Hf, Hs. cbn [Status_eqb negb].
         rewrite bind_run, resolveAlertMethod_run. cbn [fst snd].
         rewrite bind_run. unfold findUserById in *. cbn [fst snd users with_alerts with_ticks] in *.
         rewrite Hu. run. reflexivity. }
    + unfold resolveAlert. rewrite bind_run, findAlert_run. cbn [fst snd].
      rewrite Hf, Hs. cbn [Status_eqb negb].
      rewrite bind_run, resolveAlertMethod_run. cbn [fst snd].
      rewrite bind_run. unfold findUserById. cbn [fst snd users with_alerts with_ticks].
      assert (Hin : In (EmergencyAlert.preSave
                          (EmergencyAlert.set_deactivatedAt (clock E (S (ticks w)))
                             (EmergencyAlert.set_resolution
                                {| Resolution.resolvedAt := clock E (ticks w);
                                   Resolution.resolvedBy := userId;
                                   Resolution.resolutionNotes := notes b;
                                   Resolution.outcome := outcome b |}
                                (EmergencyAlert.set_status resolved a))))
                       (map (fun d =>
                               if EmergencyAlert._id d =? EmergencyAlert._id a
                               then EmergencyAlert.preSave
                                      (EmergencyAlert.set_deactivatedAt (clock E (S (ticks w)))
                                         (EmergencyAlert.set_resolution
                                            {| Resolution.resolvedAt := clock E (ticks w);
                                               Resolution.resolvedBy := userId;
                                               Resolution.resolutionNotes := notes b;
                                               Resolution.outcome := outcome b |}
                                            (EmergencyAlert.set_status resolved a)))
                               else d) (alerts w))).
      { apply in_map_iff. exists a. rewrite Nat.eqb_refl. split; [reflexivity | ].
        apply find_some in Hf. apply Hf. }
      destruct (find (fun u => User._id u =? userId) (users w)).
      * run. unfold findContactsIn. cbn [fst snd].
        rewrite resolve_notices_frame. exact Hin.
      * exact Hin.
    + reflexivity.
    + reflexivity.
    + reflexivity.
    + reflexivity.
    + reflexivity.
    + reflexivity.
    + intros Hmono Hpast. apply duration_nonneg.
      apply Z.le_trans with (clock E (ticks w)); [exact Hpast | ].
      apply Hmono. lia.
Qed.

(** ** The activation *)

Lemma createdAlert_fields E userId b w :
  EmergencyAlert._id (createdAlert E userId b w) = nextId w
  /\ EmergencyAlert.user (createdAlert E userId b w) = userId
  /\ EmergencyAlert.status (createdAlert E userId b w) = active
  /\ EmergencyAlert.activatedAt (createdAlert E userId b w) = clock E (ticks w)
  /\ EmergencyAlert.deactivatedAt (createdAlert E userId b w) = None
  /\ EmergencyAlert.notifiedContacts (createdAlert E userId b w) = [].
Proof. repeat split; reflexivity. Qed.

(** [create] never touches the contacts, the users, the outbox or the
    events, and always takes one clock reading and one id. *)
Lemma createAlert_frame E userId b w :
  contacts (snd (createAlert E userId b w)) = contacts w
  /\ users (snd (createAlert E userId b w)) = users w
  /\ outbox (snd (createAlert E userId b w)) = outbox w
  /\ emitted (snd (createAlert E userId b w)) = emitted w
  /\ ticks (snd (createAlert E userId b w)) = S (ticks w)
  /\ nextId (snd (createAlert E userId b w)) = S (nextId w).
Proof.
  unfold createAlert, dateNow, freshId, modify. run.
  destruct (acceptableAlert E b); cbn [negb]; run; [ | repeat split].
  destruct (pointOf E b) as [p | ]; run; [ | repeat split].
  destruct (geoValid p); run; repeat split.
Qed.

(** The outcome of [create]: the document is stored exactly when the
    schema accepts it and its point is one the index accepts. *)
Lemma createAlert_outcome E userId b w :
  (exists p, acceptableAlert E b = true /\ pointOf E b = Some p /\ geoValid p = true
             /\ fst (createAlert E userId b w) = Done (createdAlert E userId b w)
             /\ alerts (snd (createAlert E userId b w))
                = alerts w ++ [createdAlert E userId b w])
  \/ (exists e, fst (createAlert E userId b w) = Threw e
                /\ alerts (snd (createAlert E userId b w)) = alerts w).
Proof.
  unfold createAlert, dateNow, freshId, modify. run.
  destruct (acceptableAlert E b); cbn [negb]; run;
    [ | right; exists ValidationError; split; reflexivity].
  destruct (pointOf E b) as [p | ]; run;
    [ | right; exists GeoKeys; split; reflexivity].
  destruct (geoValid p) eqn:Hg; run;
    [ | right; exists GeoKeys; split; reflexivity].
  left. exists p. repeat split; trivial.
Qed.

Lemma createAlert_done E userId b w :
  validActivation E userId b w ->
  fst (createAlert E userId b w) = Done (createdAlert E userId b w)
  /\ alerts (snd (createAlert E userId b w)) = alerts w ++ [createdAlert E userId b w].
Proof.
  intros (_ & _ & _ & Ha & p & Hp & Hg).
  unfold createAlert, dateNow, freshId, modify. run.
  rewrite Ha. cbn [negb]. rewrite Hp. run. rewrite Hg. run. split; reflexivity.
Qed.

(** [updateLocation] with the coordinates of an alert that was stored. *)
Lemma updateLocation_done E u b p w :
  pointOf E b = Some p ->
  geoValid p = true ->
  fst (updateLocation E u (longitude b) (latitude b) (address b) w)
  = Done (located E u b (clock E (ticks w)))
  /\ users (snd (updateLocation E u (longitude b) (latitude b) (address b) w))
     = map (fun d => if User._id d =? User._id u
                     then located E u b (clock E (ticks w)) else d) (users w)
  /\ contacts (snd (updateLocation E u (longitude b) (latitude b) (address b) w))
     = contacts w
  /\ alerts (snd (updateLocation E u (longitude b) (latitude b) (address b) w))
     = alerts w
  /\ outbox (snd (updateLocation E u (longitude b) (latitude b) (address b) w))
     = outbox w
  /\ emitted (snd (updateLocation E u (longitude b) (latitude b) (address b) w))
     = emitted w
  /\ nextId (snd (updateLocation E u (longitude b) (latitude b) (address b) w))
     = nextId w.
Proof.
  intros Hp Hg. unfold updateLocation, located, dateNow, saveUser, modify.
  rewrite Hp. unfold pointOf in Hp.
  destruct (castNumber E (longitude b)) as [x | | ]; try discriminate Hp;
    destruct (castNumber E (latitude b)) as [y | | ]; try discriminate Hp.
  injection Hp as <-. run. rewrite Hg. run. repeat split.
Qed.

Lemma castNotifications_some l r : castNotifications l = Some r -> l = [].
Proof. destruct l as [| n l]; [reflexivity | ]. simpl. discriminate. Qed.

Lemma activeContacts_nonempty userId w :
  filter (isActiveOf userId) (contacts w) <> [] ->
  (List.length (fst (getActiveContacts userId w)) =? 0) = false.
Proof.
  intros Hcs. rewrite getActiveContacts_run. cbn [fst].
  destruct (sortContacts (filter (isActiveOf userId) (contacts w))) as [| c0 cs0] eqn:Hs;
    [ | reflexivity].
  exfalso. apply Hcs.
  pose proof (sortContacts_perm (filter (isActiveOf userId) (contacts w))) as P.
  rewrite Hs in P. apply Permutation_nil in P. exact P.
Qed.

(** The save of the records the dispatch returns for at least one contact
    is rejected. *)
Lemma saveNotified_rejects E u a b cs w alert :
  (List.length cs =? 0) = false ->
  saveNotified alert (fst (dispatch E u a b cs w)) (snd (dispatch E u a b cs w))
  = (Threw ValidationError, snd (dispatch E u a b cs w)).
Proof.
  intros Hcs. unfold saveNotified.
  destruct (castNotifications (fst (dispatch E u a b cs w))) as [r | ] eqn:Hc;
    [ | reflexivity].
  apply castNotifications_some in Hc.
  pose proof (mapM_length (notifyContact E u a b) cs w) as Hl.
  unfold dispatch in Hc. rewrite Hc in Hl. simpl in Hl. rewrite <- Hl in Hcs.
  discriminate.
Qed.

(** A request that passes both guards, whose alert is stored and whose
    user document is found runs the dispatch over the active contacts;
    then the save of the records is rejected and the catch block answers.
    The world is left as the dispatch left it. *)
Lemma activatePanicButton_valid E userId io b w u :
  validActivation E userId b w ->
  fst (findUserById userId w) = Some u ->
  activatePanicButton E userId io b w
  = (activationError ValidationError, afterDispatch E userId u b w).
Proof.
  intros Hv Hu.
  pose proof Hv as (Hlon & Hlat & Hcs & Ha & p & Hp & Hg).
  destruct (createAlert_done E userId b w Hv) as [Hc _].
  destruct (createAlert_frame E userId b w) as (_ & Hcu & _ & _ & Hct & _).
  unfold activatePanicButton. rewrite Hlon, Hlat. cbn [negb orb].
  rewrite bind_run. rewrite (activeContacts_nonempty userId w Hcs).
  replace (snd (getActiveContacts userId w)) with w by reflexivity.
  rewrite bind_run, Hc.
  rewrite bind_run. unfold findUserById in *. cbn [fst snd] in *. rewrite Hcu, Hu.
  rewrite bind_run.
  destruct (updateLocation_done E u b p (snd (createAlert E userId b w)) Hp Hg)
    as (Hl & _).
  rewrite Hl, Hct.
  rewrite bind_run, bind_run.
  unfold afterDispatch, beforeDispatch, findUserById. cbn [snd].
  rewrite saveNotified_rejects by (apply activeContacts_nonempty, Hcs).
  reflexivity.
Qed.
(** ** Views the actions keep *)

Lemma Keeps_ret {X A : Type} (view : World -> X) (a : A) : Keeps view (ret a).
Proof. intros w. reflexivity. Qed.

Lemma Keeps_bind {X A B : Type} (view : World -> X) (m : M A) (k : A -> M B) :
  Keeps view m -> (forall a, Keeps view (k a)) -> Keeps view (bind m k).
Proof.
  intros Hm Hk w. rewrite bind_run. rewrite Hk. apply Hm.
Qed.

Lemma Keeps_mapM {X A B : Type} (view : World -> X) (f : A -> M B) (l : list A) :
  (forall a, Keeps view (f a)) -> Keeps view (mapM f l).
Proof.
  intros Hf. induction l as [| a r IH]; simpl.
  - apply Keeps_ret.
  - apply Keeps_bind; [apply Hf | intros b0].
    apply Keeps_bind; [apply IH | intros bs]. apply Keeps_ret.
Qed.

Create HintDb keeps.

Ltac keeps :=
  repeat first
    [ apply Keeps_ret
    | apply Keeps_bind; [ | intros ? ]
    | match goal with
      | |- Keeps _ (if ?c then _ else _) => destruct c
      | |- Keeps _ (match ?x with _ => _ end) => destruct x
      end
    | solve [ auto with keeps ] ].

Lemma dateNow_alerts E : Keeps alerts (dateNow E).
Proof. intros w. reflexivity. Qed.

Lemma deliver_alerts d : Keeps alerts (deliver d).
Proof. intros w. reflexivity. Qed.

Lemma saveAlertFields_alerts c : Keeps alerts (saveAlertFields c).
Proof. intros w. reflexivity. Qed.

#[local] Hint Resolve dateNow_alerts deliver_alerts saveAlertFields_alerts : keeps.

Lemma sendSMS_alerts E p m : Keeps alerts (sendSMS E p m).
Proof. intros w. apply sendSMS_frame. Qed.

Lemma sendEmail_alerts E to subject html : Keeps alerts (sendEmail E to subject html).
Proof. unfold sendEmail. keeps. Qed.

Lemma sendPush_alerts E c a u : Keeps alerts (sendPush E c a u).
Proof. unfold sendPush. keeps. Qed.

Lemma incrementAlertCount_alerts E c : Keeps alerts (incrementAlertCount E c).
Proof. unfold incrementAlertCount. keeps. Qed.

#[local] Hint Resolve sendSMS_alerts sendEmail_alerts sendPush_alerts
  incrementAlertCount_alerts : keeps.

Lemma notifyContact_alerts E u a b c : Keeps alerts (notifyContact E u a b c).
Proof. unfold notifyContact, trySms, tryEmail, tryPush. keeps. Qed.

Lemma dispatch_alerts E u a b cs : Keeps alerts (dispatch E u a b cs).
Proof. unfold dispatch. apply Keeps_mapM. intros c. apply notifyContact_alerts. Qed.

(** ** What one notification record captures *)

Lemma sendSMS_result E p m w :
  fst (sendSMS E p m w) = fst (sendSMS E p m emptyWorld).
Proof.
  unfold sendSMS, sendSMSTermii.
  destruct (JS.startsWith p "+234" && JS.truthy_str (TERMII_API_KEY E));
    [ | destruct (negb (twilioClient E))]; run; reflexivity.
Qed.

Lemma trySms_record E c msg n w :
  fst (trySms E c msg n w)
  = if Prefs.sms (EmergencyContact.notificationPreferences c)
    then if smsResolves E (EmergencyContact.phone c) msg
         then NotificationData.set_deliveryStatus sent
                (NotificationData.push_method Channel.sms n)
         else NotificationData.set_deliveryStatus failed n
    else n.
Proof.
  unfold trySms, smsResolves.
  destruct (Prefs.sms (EmergencyContact.notificationPreferences c)); [ | reflexivity].
  run. rewrite sendSMS_result.
  destruct (fst (sendSMS E (EmergencyContact.phone c) msg emptyWorld));
    run; reflexivity.
Qed.

Lemma tryEmail_record E u b c n w :
  fst (tryEmail E u b c n w)
  = if Prefs.email (EmergencyContact.notificationPreferences c)
       && JS.truthy_str (EmergencyContact.email c)
       && mailResolves E (JS.or_else (EmergencyContact.email c) "")
            (alertSubject u) (alertHtml E u b (clock E (ticks w)))
    then NotificationData.push_method Channel.email n
    else n.
Proof.
  unfold tryEmail, mailResolves, sendEmail.
  destruct (Prefs.email (EmergencyContact.notificationPreferences c)
            && JS.truthy_str (EmergencyContact.email c)); [ | reflexivity].
  run. cbn [andb dateNow fst].
  destruct (sendMail E _ _ _); reflexivity.
Qed.

Lemma tryPush_record E u a c n w :
  fst (tryPush E u a c n w)
  = if Prefs.push (EmergencyContact.notificationPreferences c)
       && sendPushNotification E (EmergencyContact._id c) (EmergencyAlert._id a)
            (User._id u)
    then NotificationData.push_method Channel.push n
    else n.
Proof.
  unfold tryPush, sendPush.
  destruct (Prefs.push (EmergencyContact.notificationPreferences c)); [ | reflexivity].
  run. cbn [andb].
  destruct (sendPushNotification E _ _ _); reflexivity.
Qed.

Lemma notifyContact_run E u a b c w :
  notifyContact E u a b c w
  = tryPush E u a c
      (fst (tryEmail E u b c
              (fst (trySms E c (alertMessage E u b (clock E (ticks w)))
                      {| NotificationData.contact := EmergencyContact._id c;
                         NotificationData.notifiedAt := clock E (S (ticks w));
                         NotificationData.notificationMethod := [];
                         NotificationData.deliveryStatus := pending |}
                      (with_ticks (S (S (ticks w))) w)))
              (snd (trySms E c (alertMessage E u b (clock E (ticks w)))
                      {| NotificationData.contact := EmergencyContact._id c;
                         NotificationData.notifiedAt := clock E (S (ticks w));
                         NotificationData.notificationMethod := [];
                         NotificationData.deliveryStatus := pending |}
                      (with_ticks (S (S (ticks w))) w)))))
      (snd (tryEmail E u b c
              (fst (trySms E c (alertMessage E u b (clock E (ticks w)))
                      {| NotificationData.contact := EmergencyContact._id c;
                         NotificationData.notifiedAt := clock E (S (ticks w));
                         NotificationData.notificationMethod := [];
                         NotificationData.deliveryStatus := pending |}
                      (with_ticks (S (S (ticks w))) w)))
              (snd (trySms E c (alertMessage E u b (clock E (ticks w)))
                      {| NotificationData.contact := EmergencyContact._id c;
                         NotificationData.notifiedAt := clock E (S (ticks w));
                         NotificationData.notificationMethod := [];
                         NotificationData.deliveryStatus := pending |}
                      (with_ticks (S (S (ticks w))) w))))).
Proof. unfold notifyContact. run. reflexivity. Qed.

Lemma notifyContact_recorded E u a b c w :
  recorded E u (EmergencyAlert._id a) b c (fst (notifyContact E u a b c w)).
Proof.
  rewrite notifyContact_run.
  exists (clock E (ticks w)).
  exists (clock E (ticks (snd (trySms E c (alertMessage E u b (clock E (ticks w)))
                                {| NotificationData.contact := EmergencyContact._id c;
                                   NotificationData.notifiedAt := clock E (S (ticks w));
                                   NotificationData.notificationMethod := [];
                                   NotificationData.deliveryStatus := pending |}
                                (with_ticks (S (S (ticks w))) w))))).
  cbv zeta.
  rewrite tryPush_record, tryEmail_record, trySms_record.
  destruct (Prefs.sms (EmergencyContact.notificationPreferences c));
    destruct (smsResolves E (EmergencyContact.phone c) _);
    destruct (Prefs.email (EmergencyContact.notificationPreferences c)
              && JS.truthy_str (EmergencyContact.email c)
              && mailResolves E _ _ _);
    destruct (Prefs.push (EmergencyContact.notificationPreferences c)
              && sendPushNotification E _ _ _);
    repeat split; reflexivity.
Qed.

Lemma dispatch_recorded E u a b cs w :
  Forall2 (recorded E u (EmergencyAlert._id a) b) cs (fst (dispatch E u a b cs w)).
Proof.
  unfold dispatch. revert w. induction cs as [| c r IH]; intros w; simpl.
  - constructor.
  - run. constructor; [apply notifyContact_recorded | apply IH].
Qed.

Lemma recorded_contacts E u a b cs ns :
  Forall2 (recorded E u a b) cs ns ->
  map NotificationData.contact ns = map EmergencyContact._id cs.
Proof.
  induction 1 as [| c n cs ns (t & t' & Hc & _) _ IH]; simpl; [reflexivity | ].
  cbv zeta in Hc. rewrite Hc, IH. reflexivity.
Qed.

Lemma recorded_all_sms_failing E u a b cs ns :
  (forall p m, smsResolves E p m = false) ->
  Forall2 (recorded E u a b) cs ns ->
  Forall2 (fun c n =>
             NotificationData.deliveryStatus n
             = if Prefs.sms (EmergencyContact.notificationPreferences c)
               then failed else pending) cs ns.
Proof.
  intros Hfail. induction 1 as [| c n cs ns (t & t' & _ & _ & Hs) _ IH]; constructor; trivial.
  cbv zeta in Hs. rewrite Hs, Hfail, andb_false_r. reflexivity.
Qed.

(** The alert that a valid activation leaves in the store carries the
    records of the dispatch. *)

(** ** The records of the dispatch and their save *)

Lemma afterDispatch_alerts E userId u b w :
  validActivation E userId b w ->
  alerts (afterDispatch E userId u b w) = alerts w ++ [createdAlert E userId b w].
Proof.
  intros Hv. pose proof Hv as (_ & _ & _ & _ & p & Hp & Hg).
  unfold afterDispatch. rewrite dispatch_alerts. unfold beforeDispatch.
  destruct (updateLocation_done E u b p
              (snd (findUserById userId (snd (createAlert E userId b w)))) Hp Hg)
    as (_ & _ & _ & -> & _).
  apply (createAlert_done E userId b w Hv).
Qed.

Lemma beforeDispatch_contacts E userId u b w :
  validActivation E userId b w ->
  contacts (beforeDispatch E userId u b w) = contacts w.
Proof.
  intros (_ & _ & _ & _ & p & Hp & Hg). unfold beforeDispatch.
  destruct (updateLocation_done E u b p
              (snd (findUserById userId (snd (createAlert E userId b w)))) Hp Hg)
    as (_ & _ & -> & _).
  apply (createAlert_frame E userId b w).
Qed.

Lemma beforeDispatch_outbox E userId u b w :
  validActivation E userId b w ->
  outbox (beforeDispatch E userId u b w) = outbox w.
Proof.
  intros (_ & _ & _ & _ & p & Hp & Hg). unfold beforeDispatch.
  destruct (updateLocation_done E u b p
              (snd (findUserById userId (snd (createAlert E userId b w)))) Hp Hg)
    as (_ & _ & _ & _ & -> & _).
  apply (createAlert_frame E userId b w).
Qed.

Lemma beforeDispatch_emitted E userId u b w :
  validActivation E userId b w ->
  emitted (beforeDispatch E userId u b w) = emitted w.
Proof.
  intros (_ & _ & _ & _ & p & Hp & Hg). unfold beforeDispatch.
  destruct (updateLocation_done E u b p
              (snd (findUserById userId (snd (createAlert E userId b w)))) Hp Hg)
    as (_ & _ & _ & _ & _ & -> & _).
  apply (createAlert_frame E userId b w).
Qed.

(** C5, as amended: the dispatch never raises.  For every user, alert,
    body and list of contacts, whatever the providers do, it returns one
    record per contact, in the order of the contacts, that captures the
    attempts: the SMS attempt as [sent] when [sendSMS] resolved and
    [failed] when it threw ([pending] when SMS is disabled), and each of
    the three channels in [notificationMethod] exactly when its attempt
    went through, so that a failed email or push attempt only leaves its
    channel out.  A valid activation whose user document exists runs the
    dispatch to its end over all the active contacts. *)
Theorem delivery_failures_captured E userId io b w u :
  validActivation E userId b w ->
  fst (findUserById userId w) = Some u ->
  (forall u0 a0 cs0 w0,
      List.length (fst (dispatch E u0 a0 b cs0 w0)) = List.length cs0
      /\ Forall2 (recorded E u0 (EmergencyAlert._id a0) b) cs0
           (fst (dispatch E u0 a0 b cs0 w0)))
  /\ Forall2 (recorded E (located E u b (clock E (S (ticks w)))) (nextId w) b)
       (fst (getActiveContacts userId w))
       (notifications E userId u b w)
  /\ contacts (snd (activatePanicButton E userId io b w))
     = contacts (afterDispatch E userId u b w)
  /\ outbox (snd (activatePanicButton E userId io b w))
     = outbox (afterDispatch E userId u b w).
Proof.
  intros Hv Hu. split; [ | split].
  - intros u0 a0 cs0 w0. split; [apply mapM_length | apply dispatch_recorded].
  - exact (dispatch_recorded E (located E u b (clock E (S (ticks w))))
             (createdAlert E userId b w) b (fst (getActiveContacts userId w))
             (beforeDispatch E userId u b w)).
  - rewrite (activatePanicButton_valid E userId io b w u Hv Hu). split; reflexivity.
Qed.

(** C5, as stated, fails.  A contact with only email enabled whose email
    attempt throws is recorded as [pending] with no channel, not as
    [failed], and when the email goes through the record stays [pending]
    too, it is not marked [sent]; and the request is answered 500, not
    201. *)
Lemma failed_email_stays_pending :
  map (fun n => (NotificationData.notificationMethod n,
                 NotificationData.deliveryStatus n))
    (notifications Sample.allFailing 1 (Sample.user 1) Sample.lagos
       (Sample.world
          [Sample.contact 11 1 "0801111111" (Some "a@example.com")
             false true Sample.emailOnly 100%Z] []))
  = [([], pending)]
  /\ outbox (snd (activatePanicButton Sample.allFailing 1 true Sample.lagos
                    (Sample.world
                       [Sample.contact 11 1 "0801111111" (Some "a@example.com")
                          false true Sample.emailOnly 100%Z] [])))
     <> []
  /\ map NotificationData.deliveryStatus
       (notifications Sample.allFailing 1 (Sample.user 1) Sample.lagos
          (Sample.world
             [Sample.contact 11 1 "0801111111" (Some "a@example.com")
                false true Sample.emailOnly 100%Z] []))
     <> [failed]
  /\ map (fun n => (NotificationData.notificationMethod n,
                    NotificationData.deliveryStatus n))
       (notifications Sample.allWorking 1 (Sample.user 1) Sample.lagos
          (Sample.world
             [Sample.contact 11 1 "0801111111" (Some "a@example.com")
                false true Sample.emailOnly 100%Z] []))
     = [([Channel.email], pending)]
  /\ Response.status
       (fst (activatePanicButton Sample.allFailing 1 true Sample.lagos
               (Sample.world
                  [Sample.contact 11 1 "0801111111" (Some "a@example.com")
                     false true Sample.emailOnly 100%Z] []))) = 500
  /\ Response.status
       (fst (activatePanicButton Sample.allWorking 1 true Sample.lagos
               (Sample.world
                  [Sample.contact 11 1 "0801111111" (Some "a@example.com")
                     false true Sample.emailOnly 100%Z] []))) = 500.
Proof.
  repeat split; try (vm_compute; reflexivity); vm_compute; discriminate.
Qed.

(** C3 is violated by the code.  Three contacts with two enabled channels
    each make six channel attempts, all failing.  The handler holds three
    records, one per contact, each with an array in [notificationMethod];
    the schema declares that path a String, so the save of the records is
    rejected, the request is answered 500 with [success: false], the
    stored alert carries no record at all and no event is emitted, where
    the claim demands six entries marked [failed] and [success: true]. *)
Theorem six_attempts_no_stored_record :
  map enabledChannels
    (fst (getActiveContacts 1 (Sample.world Sample.threeContacts [])))
  = [[Channel.sms; Channel.email]; [Channel.sms; Channel.email];
     [Channel.sms; Channel.email]]
  /\ List.length
       (outbox (snd (activatePanicButton Sample.allFailing 1 true Sample.lagos
                       (Sample.world Sample.threeContacts [])))) = 6
  /\ map (fun n => (NotificationData.notificationMethod n,
                    NotificationData.deliveryStatus n))
       (notifications Sample.allFailing 1 (Sample.user 1) Sample.lagos
          (Sample.world Sample.threeContacts []))
     = [([], failed); ([], failed); ([], failed)]
  /\ castNotifications
       (notifications Sample.allFailing 1 (Sample.user 1) Sample.lagos
          (Sample.world Sample.threeContacts [])) = None
  /\ fst (activatePanicButton Sample.allFailing 1 true Sample.lagos
            (Sample.world Sample.threeContacts []))
     = Response.caught "Error activating emergency alert" ValidationError
  /\ Response.status
       (fst (activatePanicButton Sample.allFailing 1 true Sample.lagos
               (Sample.world Sample.threeContacts []))) = 500
  /\ Response.success
       (fst (activatePanicButton Sample.allFailing 1 true Sample.lagos
               (Sample.world Sample.threeContacts []))) = false
  /\ map (fun a => (EmergencyAlert.status a, EmergencyAlert.notifiedContacts a))
       (alerts (snd (activatePanicButton Sample.allFailing 1 true Sample.lagos
                       (Sample.world Sample.threeContacts []))))
     = [(active, [])]
  /\ emitted (snd (activatePanicButton Sample.allFailing 1 true Sample.lagos
                     (Sample.world Sample.threeContacts []))) = [].
Proof. repeat split; vm_compute; reflexivity. Qed.


Lemma dateNow_contacts E : Keeps contacts (dateNow E).
Proof. intros w. reflexivity. Qed.

Lemma deliver_contacts d : Keeps contacts (deliver d).
Proof. intros w. reflexivity. Qed.

Lemma dateNow_smsDeliveries E : Keeps smsDeliveries (dateNow E).
Proof. intros w. reflexivity. Qed.

Lemma saveAlertFields_smsDeliveries c : Keeps smsDeliveries (saveAlertFields c).
Proof. intros w. reflexivity. Qed.

Lemma deliver_mail_smsDeliveries to subject html :
  Keeps smsDeliveries (deliver (ViaMail to subject html)).
Proof.
  intros w. unfold smsDeliveries, deliver, modify. cbn [snd outbox with_outbox].
  rewrite filter_app. apply app_nil_r.
Qed.

Lemma deliver_push_smsDeliveries c a u : Keeps smsDeliveries (deliver (ViaPush c a u)).
Proof.
  intros w. unfold smsDeliveries, deliver, modify. cbn [snd outbox with_outbox].
  rewrite filter_app. apply app_nil_r.
Qed.

#[local] Hint Resolve dateNow_contacts deliver_contacts dateNow_smsDeliveries
  saveAlertFields_smsDeliveries deliver_mail_smsDeliveries
  deliver_push_smsDeliveries : keeps.

Lemma tryEmail_contacts E u b c n : Keeps contacts (tryEmail E u b c n).
Proof. unfold tryEmail, sendEmail. keeps. Qed.

Lemma tryPush_contacts E u a c n : Keeps contacts (tryPush E u a c n).
Proof. unfold tryPush, sendPush. keeps. Qed.




Lemma bump_other c t t' d :
  EmergencyContact._id d <> EmergencyContact._id c -> bump c t t' d = d.
Proof. intros H. unfold bump. apply Nat.eqb_neq in H. rewrite H. reflexivity. Qed.





Lemma distinctIds_filter (sel : EmergencyContact.t -> bool) l :
  distinctIds l -> distinctIds (filter sel l).
Proof.
  unfold distinctIds. induction l as [| x r IH]; simpl; intros Hnd; [constructor | ].
  inversion Hnd as [| ? ? Hnot Hr]; subst.
  destruct (sel x); [ | apply IH, Hr].
  simpl. constructor; [ | apply IH, Hr].
  intros Hin. apply Hnot. apply in_map_iff in Hin as (y & Hy & Hin).
  apply filter_In in Hin as [Hin _]. rewrite <- Hy. apply in_map, Hin.
Qed.

Lemma activeContacts_distinct userId w :
  distinctIds (contacts w) -> distinctIds (fst (getActiveContacts userId w)).
Proof.
  unfold distinctIds. intros Hnd. rewrite getActiveContacts_run. cbn [fst].
  eapply Permutation_NoDup.
  - apply Permutation_map, Permutation_sym, sortContacts_perm.
  - apply distinctIds_filter, Hnd.
Qed.

(** C10: with no Termii key and no Twilio client [sendSMS] resolves with
    the "not configured" value, hands nothing to a provider and does not
    throw.  Consequently a valid activation marks the record of every
    active contact with SMS enabled as [sent] over the [sms] channel and
    increments that contact's alert counter and sets its last-alert time,
    although no SMS left the process. *)


(** ** The properties at sample inputs *)

Lemma lagos_valid E :
  validActivation E 1 Sample.lagos (Sample.world Sample.threeContacts []).
Proof.
  repeat split; try reflexivity.
  - simpl. discriminate.
  - exists (3.375%float, 6.5%float). split; reflexivity.
Defined.

Lemma sample_distinct : distinctIds (contacts (Sample.world Sample.threeContacts [])).
Proof. unfold distinctIds. simpl. repeat constructor; simpl; intuition discriminate. Defined.


Lemma delivery_failures_captured_witness :
  Forall2 (recorded Sample.allFailing
             (located Sample.allFailing (Sample.user 1) Sample.lagos 1700000016500%Z)
             100 Sample.lagos)
    (fst (getActiveContacts 1 (Sample.world Sample.threeContacts [])))
    (notifications Sample.allFailing 1 (Sample.user 1) Sample.lagos
       (Sample.world Sample.threeContacts []))
  /\ List.length
       (notifications Sample.allFailing 1 (Sample.user 1) Sample.lagos
          (Sample.world Sample.threeContacts [])) = 3.
Proof.
  destruct (delivery_failures_captured Sample.allFailing 1 false Sample.lagos
              (Sample.world Sample.threeContacts []) (Sample.user 1)
              (lagos_valid Sample.allFailing) eq_refl)
    as (Hall & Hrec & _).
  split; [exact Hrec | ].
  exact (proj1 (Hall (located Sample.allFailing (Sample.user 1) Sample.lagos
                        1700000016500%Z)
                  (createdAlert Sample.allFailing 1 Sample.lagos
                     (Sample.world Sample.threeContacts []))
                  (fst (getActiveContacts 1 (Sample.world Sample.threeContacts [])))
                  (beforeDispatch Sample.allFailing 1 (Sample.user 1) Sample.lagos
                     (Sample.world Sample.threeContacts [])))).
Defined.

Lemma resolveAlert_transition_witness :
  exists a',
    In a' (alerts afterResolve)
    /\ EmergencyAlert.status a' = resolved
    /\ EmergencyAlert.duration a' = Some 26%Z
    /\ (0 <= 26)%Z.
Proof.
  destruct (resolveAlert_transition Sample.allWorking 1 50
              {| outcome := Some safe; notes := None |} activeAlertWorld
              (Sample.alertOf 50 1 active 1699999990000%Z) eq_refl) as [_ Hok].
  destruct (Hok eq_refl) as (a' & Hin & _ & Hst & _ & _ & _ & Hd & Hnn & _).
  exists a'. split; [exact Hin | split; [exact Hst | split; [exact Hd | ]]].
  apply Hnn.
  - intros n m Hnm. unfold Sample.allWorking, Sample.env. cbn [clock]. lia.
  - apply Z.leb_le. vm_compute. reflexivity.
Defined.


(** * Further properties of the controller *)

(** ** More views the dispatch keeps *)

Lemma dateNow_users E : Keeps users (dateNow E).
Proof. intros w. reflexivity. Qed.

Lemma deliver_users d : Keeps users (deliver d).
Proof. intros w. reflexivity. Qed.

Lemma saveAlertFields_users c : Keeps users (saveAlertFields c).
Proof. intros w. reflexivity. Qed.

Lemma sendSMS_users E p m : Keeps users (sendSMS E p m).
Proof. intros w. apply sendSMS_frame. Qed.

Lemma dateNow_emitted E : Keeps emitted (dateNow E).
Proof. intros w. reflexivity. Qed.

Lemma deliver_emitted d : Keeps emitted (deliver d).
Proof. intros w. reflexivity. Qed.

Lemma saveAlertFields_emitted c : Keeps emitted (saveAlertFields c).
Proof. intros w. reflexivity. Qed.

Lemma sendSMS_emitted E p m : Keeps emitted (sendSMS E p m).
Proof. intros w. apply sendSMS_frame. Qed.

Lemma dateNow_nextId E : Keeps nextId (dateNow E).
Proof. intros w. reflexivity. Qed.

Lemma deliver_nextId d : Keeps nextId (deliver d).
Proof. intros w. reflexivity. Qed.

Lemma saveAlertFields_nextId c : Keeps nextId (saveAlertFields c).
Proof. intros w. reflexivity. Qed.

Lemma sendSMS_nextId E p m : Keeps nextId (sendSMS E p m).
Proof. intros w. apply sendSMS_frame. Qed.

#[local] Hint Resolve dateNow_users deliver_users saveAlertFields_users sendSMS_users
  dateNow_emitted deliver_emitted saveAlertFields_emitted sendSMS_emitted
  dateNow_nextId deliver_nextId saveAlertFields_nextId sendSMS_nextId : keeps.

Lemma dispatch_users E u a b cs : Keeps users (dispatch E u a b cs).
Proof.
  unfold dispatch. apply Keeps_mapM. intros c.
  unfold notifyContact, trySms, tryEmail, tryPush, incrementAlertCount,
    sendEmail, sendPush.
  keeps.
Qed.

Lemma dispatch_emitted E u a b cs : Keeps emitted (dispatch E u a b cs).
Proof.
  unfold dispatch. apply Keeps_mapM. intros c.
  unfold notifyContact, trySms, tryEmail, tryPush, incrementAlertCount,
    sendEmail, sendPush.
  keeps.
Qed.

Lemma dispatch_nextId E u a b cs : Keeps nextId (dispatch E u a b cs).
Proof.
  unfold dispatch. apply Keeps_mapM. intros c.
  unfold notifyContact, trySms, tryEmail, tryPush, incrementAlertCount,
    sendEmail, sendPush.
  keeps.
Qed.


(** ** How an activation ends *)

Lemma activatePanicButton_no_user E userId io b w :
  validActivation E userId b w ->
  fst (findUserById userId w) = None ->
  activatePanicButton E userId io b w
  = (activationError (TypeError "updateLocation"), snd (createAlert E userId b w)).
Proof.
  intros Hv Hu. pose proof Hv as (Hlon & Hlat & Hcs & _).
  destruct (createAlert_done E userId b w Hv) as [Hc _].
  destruct (createAlert_frame E userId b w) as (_ & Hcu & _).
  unfold activatePanicButton. rewrite Hlon, Hlat. cbn [negb orb].
  rewrite bind_run, (activeContacts_nonempty userId w Hcs).
  replace (snd (getActiveContacts userId w)) with w by reflexivity.
  rewrite bind_run, Hc.
  rewrite bind_run. unfold findUserById in *. cbn [fst snd] in *.
  rewrite Hcu, Hu. reflexivity.
Qed.

(** The four ways a request to activate ends: at one of the two guards;
    in the catch block because [create] refused the alert; in the catch
    block because the user document is missing; in the catch block
    because the save of the records was rejected. *)
Lemma activatePanicButton_cases E userId io b w :
  (activatePanicButton E userId io b w = (locationRequired, w)
   \/ activatePanicButton E userId io b w = (noContactsConfigured, w))
  \/ (exists e,
         activatePanicButton E userId io b w
         = (activationError e, snd (createAlert E userId b w))
         /\ alerts (snd (createAlert E userId b w)) = alerts w)
  \/ (validActivation E userId b w
      /\ fst (findUserById userId w) = None
      /\ activatePanicButton E userId io b w
         = (activationError (TypeError "updateLocation"),
            snd (createAlert E userId b w)))
  \/ (exists u,
         validActivation E userId b w
         /\ fst (findUserById userId w) = Some u
         /\ activatePanicButton E userId io b w
            = (activationError ValidationError, afterDispatch E userId u b w)).
Proof.
  destruct (JS.truthy (longitude b)) eqn:Hlon;
    [ | left; left; unfold activatePanicButton; rewrite Hlon; reflexivity].
  destruct (JS.truthy (latitude b)) eqn:Hlat;
    [ | left; left; unfold activatePanicButton; rewrite Hlon, Hlat; reflexivity].
  destruct (List.length (fst (getActiveContacts userId w)) =? 0) eqn:Hcs.
  { left. right. unfold activatePanicButton. rewrite Hlon, Hlat. cbn [negb orb].
    rewrite bind_run, Hcs. reflexivity. }
  assert (Hne : filter (isActiveOf userId) (contacts w) <> []).
  { intros Hnil. rewrite getActiveContacts_run, Hnil in Hcs. discriminate. }
  right.
  destruct (createAlert_outcome E userId b w)
    as [(p & Ha & Hp & Hg & Hc & _) | (e & He & Hal)].
  - right.
    assert (Hv : validActivation E userId b w).
    { repeat split; trivial. exists p. split; assumption. }
    destruct (fst (findUserById userId w)) as [u | ] eqn:Hu.
    + right. exists u. split; [exact Hv | split; [reflexivity | ]].
      apply activatePanicButton_valid; assumption.
    + left. split; [exact Hv | split; [reflexivity | ]].
      apply activatePanicButton_no_user; assumption.
  - left. exists e. split; [ | exact Hal].
    unfold activatePanicButton. rewrite Hlon, Hlat. cbn [negb orb].
    rewrite bind_run, Hcs.
    replace (snd (getActiveContacts userId w)) with w by reflexivity.
    rewrite bind_run, He. reflexivity.
Qed.

Lemma afterDispatch_emitted E userId u b w :
  validActivation E userId b w ->
  emitted (afterDispatch E userId u b w) = emitted w.
Proof.
  intros Hv. unfold afterDispatch. rewrite dispatch_emitted.
  apply beforeDispatch_emitted, Hv.
Qed.

Lemma afterDispatch_users E userId u b w :
  validActivation E userId b w ->
  users (afterDispatch E userId u b w)
  = map (fun d => if User._id d =? User._id u
                  then located E u b (clock E (S (ticks w))) else d) (users w).
Proof.
  intros Hv. pose proof Hv as (_ & _ & _ & _ & p & Hp & Hg).
  unfold afterDispatch. rewrite dispatch_users. unfold beforeDispatch.
  destruct (updateLocation_done E u b p
              (snd (findUserById userId (snd (createAlert E userId b w)))) Hp Hg)
    as (_ & -> & _).
  unfold findUserById. cbn [snd].
  destruct (createAlert_frame E userId b w) as (_ & -> & _ & _ & -> & _).
  reflexivity.
Qed.

(** ** What a valid activation stores *)

(** X1: a valid activation appends exactly one alert to the stored ones
    and leaves those as they were.  The new alert has the next id, belongs
    to the caller, is active, carries the first clock reading as
    activation time, the requested type ([panic] by default), the two
    coordinates cast to numbers and no deactivation time.  It carries no
    notification record: the save of the records is rejected and the
    request is answered 500. *)
Theorem activation_creates_one_alert E userId io b w u :
  validActivation E userId b w ->
  fst (findUserById userId w) = Some u ->
  exists a',
    alerts (snd (activatePanicButton E userId io b w)) = alerts w ++ [a']
    /\ EmergencyAlert._id a' = nextId w
    /\ EmergencyAlert.user a' = userId
    /\ EmergencyAlert.status a' = active
    /\ EmergencyAlert.activatedAt a' = clock E (ticks w)
    /\ EmergencyAlert.deactivatedAt a' = None
    /\ alertTypeOf E (alertType b) = Some (EmergencyAlert.alertType a')
    /\ pointOf E b = Some (Location.coordinates (EmergencyAlert.location a'))
    /\ EmergencyAlert.notifiedContacts a' = []
    /\ Response.status (fst (activatePanicButton E userId io b w)) = 500
    /\ Response.success (fst (activatePanicButton E userId io b w)) = false.
Proof.
  intros Hv Hu. pose proof Hv as (_ & _ & _ & Ha & p & Hp & _).
  rewrite (activatePanicButton_valid E userId io b w u Hv Hu). cbn [fst snd].
  exists (createdAlert E userId b w).
  split; [apply afterDispatch_alerts, Hv | ].
  unfold acceptableAlert in Ha. repeat (apply andb_true_iff in Ha as [Ha ?]).
  match goal with Hacc : accepts (alertTypeOf _ _) = true |- _ =>
    destruct (accepts_Some _ Hacc) as (ty & Hty) end.
  unfold createdAlert, newAlert, EmergencyAlert.preSave. simpl.
  rewrite Hp. repeat split; trivial. rewrite Hty. reflexivity.
Qed.

(** X2: a valid activation writes the coordinates of the request, cast to
    numbers, and its address, with the time of the write, into the
    caller's user document and leaves the name, the email, the phone and
    the contact list of that document alone. *)
Theorem activation_updates_user_location E userId io b w u :
  validActivation E userId b w ->
  fst (findUserById userId w) = Some u ->
  exists u',
    In u' (users (snd (activatePanicButton E userId io b w)))
    /\ User._id u' = userId
    /\ pointOf E b = Some (User.coordinates (User.location u'))
    /\ User.address (User.location u') = castOpt (castString E (address b))
    /\ User.lastUpdated (User.location u') = Some (clock E (S (ticks w)))
    /\ User.name u' = User.name u
    /\ User.email u' = User.email u
    /\ User.phone u' = User.phone u
    /\ User.emergencyContacts u' = User.emergencyContacts u.
Proof.
  intros Hv Hu. pose proof Hv as (_ & _ & _ & _ & p & Hp & _).
  rewrite (activatePanicButton_valid E userId io b w u Hv Hu). cbn [snd].
  rewrite afterDispatch_users by exact Hv.
  unfold findUserById in Hu. cbn [fst] in Hu.
  apply find_some in Hu as [Hin Hid]. apply Nat.eqb_eq in Hid.
  exists (located E u b (clock E (S (ticks w)))). split.
  - apply in_map_iff. exists u. rewrite Nat.eqb_refl. split; trivial.
  - unfold located. simpl. rewrite Hp. repeat split; trivial.
Qed.

(** X3: when the caller has no user document the request ends in the catch
    block with status 500, but only after the alert was created: the alert
    stays stored, active and without notification records, while no
    contact is notified, no counter moves and no socket event is emitted. *)
Theorem activation_without_user_document E userId io b w :
  validActivation E userId b w ->
  fst (findUserById userId w) = None ->
  Response.status (fst (activatePanicButton E userId io b w)) = 500
  /\ Response.success (fst (activatePanicButton E userId io b w)) = false
  /\ Response.message (fst (activatePanicButton E userId io b w))
     = Some "Error activating emergency alert"
  /\ alerts (snd (activatePanicButton E userId io b w))
     = alerts w ++ [createdAlert E userId b w]
  /\ EmergencyAlert.status (createdAlert E userId b w) = active
  /\ EmergencyAlert.notifiedContacts (createdAlert E userId b w) = []
  /\ contacts (snd (activatePanicButton E userId io b w)) = contacts w
  /\ outbox (snd (activatePanicButton E userId io b w)) = outbox w
  /\ emitted (snd (activatePanicButton E userId io b w)) = emitted w.
Proof.
  intros Hv Hu.
  rewrite (activatePanicButton_no_user E userId io b w Hv Hu). cbn [fst snd].
  destruct (createAlert_done E userId b w Hv) as [_ Hal].
  destruct (createAlert_frame E userId b w) as (Hcc & _ & Hco & Hce & _).
  repeat split; trivial.
Qed.

(** X4: no request to activate emits an [alert_activated] event, with or
    without a socket server, and none is answered 201: the emit and the
    201 come after the save of the notification records, which is
    rejected whenever the request gets that far. *)
Theorem activation_emits_no_event E userId io b w :
  emitted (snd (activatePanicButton E userId io b w)) = emitted w
  /\ Response.status (fst (activatePanicButton E userId io b w)) <> 201
  /\ Response.success (fst (activatePanicButton E userId io b w)) = false.
Proof.
  destruct (createAlert_frame E userId b w) as (_ & _ & _ & Hce & _).
  destruct (activatePanicButton_cases E userId io b w)
    as [[Hr | Hr] | [(e & Hr & _) | [(_ & _ & Hr) | (u & Hv & _ & Hr)]]];
    rewrite Hr; cbn [fst snd];
    (split; [ | split; [discriminate | reflexivity]]); trivial.
  apply afterDispatch_emitted, Hv.
Qed.

(** ** How many messages an activation hands out *)

Lemma sendSMS_ticks E p m w : ticks (snd (sendSMS E p m w)) = ticks w.
Proof.
  unfold sendSMS, sendSMSTermii, deliver, modify.
  destruct (JS.startsWith p "+234" && JS.truthy_str (TERMII_API_KEY E));
    [ | destruct (negb (twilioClient E))]; run; reflexivity.
Qed.

Lemma sendSMS_outbox_length E p m w :
  List.length (outbox (snd (sendSMS E p m w))) <= S (List.length (outbox w)).
Proof.
  unfold sendSMS, sendSMSTermii, deliver, modify.
  destruct (JS.startsWith p "+234" && JS.truthy_str (TERMII_API_KEY E));
    [ | destruct (negb (twilioClient E))]; run;
    cbn [outbox with_outbox]; rewrite ?length_app; simpl; lia.
Qed.

Lemma trySms_outbox_length E c msg n w :
  List.length (outbox (snd (trySms E c msg n w)))
  <= List.length (outbox w)
     + (if Prefs.sms (EmergencyContact.notificationPreferences c) then 1 else 0).
Proof.
  unfold trySms.
  destruct (Prefs.sms (EmergencyContact.notificationPreferences c)); run; [ | simpl; lia].
  pose proof (sendSMS_outbox_length E (EmergencyContact.phone c) msg w) as H.
  destruct (fst (sendSMS E (EmergencyContact.phone c) msg w)); run;
    unfold incrementAlertCount, saveAlertFields, modify, dateNow; run;
    cbn [outbox with_contacts with_ticks]; lia.
Qed.

Lemma tryEmail_outbox_length E u b c n w :
  List.length (outbox (snd (tryEmail E u b c n w)))
  = List.length (outbox w)
    + (if Prefs.email (EmergencyContact.notificationPreferences c)
          && JS.truthy_str (EmergencyContact.email c) then 1 else 0).
Proof.
  unfold tryEmail, sendEmail, deliver, modify, dateNow.
  destruct (Prefs.email (EmergencyContact.notificationPreferences c)
            && JS.truthy_str (EmergencyContact.email c)); run.
  - destruct (sendMail E _ _ _); run; cbn [outbox with_outbox with_ticks];
      rewrite length_app; reflexivity.
  - lia.
Qed.

Lemma tryPush_outbox_length E u a c n w :
  List.length (outbox (snd (tryPush E u a c n w)))
  = List.length (outbox w)
    + (if Prefs.push (EmergencyContact.notificationPreferences c) then 1 else 0).
Proof.
  unfold tryPush, sendPush, deliver, modify.
  destruct (Prefs.push (EmergencyContact.notificationPreferences c)); run.
  - destruct (sendPushNotification E _ _ _); run; cbn [outbox with_outbox];
      rewrite length_app; reflexivity.
  - lia.
Qed.

Lemma enabledChannels_length c :
  List.length (enabledChannels c)
  = (if Prefs.sms (EmergencyContact.notificationPreferences c) then 1 else 0)
    + (if Prefs.email (EmergencyContact.notificationPreferences c)
          && JS.truthy_str (EmergencyContact.email c) then 1 else 0)
    + (if Prefs.push (EmergencyContact.notificationPreferences c) then 1 else 0).
Proof.
  unfold enabledChannels.
  destruct (Prefs.sms _), (Prefs.email _ && JS.truthy_str _), (Prefs.push _); reflexivity.
Qed.

Lemma notifyContact_outbox_length E u a b c w :
  List.length (outbox (snd (notifyContact E u a b c w)))
  <= List.length (outbox w) + List.length (enabledChannels c).
Proof.
  rewrite notifyContact_run, tryPush_outbox_length, tryEmail_outbox_length.
  rewrite enabledChannels_length.
  match goal with
  | |- context [outbox (snd (trySms E c ?m ?n ?w0))] =>
      pose proof (trySms_outbox_length E c m n w0) as H
  end.
  cbn [outbox with_ticks] in H. lia.
Qed.

Lemma dispatch_outbox_length E u a b cs w :
  List.length (outbox (snd (dispatch E u a b cs w)))
  <= List.length (outbox w) + attemptsFor cs.
Proof.
  unfold dispatch, attemptsFor. revert w.
  induction cs as [| c r IH]; intros w; simpl; [lia | ].
  run. rewrite length_app.
  pose proof (IH (snd (notifyContact E u a b c w))) as H1.
  pose proof (notifyContact_outbox_length E u a b c w) as H2. lia.
Qed.

(** X5: a valid activation hands at most one message per enabled channel of
    each active contact to the providers: the outbox grows by no more than
    the number of channel attempts the active contacts call for. *)
Theorem activation_attempts_bounded E userId io b w u :
  JS.truthy (longitude b) = true ->
  JS.truthy (latitude b) = true ->
  filter (isActiveOf userId) (contacts w) <> [] ->
  fst (findUserById userId w) = Some u ->
  List.length (outbox (snd (activatePanicButton E userId io b w)))
  <= List.length (outbox w) + attemptsFor (fst (getActiveContacts userId w)).
Proof.
  intros _ _ _ _.
  destruct (createAlert_frame E userId b w) as (_ & _ & Hco & _).
  destruct (activatePanicButton_cases E userId io b w)
    as [[Hr | Hr] | [(e & Hr & _) | [(_ & _ & Hr) | (u' & Hv & _ & Hr)]]];
    rewrite Hr; cbn [snd]; rewrite ?Hco; try lia.
  unfold afterDispatch.
  eapply Nat.le_trans; [apply dispatch_outbox_length | ].
  rewrite beforeDispatch_outbox by exact Hv. lia.
Qed.

(** ** Which counters an activation moves *)

Lemma trySms_contacts E c msg n w :
  contacts (snd (trySms E c msg n w))
  = if Prefs.sms (EmergencyContact.notificationPreferences c)
       && smsResolves E (EmergencyContact.phone c) msg
    then map (bump c (clock E (ticks w)) (clock E (S (ticks w)))) (contacts w)
    else contacts w.
Proof.
  unfold trySms, smsResolves.
  destruct (Prefs.sms (EmergencyContact.notificationPreferences c)); [ | reflexivity].
  run. cbn [andb]. rewrite <- (sendSMS_result E (EmergencyContact.phone c) msg w).
  pose proof (sendSMS_frame E (EmergencyContact.phone c) msg w) as (Hc & _).
  pose proof (sendSMS_ticks E (EmergencyContact.phone c) msg w) as Ht.
  destruct (fst (sendSMS E (EmergencyContact.phone c) msg w)); run.
  - unfold incrementAlertCount, saveAlertFields, modify, dateNow. run.
    cbn [contacts with_contacts with_ticks ticks]. rewrite Hc, Ht. reflexivity.
  - exact Hc.
Qed.

Lemma notifyContact_contacts E u a b c w :
  contacts (snd (notifyContact E u a b c w))
  = if Prefs.sms (EmergencyContact.notificationPreferences c)
       && smsResolves E (EmergencyContact.phone c)
            (alertMessage E u b (clock E (ticks w)))
    then map (bump c (clock E (S (S (ticks w)))) (clock E (S (S (S (ticks w))))))
             (contacts w)
    else contacts w.
Proof.
  rewrite notifyContact_run, tryPush_contacts, tryEmail_contacts, trySms_contacts.
  reflexivity.
Qed.

Lemma dispatch_contacts_all_sms_failing E u a b cs w :
  (forall p m, smsResolves E p m = false) ->
  contacts (snd (dispatch E u a b cs w)) = contacts w.
Proof.
  intros Hfail. unfold dispatch. apply (Keeps_mapM contacts). intros c w0.
  rewrite notifyContact_contacts, Hfail, andb_false_r. reflexivity.
Qed.

(** X6: when every SMS attempt throws, a request to activate leaves the
    contact collection exactly as it was, however the request ends: no
    alert counter is incremented and no last-alert time is set, whatever
    the email and push channels do. *)
Theorem activation_all_sms_failing_moves_no_counter E userId io b w :
  (forall p m, smsResolves E p m = false) ->
  contacts (snd (activatePanicButton E userId io b w)) = contacts w.
Proof.
  intros Hfail.
  destruct (createAlert_frame E userId b w) as (Hcc & _).
  destruct (activatePanicButton_cases E userId io b w)
    as [[Hr | Hr] | [(e & Hr & _) | [(_ & _ & Hr) | (u & Hv & _ & Hr)]]];
    rewrite Hr; cbn [snd]; trivial.
  unfold afterDispatch.
  rewrite dispatch_contacts_all_sms_failing by exact Hfail.
  apply beforeDispatch_contacts, Hv.
Qed.

Lemma distinctIds_inj l (c d : EmergencyContact.t) :
  distinctIds l -> In c l -> In d l ->
  EmergencyContact._id c = EmergencyContact._id d -> c = d.
Proof.
  unfold distinctIds. induction l as [| x r IH]; simpl; intros Hnd Hc Hd Heq; [contradiction | ].
  inversion Hnd as [| ? ? Hnot Hr]; subst.
  destruct Hc as [-> | Hc], Hd as [-> | Hd]; trivial.
  - exfalso. apply Hnot. rewrite Heq. apply in_map, Hd.
  - exfalso. apply Hnot. rewrite <- Heq. apply in_map, Hc.
  - apply IH; assumption.
Qed.

Lemma dispatch_keeps_strangers E u a b cs :
  forall w d,
    (forall c, In c cs -> EmergencyContact._id c <> EmergencyContact._id d) ->
    In d (contacts w) ->
    In d (contacts (snd (dispatch E u a b cs w))).
Proof.
  unfold dispatch.
  induction cs as [| c r IH]; intros w d Hids Hin; simpl; [exact Hin | ].
  run. apply IH.
  - intros c' Hc'. apply Hids. right; exact Hc'.
  - rewrite notifyContact_contacts.
    destruct (Prefs.sms (EmergencyContact.notificationPreferences c)
              && smsResolves E _ _); [ | exact Hin].
    apply in_map_iff. exists d. split; [ | exact Hin].
    apply bump_other, not_eq_sym, Hids. left; reflexivity.
Qed.

(** What becomes of a stored contact during the dispatch: it stays as it
    is, or it is the document of a notified contact with SMS enabled and
    gets that contact's counter plus one. *)
Lemma dispatch_contact_fate E u a b cs :
  forall w d,
    NoDup (map EmergencyContact._id cs) ->
    In d (contacts w) ->
    In d (contacts (snd (dispatch E u a b cs w)))
    \/ exists c t t',
         In c cs
         /\ EmergencyContact._id c = EmergencyContact._id d
         /\ Prefs.sms (EmergencyContact.notificationPreferences c) = true
         /\ In (EmergencyContact.set_alert (EmergencyContact.alertCount c + 1)%Z
                  (Some t) t' d)
               (contacts (snd (dispatch E u a b cs w))).
Proof.
  induction cs as [| x r IH]; intros w d Hnd Hin; [left; exact Hin | ].
  inversion Hnd as [| ? ? Hnot Hr]; subst.
  change (dispatch E u a b (x :: r) w) with (mapM (notifyContact E u a b) (x :: r) w).
  simpl. run. fold (dispatch E u a b r).
  pose proof (notifyContact_contacts E u a b x w) as Hstep.
  destruct (Prefs.sms (EmergencyContact.notificationPreferences x)) eqn:Hsms;
    cbn [andb] in Hstep.
  - destruct (smsResolves E (EmergencyContact.phone x) _).
    + destruct (Nat.eq_dec (EmergencyContact._id d) (EmergencyContact._id x)) as [Heq | Hne].
      * right. exists x, (clock E (S (S (ticks w)))), (clock E (S (S (S (ticks w))))).
        split; [left; reflexivity | ].
        split; [symmetry; exact Heq | ].
        split; [exact Hsms | ].
        apply dispatch_keeps_strangers.
        -- intros c' Hc' Hid. apply Hnot.
           cbn [EmergencyContact._id EmergencyContact.set_alert] in Hid.
           rewrite <- Heq, <- Hid. apply in_map, Hc'.
        -- rewrite Hstep. apply in_map_iff. exists d. split; [ | exact Hin].
           unfold bump. apply Nat.eqb_eq in Heq. rewrite Heq. reflexivity.
      * destruct (IH (snd (notifyContact E u a b x w)) d Hr) as [Hk | (c & t & t' & Hc & Hrest)].
        -- rewrite Hstep. apply in_map_iff. exists d. split; [ | exact Hin].
           apply bump_other, Hne.
        -- left; exact Hk.
        -- right. exists c, t, t'. split; [right; exact Hc | exact Hrest].
    + destruct (IH (snd (notifyContact E u a b x w)) d Hr) as [Hk | (c & t & t' & Hc & Hrest)].
      * rewrite Hstep. exact Hin.
      * left; exact Hk.
      * right. exists c, t, t'. split; [right; exact Hc | exact Hrest].
  - destruct (IH (snd (notifyContact E u a b x w)) d Hr) as [Hk | (c & t & t' & Hc & Hrest)].
    + rewrite Hstep. exact Hin.
    + left; exact Hk.
    + right. exists c, t, t'. split; [right; exact Hc | exact Hrest].
Qed.

Lemma dispatch_contacts_length E u a b cs w :
  List.length (contacts (snd (dispatch E u a b cs w))) = List.length (contacts w).
Proof.
  unfold dispatch. apply (Keeps_mapM (fun w0 => List.length (contacts w0))). intros c w0.
  rewrite notifyContact_contacts.
  destruct (Prefs.sms _ && smsResolves E _ _); [apply length_map | reflexivity].
Qed.

(** X7: in a store with distinct ids a valid activation changes nothing in
    the contact collection but the alert counter, the last-alert time and
    the modification time of active contacts of the caller that have SMS
    enabled: every other stored contact stays exactly as it was, such a
    contact either stays as it was or has its counter raised by exactly
    one, and no contact is added or removed. *)
Theorem activation_touches_only_notified_counters E userId io b w u :
  JS.truthy (longitude b) = true ->
  JS.truthy (latitude b) = true ->
  filter (isActiveOf userId) (contacts w) <> [] ->
  fst (findUserById userId w) = Some u ->
  distinctIds (contacts w) ->
  List.length (contacts (snd (activatePanicButton E userId io b w)))
  = List.length (contacts w)
  /\ forall d,
       In d (contacts w) ->
       (isActiveOf userId d = false
        \/ Prefs.sms (EmergencyContact.notificationPreferences d) = false ->
        In d (contacts (snd (activatePanicButton E userId io b w))))
       /\ (In d (contacts (snd (activatePanicButton E userId io b w)))
           \/ exists t t',
                In (EmergencyContact.set_alert (EmergencyContact.alertCount d + 1)%Z
                      (Some t) t' d)
                   (contacts (snd (activatePanicButton E userId io b w)))).
Proof.
  intros _ _ _ _ Hnd.
  destruct (createAlert_frame E userId b w) as (Hcc & _).
  destruct (activatePanicButton_cases E userId io b w)
    as [[Hr | Hr] | [(e & Hr & _) | [(_ & _ & Hr) | (u' & Hv & _ & Hr)]]];
    rewrite Hr; cbn [snd]; rewrite ?Hcc;
    try (split; [reflexivity | intros d Hd; split; [intros _; exact Hd | left; exact Hd]]).
  unfold afterDispatch.
  set (w1 := beforeDispatch E userId u' b w).
  assert (Hw1 : contacts w1 = contacts w) by (apply beforeDispatch_contacts, Hv).
  split.
  - rewrite dispatch_contacts_length, Hw1. reflexivity.
  - intros d Hd. rewrite <- Hw1 in Hd.
    assert (Hfate :
      In d (contacts (snd (dispatch E (located E u' b (clock E (S (ticks w))))
                             (createdAlert E userId b w) b
                             (fst (getActiveContacts userId w)) w1)))
      \/ exists t t',
           isActiveOf userId d = true
           /\ Prefs.sms (EmergencyContact.notificationPreferences d) = true
           /\ In (EmergencyContact.set_alert (EmergencyContact.alertCount d + 1)%Z
                    (Some t) t' d)
                 (contacts (snd (dispatch E (located E u' b (clock E (S (ticks w))))
                                   (createdAlert E userId b w) b
                                   (fst (getActiveContacts userId w)) w1)))).
    { destruct (dispatch_contact_fate E (located E u' b (clock E (S (ticks w))))
                  (createdAlert E userId b w) b (fst (getActiveContacts userId w))
                  w1 d (activeContacts_distinct userId w Hnd) Hd)
        as [Hk | (c & t & t' & Hc & Hid & Hsms & Hin)]; [left; exact Hk | ].
      right. exists t, t'.
      rewrite getActiveContacts_run in Hc. cbn [fst] in Hc.
      apply (Permutation_in _ (sortContacts_perm _)) in Hc.
      apply filter_In in Hc as [Hcw Hact]. rewrite Hw1 in Hd.
      assert (c = d) as -> by (apply (distinctIds_inj (contacts w)); assumption).
      split; [exact Hact | split; [exact Hsms | exact Hin]]. }
    split.
    + intros Hnot. destruct Hfate as [Hk | (t & t' & Hact & Hsms & _)]; [exact Hk | ].
      destruct Hnot; congruence.
    + destruct Hfate as [Hk | (t & t' & _ & _ & Hin)];
        [left; exact Hk | right; exists t, t'; exact Hin].
Qed.


(** ** The alert lifecycle, continued *)

Lemma resolveAlert_alerts E userId id b w :
  alerts (snd (resolveAlert E userId id b w))
  = match fst (findAlert id userId w) with
    | Some a =>
        if Status_eqb (EmergencyAlert.status a) active
        then map (fun d =>
                    if EmergencyAlert._id d =? EmergencyAlert._id a
                    then fst (resolveAlertMethod E a userId (outcome b) (notes b) w)
                    else d) (alerts w)
        else alerts w
    | None => alerts w
    end.
Proof.
  unfold resolveAlert. rewrite bind_run, findAlert_run. cbn [fst snd].
  destruct (find _ (alerts w)) as [a | ]; [ | reflexivity].
  destruct (Status_eqb (EmergencyAlert.status a) active); cbn [negb]; [ | reflexivity].
  rewrite bind_run, resolveAlertMethod_run. cbn [fst snd].
  rewrite bind_run. unfold findUserById. cbn [fst snd users with_alerts with_ticks].
  destruct (find (fun u => User._id u =? userId) (users w)); [ | reflexivity].
  run. unfold findContactsIn. cbn [fst snd].
  rewrite resolve_notices_frame. reflexivity.
Qed.

Lemma markFalseAlarm_alerts E userId id w :
  alerts (snd (markFalseAlarm E userId id w))
  = match fst (findAlert id userId w) with
    | Some a =>
        map (fun d =>
               if EmergencyAlert._id d =? EmergencyAlert._id a
               then fst (markAsFalseAlarm E a w)
               else d) (alerts w)
    | None => alerts w
    end.
Proof.
  unfold markFalseAlarm. rewrite bind_run, findAlert_run. cbn [fst snd].
  destruct (find _ (alerts w)) as [a | ]; reflexivity.
Qed.



Lemma alert_ids_inj l (a c : EmergencyAlert.t) :
  NoDup (map EmergencyAlert._id l) -> In a l -> In c l ->
  EmergencyAlert._id a = EmergencyAlert._id c -> a = c.
Proof.
  induction l as [| x r IH]; simpl; intros Hnd Ha Hc Heq; [contradiction | ].
  inversion Hnd as [| ? ? Hnot Hr]; subst.
  destruct Ha as [-> | Ha], Hc as [-> | Hc]; trivial.
  - exfalso. apply Hnot. rewrite Heq. apply in_map, Hc.
  - exfalso. apply Hnot. rewrite <- Heq. apply in_map, Ha.
  - apply IH; assumption.
Qed.

(** X9: no caller can change another user's alert: in a store with
    distinct alert ids, an alert that belongs to someone else is still
    stored unchanged after any resolve and any false-alarm request of the
    caller, whatever id the request names. *)
Theorem alerts_of_others_untouched E userId id b w a :
  NoDup (map EmergencyAlert._id (alerts w)) ->
  In a (alerts w) ->
  EmergencyAlert.user a <> userId ->
  In a (alerts (snd (resolveAlert E userId id b w)))
  /\ In a (alerts (snd (markFalseAlarm E userId id w))).
Proof.
  intros Hnd Ha Hother.
  rewrite resolveAlert_alerts, markFalseAlarm_alerts, findAlert_run. cbn [fst].
  destruct (find _ (alerts w)) as [a0 | ] eqn:Hf; [ | split; exact Ha].
  apply find_some in Hf as [Ha0 Hp]. apply andb_true_iff in Hp as [_ Hu0].
  apply Nat.eqb_eq in Hu0.
  assert (Hne : EmergencyAlert._id a <> EmergencyAlert._id a0).
  { intros Heq. apply Hother.
    rewrite (alert_ids_inj (alerts w) a a0 Hnd Ha Ha0 Heq). exact Hu0. }
  apply Nat.eqb_neq in Hne.
  assert (Hkeep : forall a', In a (map (fun d =>
                     if EmergencyAlert._id d =? EmergencyAlert._id a0 then a' else d)
                     (alerts w))).
  { intros a'. apply in_map_iff. exists a. rewrite Hne. split; trivial. }
  split.
  - destruct (Status_eqb (EmergencyAlert.status a0) active); [apply Hkeep | exact Ha].
  - apply Hkeep.
Qed.



(** ** The alert history *)

Lemma notOlder_recentFirst a b : notOlder a b = true <-> recentFirst a b.
Proof. unfold notOlder, recentFirst. apply Z.leb_le. Qed.

Lemma insertRecent_perm a l : Permutation (a :: l) (insertRecent a l).
Proof.
  induction l as [| x r IH]; simpl; [reflexivity | ].
  destruct (notOlder a x); [reflexivity | ].
  rewrite perm_swap. constructor. exact IH.
Qed.

Lemma sortRecent_perm l : Permutation l (sortRecent l).
Proof.
  induction l as [| a r IH]; simpl; [constructor | ].
  rewrite <- insertRecent_perm. constructor. exact IH.
Qed.

Lemma insertRecent_sorted a l :
  StronglySorted recentFirst l -> StronglySorted recentFirst (insertRecent a l).
Proof.
  induction 1 as [| x r Hr IH Hx]; simpl.
  - repeat constructor.
  - destruct (notOlder a x) eqn:Hax.
    + apply notOlder_recentFirst in Hax. constructor.
      * constructor; assumption.
      * constructor; [exact Hax | ].
        eapply Forall_impl; [ | exact Hx]. intros c Hc.
        unfold recentFirst in *. lia.
    + constructor; [exact IH | ].
      assert (Hxa : recentFirst x a).
      { unfold notOlder in Hax. apply Z.leb_gt in Hax. unfold recentFirst. lia. }
      eapply Permutation_Forall; [apply insertRecent_perm | ].
      constructor; assumption.
Qed.

Lemma sortRecent_sorted l : StronglySorted recentFirst (sortRecent l).
Proof.
  induction l as [| a r IH]; simpl; [constructor | apply insertRecent_sorted, IH].
Qed.

Lemma populate_alert flag cs l : map Populated.alert (map (populate flag cs) l) = l.
Proof. rewrite map_map. simpl. apply map_id. Qed.

(** X11: the alert history answers 200 with alerts of the caller only,
    most recent first, and at most [limit] of them, where the limit is 10
    when the query parameter is missing, not a number or zero; the listed
    alerts are the most recent ones (every alert of the caller left out is
    no more recent than any listed one), and nothing is changed. *)
Theorem getAlertHistory_most_recent_first userId parsed w :
  snd (getAlertHistory userId parsed w) = w
  /\ AlertList.status (fst (getAlertHistory userId parsed w)) = 200
  /\ AlertList.count (fst (getAlertHistory userId parsed w))
     = List.length (AlertList.data (fst (getAlertHistory userId parsed w)))
  /\ List.length (AlertList.data (fst (getAlertHistory userId parsed w)))
     = Nat.min (match parsed with Some (S n) => S n | _ => 10 end)
         (List.length (filter (isAlertOf userId) (alerts w)))
  /\ Forall (fun p => EmergencyAlert.user (Populated.alert p) = userId)
       (AlertList.data (fst (getAlertHistory userId parsed w)))
  /\ exists rest,
       Permutation
         (map Populated.alert (AlertList.data (fst (getAlertHistory userId parsed w)))
          ++ rest)
         (filter (isAlertOf userId) (alerts w))
       /\ StronglySorted recentFirst
            (map Populated.alert
               (AlertList.data (fst (getAlertHistory userId parsed w)))
             ++ rest).
Proof.
  unfold getAlertHistory, getUserAlertHistory. run.
  cbn [AlertList.status AlertList.count AlertList.data].
  set (limit := match parsed with Some (S n) => S n | _ => 10 end).
  assert (Hl : (limit =? 0) = false).
  { apply Nat.eqb_neq. unfold limit. destruct parsed as [[| n] | ]; discriminate. }
  rewrite Hl.
  set (mine := filter (isAlertOf userId) (alerts w)).
  split; [reflexivity | ]. split; [reflexivity | ]. split; [reflexivity | ].
  split.
  { rewrite length_map, length_firstn.
    rewrite <- (Permutation_length (sortRecent_perm mine)). reflexivity. }
  split.
  { apply Forall_forall. intros p Hp. apply in_map_iff in Hp as (a & <- & Ha).
    assert (Ha' : In a (sortRecent mine)).
    { rewrite <- (firstn_skipn limit (sortRecent mine)). apply in_or_app. left; exact Ha. }
    clear Ha. rename Ha' into Ha.
    apply (Permutation_in _ (Permutation_sym (sortRecent_perm mine))) in Ha.
    unfold mine in Ha. apply filter_In in Ha as [_ Ha].
    apply Nat.eqb_eq in Ha. exact Ha. }
  exists (skipn limit (sortRecent mine)).
  rewrite populate_alert, firstn_skipn. split.
  - apply Permutation_sym, sortRecent_perm.
  - apply sortRecent_sorted.
Qed.


(** ** Deleting a contact *)

Lemma removeFirst_In {A : Type} (sel : A -> bool) (l : list A) a :
  In a (removeFirst sel l) -> In a l.
Proof.
  induction l as [| x r IH]; simpl; [trivial | ].
  destruct (sel x); [right; assumption | ].
  intros [-> | H]; [left; reflexivity | right; apply IH, H].
Qed.

Lemma removeFirst_keeps {A : Type} (sel : A -> bool) (l : list A) a :
  In a l -> sel a = false -> In a (removeFirst sel l).
Proof.
  induction l as [| x r IH]; simpl; intros Hin Hs; [contradiction | ].
  destruct (sel x) eqn:Hx.
  - destruct Hin as [-> | Hin]; [congruence | exact Hin].
  - destruct Hin as [-> | Hin]; [left; reflexivity | right; apply IH; assumption].
Qed.

Lemma removeFirst_length {A : Type} (sel : A -> bool) (l : list A) a :
  In a l -> sel a = true -> S (List.length (removeFirst sel l)) = List.length l.
Proof.
  induction l as [| x r IH]; simpl; intros Hin Hs; [contradiction | ].
  destruct (sel x) eqn:Hx; [reflexivity | ].
  destruct Hin as [-> | Hin]; [congruence | ].
  simpl. f_equal. apply IH; assumption.
Qed.

Lemma removeFirst_id_gone l id d :
  distinctIds l ->
  In d (removeFirst (fun x => EmergencyContact._id x =? id) l) ->
  EmergencyContact._id d <> id.
Proof.
  unfold distinctIds. induction l as [| x r IH]; simpl; intros Hnd Hin; [contradiction | ].
  inversion Hnd as [| ? ? Hnot Hr]; subst.
  destruct (EmergencyContact._id x =? id) eqn:Hx.
  - apply Nat.eqb_eq in Hx. intros Heq. apply Hnot. rewrite Hx, <- Heq. apply in_map, Hin.
  - destruct Hin as [<- | Hin]; [apply Nat.eqb_neq, Hx | apply IH; assumption].
Qed.

Lemma find_updateFirst {A : Type} (sel : A -> bool) (f : A -> A) (l : list A) :
  (forall x, sel x = true -> sel (f x) = true) ->
  find sel (updateFirst sel f l) = option_map f (find sel l).
Proof.
  intros Hf. induction l as [| x r IH]; simpl; [reflexivity | ].
  destruct (sel x) eqn:Hx; simpl.
  - rewrite (Hf x Hx). reflexivity.
  - rewrite Hx. exact IH.
Qed.

Lemma deleteEmergencyContact_found userId w c :
  distinctIds (contacts w) ->
  In c (contacts w) ->
  EmergencyContact.user c = userId ->
  deleteEmergencyContact userId (EmergencyContact._id c) w
  = (Response.ok 200 "Contact deleted successfully" Response.empty,
     with_users
       (updateFirst (fun u => User._id u =? userId)
          (fun u => User.set_emergencyContacts
                      (filter (fun x => negb (x =? EmergencyContact._id c))
                         (User.emergencyContacts u)) u)
          (users w))
       (with_contacts
          (removeFirst (fun d => EmergencyContact._id d =? EmergencyContact._id c)
             (contacts w)) w)).
Proof.
  intros Hnd Hin Hu. unfold deleteEmergencyContact. rewrite bind_run. cbn [fst snd].
  rewrite (find_by_id (contacts w) c (fun d => EmergencyContact.user d =? userId) Hnd Hin)
    by (apply Nat.eqb_eq, Hu).
  reflexivity.
Qed.

(** X12: deleting one of the caller's contacts, in a store with distinct
    ids, answers 200 and removes exactly that document: every other
    contact stays stored, the collection shrinks by one, the contact no
    longer shows in the caller's listing, and its id is gone from the
    [emergencyContacts] array of the caller's user document. *)
Theorem deleteEmergencyContact_removes userId w c :
  distinctIds (contacts w) ->
  In c (contacts w) ->
  EmergencyContact.user c = userId ->
  Response.status (fst (deleteEmergencyContact userId (EmergencyContact._id c) w)) = 200
  /\ (forall d,
         In d (contacts (snd (deleteEmergencyContact userId (EmergencyContact._id c) w)))
         <-> In d (contacts w) /\ d <> c)
  /\ S (List.length
          (contacts (snd (deleteEmergencyContact userId (EmergencyContact._id c) w))))
     = List.length (contacts w)
  /\ ~ In c (fst (getActiveContacts userId
                    (snd (deleteEmergencyContact userId (EmergencyContact._id c) w))))
  /\ (forall u',
         fst (findUserById userId
                (snd (deleteEmergencyContact userId (EmergencyContact._id c) w)))
         = Some u' ->
         ~ In (EmergencyContact._id c) (User.emergencyContacts u')).
Proof.
  intros Hnd Hin Hu.
  rewrite (deleteEmergencyContact_found userId w c Hnd Hin Hu).
  cbn [fst snd contacts with_users with_contacts Response.status Response.ok].
  assert (Hiff : forall d,
             In d (removeFirst (fun x => EmergencyContact._id x =? EmergencyContact._id c)
                     (contacts w))
             <-> In d (contacts w) /\ d <> c).
  { intros d. split.
    - intros Hd. split; [eapply removeFirst_In, Hd | ].
      intros ->. eapply removeFirst_id_gone; [exact Hnd | exact Hd | reflexivity].
    - intros [Hd Hne]. apply removeFirst_keeps; [exact Hd | ].
      apply Nat.eqb_neq. intros Heq. apply Hne.
      apply (distinctIds_inj (contacts w)); assumption. }
  split; [reflexivity | ]. split; [exact Hiff | ].
  split; [apply (removeFirst_length _ _ c Hin), Nat.eqb_refl | ].
  split.
  - rewrite getActiveContacts_run. cbn [fst contacts with_users with_contacts].
    intros Hc. apply (Permutation_in _ (sortContacts_perm _)) in Hc.
    apply filter_In in Hc as [Hc _]. apply Hiff in Hc as [_ Hne]. apply Hne. reflexivity.
  - intros u'. unfold findUserById. cbn [fst users with_users with_contacts].
    rewrite find_updateFirst by (intros x Hx; exact Hx).
    destruct (find (fun u => User._id u =? userId) (users w)) as [u0 | ]; [ | discriminate].
    cbn [option_map]. intros [= <-].
    cbn [User.emergencyContacts User.set_emergencyContacts].
    intros Hc. apply filter_In in Hc as [_ Hc]. rewrite Nat.eqb_refl in Hc. discriminate.
Qed.

(** X13: no caller can change or remove another user's contact: in a store
    with distinct ids, a contact that belongs to someone else is still
    stored unchanged after any add, update or delete request of the
    caller, whatever body and id the request carries. *)
Theorem contacts_of_others_untouched E userId w d :
  distinctIds (contacts w) ->
  In d (contacts w) ->
  EmergencyContact.user d <> userId ->
  (forall b, In d (contacts (snd (addEmergencyContact E userId b w))))
  /\ (forall id p, In d (contacts (snd (updateEmergencyContact E userId id p w))))
  /\ (forall id, In d (contacts (snd (deleteEmergencyContact userId id w)))).
Proof.
  intros Hnd Hd Hother.
  assert (Hown : forall now (sel : EmergencyContact.t -> bool),
             (forall x, sel x = true -> EmergencyContact.user x = userId) ->
             In d (demote now sel (contacts w))).
  { intros now sel Hsel. pose proof (demote_In now sel _ _ Hd) as H.
    destruct (sel d) eqn:Hs; [ | exact H].
    exfalso. apply Hother, Hsel, Hs. }
  assert (Hfound : forall id c,
             find (fun c => (EmergencyContact._id c =? id)
                            && (EmergencyContact.user c =? userId)) (contacts w) = Some c ->
             EmergencyContact._id d <> id).
  { intros id c Hf. apply find_some in Hf as [Hc Hp].
    apply andb_true_iff in Hp as [Hid Hu].
    apply Nat.eqb_eq in Hid. apply Nat.eqb_eq in Hu.
    intros Heq. apply Hother.
    rewrite (distinctIds_inj (contacts w) d c Hnd Hd Hc) by congruence. exact Hu. }
  split; [ | split].
  - intros b.
    assert (Hdem : In d (demotedOwn E userId (ContactBody.isPrimary b) w)).
    { unfold demotedOwn. destruct (JS.truthy (ContactBody.isPrimary b)); [ | exact Hd].
      apply Hown. intros x Hx. unfold ownPrimary in Hx.
      apply andb_true_iff in Hx as [Hx _]. apply Nat.eqb_eq, Hx. }
    destruct (existingContact E userId b w) as [c | ] eqn:Hx.
    + rewrite (addEmergencyContact_known E userId b w c Hx). exact Hd.
    + destruct (acceptable E b) eqn:Ha.
      * destruct (addEmergencyContact_fresh E userId b w Hx Ha) as (_ & -> & _).
        apply in_or_app. left. exact Hdem.
      * destruct (addEmergencyContact_refused E userId b w Hx Ha) as (_ & -> & _).
        exact Hdem.
  - intros id p.
    destruct (find (fun c => (EmergencyContact._id c =? id)
                             && (EmergencyContact.user c =? userId)) (contacts w))
      as [c | ] eqn:Hf.
    + pose proof (Hfound id c Hf) as Hne.
      apply find_some in Hf as [Hc Hp]. apply andb_true_iff in Hp as [Hid Hu].
      apply Nat.eqb_eq in Hid. apply Nat.eqb_eq in Hu. subst id.
      destruct (updateEmergencyContact_found E userId p w c Hnd Hc Hu) as (_ & -> & _).
      assert (Hdem : In d (demotedOthers E userId (EmergencyContact._id c)
                             (ContactPatch.isPrimary p) w)).
      { unfold demotedOthers. destruct (JS.truthy (ContactPatch.isPrimary p)); [ | exact Hd].
        apply Hown. intros x Hx. unfold otherPrimary in Hx.
        apply andb_true_iff in Hx as [Hx _]. apply andb_true_iff in Hx as [Hx _].
        apply Nat.eqb_eq, Hx. }
      destruct (castsPatch p && validPatch E p && negb (violatesIndex _ _));
        [ | exact Hdem].
      apply updateFirst_keeps; [exact Hdem | apply Nat.eqb_neq, Hne].
    + rewrite (updateEmergencyContact_missing E userId id p w Hf). exact Hd.
  - intros id. unfold deleteEmergencyContact. rewrite bind_run. cbn [fst snd].
    destruct (find _ (contacts w)) as [c | ] eqn:Hf; [ | exact Hd].
    pose proof (Hfound id c Hf) as Hne.
    apply find_some in Hf as [_ Hp]. apply andb_true_iff in Hp as [Hid _].
    apply Nat.eqb_eq in Hid.
    unfold removeContact, pullEmergencyContact, modify. run.
    cbn [contacts with_users with_contacts].
    apply removeFirst_keeps; [exact Hd | ]. rewrite Hid. apply Nat.eqb_neq, Hne.
Qed.

(** ** Adding a contact, continued *)

Lemma removeFirst_last {A : Type} (sel : A -> bool) (l : list A) a :
  (forall x, In x l -> sel x = false) -> sel a = true ->
  removeFirst sel (l ++ [a]) = l.
Proof.
  intros Hl Ha. induction l as [| x r IH]; simpl.
  - rewrite Ha. reflexivity.
  - rewrite (Hl x (or_introl eq_refl)). f_equal. apply IH.
    intros y Hy. apply Hl. right; exact Hy.
Qed.

Lemma find_last {A : Type} (sel : A -> bool) (l : list A) a :
  (forall x, In x l -> sel x = false) -> sel a = true ->
  find sel (l ++ [a]) = Some a.
Proof.
  intros Hl Ha. induction l as [| x r IH]; simpl.
  - rewrite Ha. reflexivity.
  - rewrite (Hl x (or_introl eq_refl)). apply IH.
    intros y Hy. apply Hl. right; exact Hy.
Qed.

Lemma updateFirst_twice {A : Type} (sel : A -> bool) (f g : A -> A) (l : list A) :
  (forall x, sel x = true -> sel (f x) = true) ->
  updateFirst sel g (updateFirst sel f l) = updateFirst sel (fun x => g (f x)) l.
Proof.
  intros Hf. induction l as [| x r IH]; simpl; [reflexivity | ].
  destruct (sel x) eqn:Hx; simpl.
  - rewrite (Hf x Hx). reflexivity.
  - rewrite Hx, IH. reflexivity.
Qed.

Lemma updateFirst_same {A : Type} (sel : A -> bool) (f : A -> A) (l : list A) :
  (forall x, In x l -> f x = x) -> updateFirst sel f l = l.
Proof.
  induction l as [| x r IH]; simpl; intros Hf; [reflexivity | ].
  destruct (sel x).
  - rewrite (Hf x (or_introl eq_refl)). reflexivity.
  - f_equal. apply IH. intros y Hy. apply Hf. right; exact Hy.
Qed.

Lemma pull_after_push (u : User.t) (c : nat) :
  ~ In c (User.emergencyContacts u) ->
  User.set_emergencyContacts
    (filter (fun x => negb (x =? c))
       (User.emergencyContacts
          (User.set_emergencyContacts (User.emergencyContacts u ++ [c]) u)))
    (User.set_emergencyContacts (User.emergencyContacts u ++ [c]) u)
  = u.
Proof.
  intros Hc. destruct u as [i n e p l g]. unfold User.set_emergencyContacts. simpl in *.
  f_equal. rewrite filter_app. simpl. rewrite Nat.eqb_refl. simpl. rewrite app_nil_r.
  induction l as [| x r IH]; simpl; [reflexivity | ].
  destruct (x =? c) eqn:Hx.
  - apply Nat.eqb_eq in Hx. exfalso. apply Hc. left; exact Hx.
  - simpl. f_equal. apply IH. intros H. apply Hc. right; exact H.
Qed.

(** X14: adding a contact and deleting it again is a round trip on the
    stored data: when the add answers 201, the value sent as [isPrimary]
    is falsy and the next id is not in use, the delete answers 200 and
    leaves the contacts, the [emergencyContacts] array of every user
    document and the alerts exactly as they were before the add. *)
Theorem add_then_delete_restores E userId b w :
  Response.status (fst (addEmergencyContact E userId b w)) = 201 ->
  JS.truthy (ContactBody.isPrimary b) = false ->
  Forall (fun c => EmergencyContact._id c < nextId w) (contacts w) ->
  (forall u, In u (users w) -> ~ In (nextId w) (User.emergencyContacts u)) ->
  Response.status
    (fst (deleteEmergencyContact userId (nextId w)
            (snd (addEmergencyContact E userId b w)))) = 200
  /\ contacts (snd (deleteEmergencyContact userId (nextId w)
                      (snd (addEmergencyContact E userId b w)))) = contacts w
  /\ map User.emergencyContacts
       (users (snd (deleteEmergencyContact userId (nextId w)
                      (snd (addEmergencyContact E userId b w)))))
     = map User.emergencyContacts (users w)
  /\ alerts (snd (deleteEmergencyContact userId (nextId w)
                    (snd (addEmergencyContact E userId b w)))) = alerts w.
Proof.
  intros Hs Hp Hids Hus.
  destruct (addEmergencyContact_201 E userId b w Hs) as [Hx Hacc].
  destruct (addEmergencyContact_fresh E userId b w Hx Hacc) as (_ & Hc & Hu & Ha & _).
  unfold demotedOwn, readings in Hc. rewrite Hp in Hc.
  assert (Hold : forall x, In x (contacts w) ->
                   (EmergencyContact._id x =? nextId w) = false).
  { intros x Hx0. apply Nat.eqb_neq. rewrite Forall_forall in Hids.
    specialize (Hids x Hx0). cbv beta in Hids. lia. }
  unfold deleteEmergencyContact. rewrite bind_run. cbn [fst snd]. rewrite Hc.
  rewrite (find_last _ _ (newContact E (nextId w) userId b (clock E (ticks w)))).
  - unfold removeContact, pullEmergencyContact, modify. run.
    cbn [contacts users alerts with_users with_contacts Response.status Response.ok].
    rewrite Hc, Hu, Ha.
    split; [reflexivity | ]. split; [ | split; [ | reflexivity]].
    + apply removeFirst_last.
      * intros x Hx0. cbn [EmergencyContact._id newContact]. apply Hold, Hx0.
      * apply Nat.eqb_refl.
    + f_equal. rewrite updateFirst_twice by (intros x Hx0; exact Hx0).
      apply updateFirst_same. intros u Hin. apply pull_after_push, Hus, Hin.
  - intros x Hx0. rewrite (Hold x Hx0). reflexivity.
  - cbn [EmergencyContact._id EmergencyContact.user newContact].
    rewrite !Nat.eqb_refl. reflexivity.
Qed.


(** ** Updating a contact, continued *)

Lemma violatesIndex_collision c l d :
  In d l ->
  EmergencyContact._id d <> EmergencyContact._id c ->
  EmergencyContact.user d = EmergencyContact.user c ->
  EmergencyContact.phone d = EmergencyContact.phone c ->
  violatesIndex c l = true.
Proof.
  intros Hd Hid Hu Hp. unfold violatesIndex. apply existsb_exists. exists d.
  split; [exact Hd | ]. unfold hasPhone.
  apply Nat.eqb_neq in Hid. rewrite Hid, Hu, Hp, Nat.eqb_refl, String.eqb_refl.
  reflexivity.
Qed.

(** X16: the update is not atomic: a patch that sets the primary flag and
    moves the contact to a phone number another contact of the caller
    already has is rejected with status 500, but only after the other
    primary contacts were demoted.  The patched contact is stored
    unpatched, and a caller whose primary contact was another one is left
    without any primary contact. *)
Theorem updateEmergencyContact_fails_after_demotion E userId p w c d t :
  distinctIds (contacts w) ->
  In c (contacts w) ->
  EmergencyContact.user c = userId ->
  JS.truthy (ContactPatch.isPrimary p) = true ->
  In d (contacts w) ->
  EmergencyContact._id d <> EmergencyContact._id c ->
  EmergencyContact.user d = EmergencyContact.user (applyPatch E t p c) ->
  EmergencyContact.phone d = EmergencyContact.phone (applyPatch E t p c) ->
  Response.status (fst (updateEmergencyContact E userId (EmergencyContact._id c) p w)) = 500
  /\ Response.message (fst (updateEmergencyContact E userId (EmergencyContact._id c) p w))
     = Some "Error updating contact"
  /\ contacts (snd (updateEmergencyContact E userId (EmergencyContact._id c) p w))
     = demote (clock E (ticks w)) (otherPrimary userId (EmergencyContact._id c))
         (contacts w)
  /\ In c (contacts (snd (updateEmergencyContact E userId (EmergencyContact._id c) p w)))
  /\ (EmergencyContact.isPrimary c = false ->
      primariesOf userId
        (contacts (snd (updateEmergencyContact E userId (EmergencyContact._id c) p w)))
      = []).
Proof.
  intros Hnd Hc Hu Hp Hd Hid Hud Hph.
  destruct (updateEmergencyContact_found E userId p w c Hnd Hc Hu) as (Hr & Hcs & _).
  assert (Hdem : demotedOthers E userId (EmergencyContact._id c) (ContactPatch.isPrimary p) w
                 = demote (clock E (ticks w))
                     (otherPrimary userId (EmergencyContact._id c)) (contacts w)).
  { unfold demotedOthers. rewrite Hp. reflexivity. }
  assert (Hvi : violatesIndex
                  (applyPatch E (clock E (readings (ContactPatch.isPrimary p) w)) p c)
                  (demotedOthers E userId (EmergencyContact._id c)
                     (ContactPatch.isPrimary p) w) = true).
  { rewrite Hdem, violatesIndex_demote.
    apply (violatesIndex_collision _ (contacts w) d Hd); [exact Hid | exact Hud | exact Hph]. }
  rewrite Hvi in Hr, Hcs. cbn [negb] in Hcs. rewrite andb_false_r in Hcs.
  rewrite Hdem in Hcs.
  assert (Hc1 : In c (demote (clock E (ticks w))
                        (otherPrimary userId (EmergencyContact._id c)) (contacts w))).
  { rewrite <- Hdem. apply demotedOthers_self, Hc. }
  rewrite Hr, Hcs.
  split; [destruct (castsPatch p), (validPatch E p); reflexivity | ].
  split; [destruct (castsPatch p), (validPatch E p); reflexivity | ].
  split; [reflexivity | ].
  split; [exact Hc1 | ].
  intros Hnp. apply filter_none. intros x Hx.
  unfold demote in Hx. apply in_map_iff in Hx as (x0 & <- & Hx0).
  destruct (otherPrimary userId (EmergencyContact._id c) x0) eqn:Ho.
  - apply ownPrimary_demoted.
  - unfold otherPrimary in Ho. unfold ownPrimary.
    destruct (EmergencyContact._id x0 =? EmergencyContact._id c) eqn:Hx0c.
    + apply Nat.eqb_eq in Hx0c.
      rewrite (distinctIds_inj (contacts w) x0 c Hnd Hx0 Hc Hx0c), Hnp.
      apply andb_false_r.
    + simpl in Ho. rewrite andb_true_r in Ho. exact Ho.
Qed.

(** ** At most one primary contact *)





Lemma updateFirst_ids (sel : EmergencyContact.t -> bool) f l :
  (forall x, EmergencyContact._id (f x) = EmergencyContact._id x) ->
  map EmergencyContact._id (updateFirst sel f l) = map EmergencyContact._id l.
Proof.
  intros Hf. induction l as [| x r IH]; simpl; [reflexivity | ].
  destruct (sel x); simpl; [rewrite Hf; reflexivity | rewrite IH; reflexivity].
Qed.





Lemma updateFirst_hit (f : EmergencyContact.t -> EmergencyContact.t) l c :
  distinctIds l -> In c l ->
  In (f c) (updateFirst (fun d => EmergencyContact._id d =? EmergencyContact._id c) f l).
Proof.
  intros Hnd Hin. induction l as [| x r IH]; simpl; [contradiction | ].
  destruct (EmergencyContact._id x =? EmergencyContact._id c) eqn:Hx.
  - apply Nat.eqb_eq in Hx.
    rewrite (distinctIds_inj (x :: r) x c Hnd (or_introl eq_refl) Hin Hx).
    left. reflexivity.
  - destruct Hin as [-> | Hin]; [rewrite Nat.eqb_refl in Hx; discriminate Hx | ].
    right. apply IH; [ | exact Hin].
    unfold distinctIds in *. inversion Hnd; assumption.
Qed.

(** X25: the update writes every path of the schema the body names,
    [user] among them: a successful update whose body names a user hands
    the contact over to that user, with the primary flag the body asks
    for, so that the new owner can end up with two primary contacts. *)
Theorem update_reassigns_owner E userId p w c owner :
  distinctIds (contacts w) ->
  In c (contacts w) ->
  EmergencyContact.user c = userId ->
  ContactPatch.user p = Some owner ->
  Response.status (fst (updateEmergencyContact E userId (EmergencyContact._id c) p w))
  = 200 ->
  exists c',
    Response.data (fst (updateEmergencyContact E userId (EmergencyContact._id c) p w))
    = Response.contact c'
    /\ In c' (contacts (snd (updateEmergencyContact E userId (EmergencyContact._id c) p w)))
    /\ EmergencyContact._id c' = EmergencyContact._id c
    /\ EmergencyContact.user c' = owner
    /\ (castBoolean (ContactPatch.isPrimary p) = Cast.ok true ->
        EmergencyContact.isPrimary c' = true)
    /\ forall d,
         In d (contacts w) -> EmergencyContact.user d <> userId ->
         In d (contacts (snd (updateEmergencyContact E userId (EmergencyContact._id c) p w))).
Proof.
  intros Hnd Hc Hu Hp Hs.
  destruct (updateEmergencyContact_found E userId p w c Hnd Hc Hu) as (Hr & Hcs & _).
  pose proof (demotedOthers_self E userId (ContactPatch.isPrimary p) w c Hc) as Hself.
  rewrite Hr in Hs |- *. rewrite Hcs.
  destruct (castsPatch p); cbn [negb andb] in *; [ | discriminate Hs].
  destruct (validPatch E p); cbn [negb andb] in *; [ | discriminate Hs].
  destruct (violatesIndex _ _); cbn [negb] in *; [discriminate Hs | ].
  exists (applyPatch E (clock E (readings (ContactPatch.isPrimary p) w)) p c).
  split; [reflexivity | ]. split.
  { apply updateFirst_hit; [ | exact Hself].
    unfold distinctIds. rewrite demotedOthers_ids. exact Hnd. }
  split; [reflexivity | ].
  split; [cbn [applyPatch EmergencyContact.user]; rewrite Hp; reflexivity | ].
  split; [intros Hb; apply patchedFlag_true, Hb | ].
  intros d Hd Hother.
  apply updateFirst_keeps.
  - unfold demotedOthers. destruct (JS.truthy (ContactPatch.isPrimary p)); [ | exact Hd].
    pose proof (demote_In (clock E (ticks w))
                  (otherPrimary userId (EmergencyContact._id c)) _ _ Hd) as H.
    destruct (otherPrimary userId (EmergencyContact._id c) d) eqn:Ho; [ | exact H].
    unfold otherPrimary in Ho. apply andb_true_iff in Ho as [Ho _].
    apply andb_true_iff in Ho as [Ho _]. apply Nat.eqb_eq in Ho. contradiction.
  - apply Nat.eqb_neq. intros Heq. apply Hother.
    rewrite (distinctIds_inj (contacts w) d c Hnd Hd Hc Heq). exact Hu.
Qed.

(** ** Ids come from the counter *)

Lemma idsFromCounter_ids w :
  idsFromCounter w
  <-> NoDup (contactIds w)
      /\ Forall (fun i => i < nextId w) (contactIds w)
      /\ NoDup (alertIds w)
      /\ Forall (fun i => i < nextId w) (alertIds w).
Proof.
  unfold idsFromCounter, distinctIds, contactIds, alertIds.
  rewrite !Forall_map. reflexivity.
Qed.

Lemma ids_same w w' :
  contactIds w' = contactIds w -> alertIds w' = alertIds w -> nextId w <= nextId w' ->
  idsFromCounter w -> idsFromCounter w'.
Proof.
  intros Hc Ha Hn. rewrite !idsFromCounter_ids, Hc, Ha.
  intros (H1 & H2 & H3 & H4). repeat split; trivial;
    (eapply Forall_impl; [ | eassumption]); intros i Hi; cbv beta in *; lia.
Qed.

Lemma NoDup_snoc_fresh (l : list nat) n :
  NoDup l -> Forall (fun i => i < n) l -> NoDup (l ++ [n]).
Proof.
  intros Hnd Hlt. induction Hnd as [| x r Hx Hr IH]; simpl.
  - repeat constructor. intros [].
  - inversion Hlt as [| ? ? Hxn Hrn]; subst. constructor; [ | apply IH, Hrn].
    intros Hin. apply in_app_or in Hin as [Hin | [<- | []]]; [contradiction | lia].
Qed.

Lemma ids_contact_added w w' :
  contactIds w' = contactIds w ++ [nextId w] -> alertIds w' = alertIds w ->
  nextId w' = S (nextId w) ->
  idsFromCounter w -> idsFromCounter w'.
Proof.
  intros Hc Ha Hn. rewrite !idsFromCounter_ids, Hc, Ha, Hn.
  intros (H1 & H2 & H3 & H4). repeat split.
  - apply NoDup_snoc_fresh; assumption.
  - apply Forall_app. split.
    + eapply Forall_impl; [ | exact H2]. intros i Hi. cbv beta in *. lia.
    + repeat constructor.
  - exact H3.
  - eapply Forall_impl; [ | exact H4]. intros i Hi. cbv beta in *. lia.
Qed.

Lemma ids_alert_added w w' :
  contactIds w' = contactIds w -> alertIds w' = alertIds w ++ [nextId w] ->
  nextId w' = S (nextId w) ->
  idsFromCounter w -> idsFromCounter w'.
Proof.
  intros Hc Ha Hn. rewrite !idsFromCounter_ids, Hc, Ha, Hn.
  intros (H1 & H2 & H3 & H4). repeat split.
  - exact H1.
  - eapply Forall_impl; [ | exact H2]. intros i Hi. cbv beta in *. lia.
  - apply NoDup_snoc_fresh; assumption.
  - apply Forall_app. split.
    + eapply Forall_impl; [ | exact H4]. intros i Hi. cbv beta in *. lia.
    + repeat constructor.
Qed.

Lemma removeFirst_ids_NoDup sel (l : list EmergencyContact.t) :
  NoDup (map EmergencyContact._id l) ->
  NoDup (map EmergencyContact._id (removeFirst sel l)).
Proof.
  induction l as [| x r IH]; simpl; intros Hnd; [constructor | ].
  inversion Hnd as [| ? ? Hnot Hr]; subst.
  destruct (sel x); [exact Hr | ].
  simpl. constructor; [ | apply IH, Hr].
  intros Hin. apply Hnot. apply in_map_iff in Hin as (y & Hy & Hin).
  rewrite <- Hy. apply in_map. eapply removeFirst_In, Hin.
Qed.

Lemma ids_contact_removed sel w w' :
  contacts w' = removeFirst sel (contacts w) -> alertIds w' = alertIds w ->
  nextId w' = nextId w ->
  idsFromCounter w -> idsFromCounter w'.
Proof.
  intros Hc Ha Hn. rewrite !idsFromCounter_ids. unfold contactIds. rewrite Hc, Ha, Hn.
  intros (H1 & H2 & H3 & H4). repeat split; trivial.
  - apply removeFirst_ids_NoDup, H1.
  - rewrite Forall_map in *. apply Forall_forall. intros x Hx.
    rewrite Forall_forall in H2. apply H2. eapply removeFirst_In, Hx.
Qed.

Lemma replace_alert_ids (a a' : EmergencyAlert.t) l :
  EmergencyAlert._id a' = EmergencyAlert._id a ->
  map EmergencyAlert._id
    (map (fun d => if EmergencyAlert._id d =? EmergencyAlert._id a then a' else d) l)
  = map EmergencyAlert._id l.
Proof.
  intros Hid. rewrite map_map. apply map_ext. intros d.
  destruct (EmergencyAlert._id d =? EmergencyAlert._id a) eqn:Hd; [ | reflexivity].
  apply Nat.eqb_eq in Hd. congruence.
Qed.

Lemma bump_ids c t t' l :
  map EmergencyContact._id (map (bump c t t') l) = map EmergencyContact._id l.
Proof.
  rewrite map_map. apply map_ext. intros d. unfold bump.
  destruct (EmergencyContact._id d =? EmergencyContact._id c); reflexivity.
Qed.

Lemma dispatch_contactIds E u a b cs : Keeps contactIds (dispatch E u a b cs).
Proof.
  unfold dispatch. apply Keeps_mapM. intros c w. unfold contactIds.
  rewrite notifyContact_contacts.
  destruct (Prefs.sms _ && smsResolves E _ _); [apply bump_ids | reflexivity].
Qed.

Lemma resolveAlert_rest E userId id b w :
  contacts (snd (resolveAlert E userId id b w)) = contacts w
  /\ nextId (snd (resolveAlert E userId id b w)) = nextId w.
Proof.
  unfold resolveAlert. rewrite bind_run, findAlert_run. cbn [fst snd].
  destruct (find _ (alerts w)) as [a | ]; [ | split; reflexivity].
  destruct (Status_eqb (EmergencyAlert.status a) active); cbn [negb]; [ | split; reflexivity].
  rewrite bind_run, resolveAlertMethod_run. cbn [fst snd].
  rewrite bind_run. unfold findUserById. cbn [fst snd users with_alerts with_ticks].
  destruct (find (fun u => User._id u =? userId) (users w)); [ | split; reflexivity].
  run. unfold findContactsIn, forEachM. run.
  split.
  - rewrite (mapM_frame _ contacts); [reflexivity | ].
    intros c w0. destruct (Prefs.sms _); run; [apply sendSMS_frame | reflexivity].
  - rewrite (mapM_frame _ nextId); [reflexivity | ].
    intros c w0. destruct (Prefs.sms _); run; [apply sendSMS_frame | reflexivity].
Qed.

Lemma afterDispatch_nextId E userId u b w :
  validActivation E userId b w ->
  nextId (afterDispatch E userId u b w) = S (nextId w).
Proof.
  intros (_ & _ & _ & _ & p & Hp & Hg).
  unfold afterDispatch. rewrite dispatch_nextId. unfold beforeDispatch.
  destruct (updateLocation_done E u b p
              (snd (findUserById userId (snd (createAlert E userId b w)))) Hp Hg)
    as (_ & _ & _ & _ & _ & _ & ->).
  apply (createAlert_frame E userId b w).
Qed.

Lemma activatePanicButton_ids E userId io b w :
  contactIds (snd (activatePanicButton E userId io b w)) = contactIds w
  /\ ((alertIds (snd (activatePanicButton E userId io b w)) = alertIds w
       /\ nextId w <= nextId (snd (activatePanicButton E userId io b w)))
      \/ (alertIds (snd (activatePanicButton E userId io b w)) = alertIds w ++ [nextId w]
          /\ nextId (snd (activatePanicButton E userId io b w)) = S (nextId w))).
Proof.
  destruct (createAlert_frame E userId b w) as (Hcc & _ & _ & _ & _ & Hcn).
  destruct (activatePanicButton_cases E userId io b w)
    as [[Hr | Hr] | [(e & Hr & Hal) | [(Hv & _ & Hr) | (u & Hv & _ & Hr)]]];
    rewrite Hr; cbn [snd].
  - split; [reflexivity | left; split; [reflexivity | lia]].
  - split; [reflexivity | left; split; [reflexivity | lia]].
  - split; [unfold contactIds; rewrite Hcc; reflexivity | left].
    split; [unfold alertIds; rewrite Hal; reflexivity | lia].
  - split; [unfold contactIds; rewrite Hcc; reflexivity | right].
    destruct (createAlert_done E userId b w Hv) as [_ Hal].
    split; [ | exact Hcn].
    unfold alertIds. rewrite Hal, map_app. reflexivity.
  - split.
    + unfold afterDispatch. rewrite dispatch_contactIds.
      unfold contactIds. rewrite beforeDispatch_contacts by exact Hv. reflexivity.
    + right. split; [ | apply afterDispatch_nextId, Hv].
      unfold alertIds. rewrite afterDispatch_alerts by exact Hv.
      rewrite map_app. reflexivity.
Qed.

(** X18: the handlers keep the id discipline the other properties assume:
    when the stored contacts and alerts carry pairwise distinct ids below
    the id counter, they still do after any add, update or delete of a
    contact, any activation, any resolve and any false-alarm request,
    whether the request succeeds or fails. *)
Theorem idsFromCounter_preserved E userId w :
  idsFromCounter w ->
  (forall b, idsFromCounter (snd (addEmergencyContact E userId b w)))
  /\ (forall id p, idsFromCounter (snd (updateEmergencyContact E userId id p w)))
  /\ (forall id, idsFromCounter (snd (deleteEmergencyContact userId id w)))
  /\ (forall io b, idsFromCounter (snd (activatePanicButton E userId io b w)))
  /\ (forall id b, idsFromCounter (snd (resolveAlert E userId id b w)))
  /\ (forall id, idsFromCounter (snd (markFalseAlarm E userId id w))).
Proof.
  intros Hw.
  split; [ | split; [ | split; [ | split; [ | split]]]].
  - intros b.
    assert (Hdem : map EmergencyContact._id (demotedOwn E userId (ContactBody.isPrimary b) w)
                   = contactIds w).
    { unfold demotedOwn, contactIds.
      destruct (JS.truthy (ContactBody.isPrimary b)); [apply demote_ids | reflexivity]. }
    destruct (existingContact E userId b w) as [c | ] eqn:Hx.
    { rewrite (addEmergencyContact_known E userId b w c Hx). exact Hw. }
    destruct (acceptable E b) eqn:Hacc.
    + destruct (addEmergencyContact_fresh E userId b w Hx Hacc) as (_ & Hc & _ & Ha & Hn).
      apply (ids_contact_added w); trivial.
      * unfold contactIds at 1. rewrite Hc, map_app, Hdem. reflexivity.
      * unfold alertIds. rewrite Ha. reflexivity.
    + destruct (addEmergencyContact_refused E userId b w Hx Hacc) as (_ & Hc & _ & Ha & Hn).
      apply (ids_same w); trivial.
      * unfold contactIds at 1. rewrite Hc. exact Hdem.
      * unfold alertIds. rewrite Ha. reflexivity.
      * rewrite Hn. lia.
  - intros id p.
    destruct (find (fun c => (EmergencyContact._id c =? id)
                             && (EmergencyContact.user c =? userId)) (contacts w))
      as [c | ] eqn:Hf.
    2: { rewrite (updateEmergencyContact_missing E userId id p w Hf). exact Hw. }
    apply find_some in Hf as [Hc Hpc]. apply andb_true_iff in Hpc as [Hidc Huc].
    apply Nat.eqb_eq in Hidc. apply Nat.eqb_eq in Huc. subst id.
    assert (Hnd : distinctIds (contacts w)) by apply Hw.
    destruct (updateEmergencyContact_found E userId p w c Hnd Hc Huc)
      as (_ & Hcs & _ & Ha & Hn).
    apply (ids_same w); trivial.
    + unfold contactIds at 1. rewrite Hcs.
      destruct (castsPatch p && validPatch E p && negb (violatesIndex _ _));
        rewrite ?updateFirst_ids by reflexivity; apply demotedOthers_ids.
    + unfold alertIds. rewrite Ha. reflexivity.
    + rewrite Hn. lia.
  - intros id. unfold deleteEmergencyContact. rewrite bind_run. cbn [fst snd].
    destruct (find _ (contacts w)) as [c | ]; [ | exact Hw].
    unfold removeContact, pullEmergencyContact, modify. run.
    eapply (ids_contact_removed _ w); [reflexivity | reflexivity | reflexivity | exact Hw].
  - intros io b.
    destruct (activatePanicButton_ids E userId io b w) as (Hc & [(Ha & Hn) | (Ha & Hn)]).
    + apply (ids_same w); trivial.
    + apply (ids_alert_added w); trivial.
  - intros id b. destruct (resolveAlert_rest E userId id b w) as [Hc Hn].
    apply (ids_same w); trivial.
    + unfold contactIds. rewrite Hc. reflexivity.
    + unfold alertIds. rewrite resolveAlert_alerts.
      destruct (fst (findAlert id userId w)) as [a | ]; [ | reflexivity].
      destruct (Status_eqb (EmergencyAlert.status a) active); [ | reflexivity].
      apply replace_alert_ids. reflexivity.
    + rewrite Hn. lia.
  - intros id. apply (ids_same w); trivial.
    + unfold contactIds, markFalseAlarm. rewrite bind_run, findAlert_run. cbn [fst snd].
      destruct (find _ (alerts w)); reflexivity.
    + unfold alertIds. rewrite markFalseAlarm_alerts.
      destruct (fst (findAlert id userId w)) as [a | ]; [ | reflexivity].
      apply replace_alert_ids. reflexivity.
    + unfold markFalseAlarm. rewrite bind_run, findAlert_run. cbn [fst snd].
      destruct (find _ (alerts w)); [ | cbn; lia]. cbn. lia.
Qed.


(** ** The SMS service *)

(** X19: one call of [sendSMS] hands the message to at most one provider
    and touches nothing else.  A number that starts with +234 goes to
    Termii, and only to Termii, when a Termii key is set, even if Twilio
    is configured too; any other call never reaches Termii, and reaches
    Twilio exactly when the Twilio client exists.  The delivery carries
    the phone number and the body as given. *)
Theorem sendSMS_one_provider E p m w :
  contacts (snd (sendSMS E p m w)) = contacts w
  /\ alerts (snd (sendSMS E p m w)) = alerts w
  /\ users (snd (sendSMS E p m w)) = users w
  /\ outbox (snd (sendSMS E p m w))
     = outbox w
       ++ (if JS.startsWith p "+234" && JS.truthy_str (TERMII_API_KEY E)
           then [ViaTermii p m]
           else if twilioClient E then [ViaTwilio p m] else [])
  /\ filter isTwilio (outbox (snd (sendSMS E p m w)))
     = filter isTwilio (outbox w)
       ++ (if negb (JS.startsWith p "+234" && JS.truthy_str (TERMII_API_KEY E))
              && twilioClient E
           then [ViaTwilio p m] else [])
  /\ (JS.startsWith p "+234" = false ->
      filter isTermii (outbox (snd (sendSMS E p m w))) = filter isTermii (outbox w)).
Proof.
  pose proof (sendSMS_frame E p m w) as (Hc & Ha & Hu & _).
  split; [exact Hc | ]. split; [exact Ha | ]. split; [exact Hu | ].
  unfold sendSMS, sendSMSTermii, deliver, modify.
  destruct (JS.startsWith p "+234") eqn:Hp; cbn [andb];
    [destruct (JS.truthy_str (TERMII_API_KEY E)) | ];
    cbn [negb andb]; try destruct (twilioClient E); cbn [negb]; run;
    cbn [outbox with_outbox]; rewrite ?filter_app, ?app_nil_r;
    (split; [reflexivity | split; [reflexivity | ]]); intros H;
    try discriminate H; cbn [filter isTermii]; rewrite ?app_nil_r; reflexivity.
Qed.

Lemma sendBulkSMS_results E rs w :
  fst (sendBulkSMS E rs w)
  = map (fun r => fst (sendSMS E (fst r) (snd r) emptyWorld)) rs.
Proof.
  unfold sendBulkSMS. revert w. induction rs as [| r rest IH]; intros w; simpl; [reflexivity | ].
  run. rewrite IH, (sendSMS_result E (fst r) (snd r) w). reflexivity.
Qed.

Lemma sendBulkSMS_outbox E rs w :
  List.length (outbox (snd (sendBulkSMS E rs w))) <= List.length (outbox w) + List.length rs.
Proof.
  unfold sendBulkSMS. revert w. induction rs as [| r rest IH]; intros w; simpl; [lia | ].
  run. pose proof (IH (snd (sendSMS E (fst r) (snd r) w))) as H1.
  pose proof (sendSMS_outbox_length E (fst r) (snd r) w) as H2. lia.
Qed.

(** X20: [sendBulkSMS] settles every recipient on its own: it returns one
    result per recipient, in the order of the recipients, each being what
    [sendSMS] alone answers for that phone and body, so a rejected send
    does not affect the others and the call as a whole never rejects; and
    it hands at most one message per recipient to the providers. *)
Theorem sendBulkSMS_settles_each E rs w :
  fst (sendBulkSMS E rs w)
  = map (fun r => fst (sendSMS E (fst r) (snd r) emptyWorld)) rs
  /\ List.length (fst (sendBulkSMS E rs w)) = List.length rs
  /\ List.length (outbox (snd (sendBulkSMS E rs w)))
     <= List.length (outbox w) + List.length rs
  /\ contacts (snd (sendBulkSMS E rs w)) = contacts w
  /\ alerts (snd (sendBulkSMS E rs w)) = alerts w.
Proof.
  split; [apply sendBulkSMS_results | ].
  split; [rewrite sendBulkSMS_results; apply length_map | ].
  split; [apply sendBulkSMS_outbox | ].
  split.
  - unfold sendBulkSMS. apply (mapM_frame _ contacts). intros r w0. apply sendSMS_frame.
  - unfold sendBulkSMS. apply (mapM_frame _ alerts). intros r w0. apply sendSMS_frame.
Qed.

(** ** The authentication middleware *)

Lemma or_else_empty s : JS.or_else (Some s) "" = s.
Proof. unfold JS.or_else. destruct (String.eqb s "") eqn:H; [ | reflexivity].
  apply String.eqb_eq in H. symmetry; exact H. Qed.

Lemma startsWith_truthy h p0 p :
  JS.startsWith h (String p0 p) = true -> JS.truthy_str (Some h) = true.
Proof. destruct h; simpl; [discriminate | reflexivity]. Qed.

(** X21: a header that starts with [Bearer] shadows the cookie: the outcome
    of [protect] then does not depend on the cookie at all, and a header
    without a second, space-separated piece is answered with the 401
    "Please login" response even when the cookie carries a token. *)
Theorem protect_header_shadows_cookie B h c1 c2 :
  JS.startsWith h "Bearer" = true ->
  Auth.protect B {| Auth.authorization := Some h; Auth.cookieToken := c1 |}
  = Auth.protect B {| Auth.authorization := Some h; Auth.cookieToken := c2 |}
  /\ (nth_error (Auth.split " "%char h) 1 = None ->
      Auth.protect B {| Auth.authorization := Some h; Auth.cookieToken := c1 |}
      = inl (Response.fail 401 "Not authorized to access this route. Please login.")).
Proof.
  intros Hb. unfold Auth.protect, Auth.tokenOf.
  cbn [Auth.authorization Auth.cookieToken].
  rewrite or_else_empty, Hb, (startsWith_truthy h _ _ Hb). cbn [andb].
  split; [reflexivity | ]. intros ->. reflexivity.
Qed.

(** X22: [protect] lets a request through only with a non-empty token that
    the verifier accepts, and the user it attaches is the row of the table
    whose id the token decodes to, and that row is active: a deactivated
    account, an unknown id and a rejected token never reach the handler. *)
Theorem protect_passes_only_active_owner B r u :
  Auth.protect B r = inr u ->
  Auth.is_active u = true
  /\ In u (Auth.table B)
  /\ exists token,
       Auth.tokenOf r = Some token
       /\ token <> ""
       /\ Auth.jwtVerify B token = inl (Auth.id u).
Proof.
  unfold Auth.protect. intros H.
  destruct (Auth.tokenOf r) as [token | ] eqn:Ht; [ | discriminate H].
  destruct (JS.truthy_str (Some token)) eqn:Htr; [ | discriminate H].
  cbn [negb] in H. rewrite or_else_empty in H.
  destruct (Auth.jwtVerify B token) as [decoded | msg] eqn:Hv; [ | discriminate H].
  unfold Auth.single in H.
  destruct (filter (fun x => Auth.id x =? decoded) (Auth.table B)) as [| u0 [| u1 rest]] eqn:Hf;
    try discriminate H.
  destruct (Auth.is_active u0) eqn:Hact; [ | discriminate H].
  cbn [negb] in H. injection H as <-.
  assert (Hin : In u0 (filter (fun x => Auth.id x =? decoded) (Auth.table B)))
    by (rewrite Hf; left; reflexivity).
  apply filter_In in Hin as [Hin Hid]. apply Nat.eqb_eq in Hid.
  split; [exact Hact | ]. split; [exact Hin | ].
  exists token. split; [reflexivity | ]. split.
  - intros ->. discriminate Htr.
  - rewrite Hid. exact Hv.
Qed.

(** ** The false-alarm request, whatever the status *)

(** X24: a false-alarm request on an alert of the caller answers 200 from
    every status and stores the alert as a false alarm with the clock
    reading as deactivation time and the floor of (deactivation -
    activation) / 1000 as duration; the notification records and an
    earlier resolution block are kept.  Unlike a resolve, it sends no
    notice: nothing is handed to a provider and no contact is touched. *)
Theorem markFalseAlarm_stores_and_sends_nothing E userId id w a :
  fst (findAlert id userId w) = Some a ->
  exists a',
    fst (markFalseAlarm E userId id w)
    = Response.ok 200 "Alert marked as false alarm" (Response.alert a')
    /\ In a' (alerts (snd (markFalseAlarm E userId id w)))
    /\ EmergencyAlert._id a' = EmergencyAlert._id a
    /\ EmergencyAlert.status a' = false_alarm
    /\ EmergencyAlert.deactivatedAt a' = Some (clock E (ticks w))
    /\ EmergencyAlert.duration a'
       = Some ((clock E (ticks w) - EmergencyAlert.activatedAt a) / 1000)%Z
    /\ EmergencyAlert.activatedAt a' = EmergencyAlert.activatedAt a
    /\ EmergencyAlert.resolution a' = EmergencyAlert.resolution a
    /\ EmergencyAlert.notifiedContacts a' = EmergencyAlert.notifiedContacts a
    /\ contacts (snd (markFalseAlarm E userId id w)) = contacts w
    /\ outbox (snd (markFalseAlarm E userId id w)) = outbox w.
Proof.
  intros Hf.
  exists (fst (markAsFalseAlarm E a w)).
  split.
  { unfold markFalseAlarm. rewrite bind_run, Hf. run. reflexivity. }
  split.
  { rewrite markFalseAlarm_alerts, Hf.
    rewrite findAlert_run in Hf. cbn [fst] in Hf. apply find_some in Hf as [Hin _].
    apply in_map_iff. exists a. rewrite Nat.eqb_refl. split; trivial. }
  repeat split; try reflexivity;
    unfold markFalseAlarm; rewrite bind_run, Hf; reflexivity.
Qed.


(** ** The further properties at sample inputs *)

Lemma lagos_valid_in E userId w :
  filter (isActiveOf userId) (contacts w) <> [] ->
  validActivation E userId Sample.lagos w.
Proof.
  intros Hcs. repeat split; try reflexivity.
  - exact Hcs.
  - exists (3.375%float, 6.5%float). split; reflexivity.
Defined.

Lemma sample_hasContacts :
  filter (isActiveOf 1) (contacts (Sample.world Sample.threeContacts [])) <> [].
Proof. simpl. discriminate. Defined.

Lemma shared_distinct : distinctIds (contacts sharedWorld).
Proof. unfold distinctIds. simpl. repeat constructor; simpl; intuition discriminate. Defined.

Lemma activation_creates_one_alert_witness :
  exists a',
    alerts (snd (activatePanicButton Sample.allFailing 1 true Sample.lagos
                   (Sample.world Sample.threeContacts []))) = [a']
    /\ EmergencyAlert._id a' = 100
    /\ EmergencyAlert.status a' = active
    /\ EmergencyAlert.notifiedContacts a' = []
    /\ Response.status
         (fst (activatePanicButton Sample.allFailing 1 true Sample.lagos
                 (Sample.world Sample.threeContacts []))) = 500.
Proof.
  destruct (activation_creates_one_alert Sample.allFailing 1 true Sample.lagos
              (Sample.world Sample.threeContacts []) (Sample.user 1)
              (lagos_valid Sample.allFailing) eq_refl)
    as (a' & Ha & Hid & _ & Hs & _ & _ & _ & _ & Hn & Hr & _).
  exists a'. repeat split; assumption.
Defined.

Lemma activation_updates_user_location_witness :
  exists u',
    In u' (users (snd (activatePanicButton Sample.allFailing 1 true Sample.lagos
                         (Sample.world Sample.threeContacts []))))
    /\ User._id u' = 1
    /\ User.coordinates (User.location u') = (3.375%float, 6.5%float).
Proof.
  destruct (activation_updates_user_location Sample.allFailing 1 true Sample.lagos
              (Sample.world Sample.threeContacts []) (Sample.user 1)
              (lagos_valid Sample.allFailing) eq_refl)
    as (u' & Hin & Hid & Hc & _).
  exists u'. split; [exact Hin | split; [exact Hid | ]].
  injection Hc as Hc. symmetry. exact Hc.
Defined.

Lemma activation_without_user_document_witness :
  Response.status (fst (activatePanicButton Sample.allWorking 3 true Sample.lagos
                          orphanWorld)) = 500
  /\ List.length (alerts (snd (activatePanicButton Sample.allWorking 3 true Sample.lagos
                                 orphanWorld))) = 1
  /\ outbox (snd (activatePanicButton Sample.allWorking 3 true Sample.lagos orphanWorld))
     = [].
Proof.
  assert (Hcs : filter (isActiveOf 3) (contacts orphanWorld) <> [])
    by (simpl; discriminate).
  destruct (activation_without_user_document Sample.allWorking 3 true Sample.lagos
              orphanWorld (lagos_valid_in Sample.allWorking 3 orphanWorld Hcs) eq_refl)
    as (Hs & _ & _ & Ha & _ & _ & _ & Ho & _).
  split; [exact Hs | split; [rewrite Ha; reflexivity | exact Ho]].
Defined.

Lemma activation_attempts_bounded_witness :
  List.length (outbox (snd (activatePanicButton Sample.allWorking 1 true Sample.lagos
                              (Sample.world Sample.threeContacts [])))) <= 6.
Proof.
  exact (activation_attempts_bounded Sample.allWorking 1 true Sample.lagos
           (Sample.world Sample.threeContacts []) (Sample.user 1)
           eq_refl eq_refl sample_hasContacts eq_refl).
Defined.

Lemma allFailing_sms_fails p m : smsResolves Sample.allFailing p m = false.
Proof.
  unfold smsResolves, sendSMS, Sample.allFailing, Sample.env.
  cbn [TERMII_API_KEY JS.truthy_str]. rewrite andb_false_r. reflexivity.
Defined.

Lemma activation_all_sms_failing_moves_no_counter_witness :
  contacts (snd (activatePanicButton Sample.allFailing 1 true Sample.lagos
                   (Sample.world Sample.threeContacts []))) = Sample.threeContacts.
Proof.
  exact (activation_all_sms_failing_moves_no_counter Sample.allFailing 1 true Sample.lagos
           (Sample.world Sample.threeContacts []) allFailing_sms_fails).
Defined.

Lemma activation_touches_only_notified_counters_witness :
  In strangerContact
     (contacts (snd (activatePanicButton Sample.allWorking 1 true Sample.lagos sharedWorld)))
  /\ List.length
       (contacts (snd (activatePanicButton Sample.allWorking 1 true Sample.lagos
                         sharedWorld))) = 4.
Proof.
  assert (Hcs : filter (isActiveOf 1) (contacts sharedWorld) <> [])
    by (simpl; discriminate).
  destruct (activation_touches_only_notified_counters Sample.allWorking 1 true
              Sample.lagos sharedWorld (Sample.user 1)
              eq_refl eq_refl Hcs eq_refl shared_distinct) as [Hlen Hall].
  split; [ | exact Hlen].
  apply (Hall strangerContact).
  - right. right. right. left. reflexivity.
  - left. reflexivity.
Defined.


Lemma alerts_of_others_untouched_witness :
  In strangerAlert
     (alerts (snd (resolveAlert Sample.allWorking 1 51
                     {| outcome := Some safe; notes := None |} sharedWorld)))
  /\ In strangerAlert (alerts (snd (markFalseAlarm Sample.allWorking 1 51 sharedWorld))).
Proof.
  apply (alerts_of_others_untouched Sample.allWorking 1 51
           {| outcome := Some safe; notes := None |} sharedWorld strangerAlert).
  - simpl. repeat constructor; simpl; intuition discriminate.
  - right. left. reflexivity.
  - simpl. discriminate.
Defined.


Lemma deleteEmergencyContact_removes_witness :
  Response.status
    (fst (deleteEmergencyContact 1 12 (Sample.world Sample.threeContacts []))) = 200
  /\ S (List.length
          (contacts (snd (deleteEmergencyContact 1 12
                            (Sample.world Sample.threeContacts []))))) = 3
  /\ ~ In Sample.second
         (fst (getActiveContacts 1
                 (snd (deleteEmergencyContact 1 12
                         (Sample.world Sample.threeContacts []))))).
Proof.
  destruct (deleteEmergencyContact_removes 1 (Sample.world Sample.threeContacts [])
              Sample.second sample_distinct)
    as (Hs & _ & Hlen & Hgone & _).
  - right. left. reflexivity.
  - reflexivity.
  - split; [exact Hs | split; [exact Hlen | exact Hgone]].
Defined.

Lemma contacts_of_others_untouched_witness :
  In strangerContact
     (contacts (snd (updateEmergencyContact Sample.allWorking 1 21 Sample.primaryPatch
                       sharedWorld)))
  /\ In strangerContact (contacts (snd (deleteEmergencyContact 1 21 sharedWorld)))
  /\ In strangerContact
        (contacts (snd (addEmergencyContact Sample.allWorking 1
                          (Sample.primaryBody "0804444444") sharedWorld))).
Proof.
  destruct (contacts_of_others_untouched Sample.allWorking 1 sharedWorld strangerContact
              shared_distinct)
    as (Hadd & Hupd & Hdel).
  - right. right. right. left. reflexivity.
  - simpl. discriminate.
  - split; [apply Hupd | split; [apply Hdel | apply Hadd]].
Defined.

Lemma add_then_delete_restores_witness :
  contacts (snd (deleteEmergencyContact 1 100
                   (snd (addEmergencyContact Sample.allWorking 1 (plainBody "0809999999")
                           (Sample.world Sample.threeContacts [])))))
  = Sample.threeContacts
  /\ map User.emergencyContacts
       (users (snd (deleteEmergencyContact 1 100
                      (snd (addEmergencyContact Sample.allWorking 1
                              (plainBody "0809999999")
                              (Sample.world Sample.threeContacts []))))))
     = map User.emergencyContacts [Sample.user 1; Sample.user 2].
Proof.
  destruct (add_then_delete_restores Sample.allWorking 1 (plainBody "0809999999")
              (Sample.world Sample.threeContacts []) eq_refl eq_refl)
    as (_ & Hc & Hu & _).
  - simpl. repeat constructor; simpl; lia.
  - intros u [<- | [<- | []]]; simpl; tauto.
  - split; [exact Hc | exact Hu].
Defined.


Lemma updateEmergencyContact_fails_after_demotion_witness :
  Response.status
    (fst (updateEmergencyContact Sample.allWorking 1 11 collidingPatch
            (Sample.world Sample.threeContacts []))) = 500
  /\ primariesOf 1
       (contacts (snd (updateEmergencyContact Sample.allWorking 1 11 collidingPatch
                         (Sample.world Sample.threeContacts [])))) = []
  /\ primariesOf 1 (contacts (Sample.world Sample.threeContacts [])) = [Sample.second].
Proof.
  destruct (updateEmergencyContact_fails_after_demotion Sample.allWorking 1 collidingPatch
              (Sample.world Sample.threeContacts []) Sample.first Sample.second 0%Z
              sample_distinct)
    as (Hs & _ & _ & _ & Hnone).
  - left. reflexivity.
  - reflexivity.
  - reflexivity.
  - right. left. reflexivity.
  - simpl. discriminate.
  - reflexivity.
  - reflexivity.
  - split; [exact Hs | split; [exact (Hnone eq_refl) | reflexivity]].
Defined.



Lemma update_reassigns_owner_witness :
  (exists c',
      In c' (contacts (snd (updateEmergencyContact Sample.allWorking 1 11 movingPatch
                              sharedWorld)))
      /\ EmergencyContact._id c' = 11
      /\ EmergencyContact.user c' = 2
      /\ EmergencyContact.isPrimary c' = true)
  /\ In strangerContact
        (contacts (snd (updateEmergencyContact Sample.allWorking 1 11 movingPatch
                          sharedWorld)))
  /\ EmergencyContact.user strangerContact = 2
  /\ EmergencyContact.isPrimary strangerContact = true.
Proof.
  destruct (update_reassigns_owner Sample.allWorking 1 movingPatch sharedWorld
              Sample.first 2 shared_distinct)
    as (c' & _ & Hin & Hid & Hu & Hpr & Hkeep).
  - left. reflexivity.
  - reflexivity.
  - reflexivity.
  - reflexivity.
  - split; [exists c'; repeat split; trivial; apply Hpr; reflexivity | ].
    split; [ | split; reflexivity].
    apply Hkeep; [right; right; right; left; reflexivity | simpl; discriminate].
Defined.

Lemma activeAlertWorld_ids : idsFromCounter activeAlertWorld.
Proof.
  unfold idsFromCounter, distinctIds. simpl.
  repeat split; repeat constructor; simpl; try lia; intuition discriminate.
Defined.

Lemma idsFromCounter_preserved_witness :
  idsFromCounter
    (snd (activatePanicButton Sample.allWorking 1 true Sample.lagos activeAlertWorld))
  /\ idsFromCounter
       (snd (addEmergencyContact Sample.allWorking 1 (plainBody "0809999999")
               activeAlertWorld)).
Proof.
  destruct (idsFromCounter_preserved Sample.allWorking 1 activeAlertWorld
              activeAlertWorld_ids)
    as (Hadd & _ & _ & Hact & _).
  split; [apply Hact | apply Hadd].
Defined.

Lemma protect_header_shadows_cookie_witness :
  Auth.protect sampleBackend
    {| Auth.authorization := Some "Bearer"; Auth.cookieToken := Some "good" |}
  = inl (Response.fail 401 "Not authorized to access this route. Please login.").
Proof.
  apply (protect_header_shadows_cookie sampleBackend "Bearer" (Some "good") None).
  - reflexivity.
  - reflexivity.
Defined.

Lemma protect_passes_only_active_owner_witness :
  exists u,
    Auth.protect sampleBackend
      {| Auth.authorization := Some "Bearer good"; Auth.cookieToken := None |} = inr u
    /\ Auth.is_active u = true
    /\ Auth.id u = 7.
Proof.
  eexists. split; [reflexivity | ].
  destruct (protect_passes_only_active_owner sampleBackend
              {| Auth.authorization := Some "Bearer good"; Auth.cookieToken := None |}
              _ eq_refl) as (Hact & _).
  split; [exact Hact | reflexivity].
Defined.

Lemma markFalseAlarm_stores_and_sends_nothing_witness :
  exists a',
    In a' (alerts (snd (markFalseAlarm Sample.allWorking 1 50 activeAlertWorld)))
    /\ EmergencyAlert.status a' = false_alarm
    /\ outbox (snd (markFalseAlarm Sample.allWorking 1 50 activeAlertWorld)) = [].
Proof.
  destruct (markFalseAlarm_stores_and_sends_nothing Sample.allWorking 1 50
              activeAlertWorld (Sample.alertOf 50 1 active 1699999990000%Z) eq_refl)
    as (a' & _ & Hin & _ & Hs & _ & _ & _ & _ & _ & _ & Ho).
  exists a'. split; [exact Hin | split; [exact Hs | exact Ho]].
Defined.
